(** * heuristic_pedometer: the BLE link layer and the pedometer buffer

    A shallow embedding of [my_wearable/ble.py] and
    [my_wearable/pedometer.py], and the properties of the specification
    checked against it.

    - [Py]        the Python string primitives the code relies on
                  ([in], [split], [rstrip], [int], [str]);
    - [BLE]       the serial link: framing, handshake, reconnection;
    - [Pedometer] the sample buffer with Python's attribute lookup
                  (class attributes shared between instances);
    - [Signal]    the filter pipeline and the peak detector;
    - [PyFacts], [BLEFacts], [PedometerFacts], [SignalFacts]
                  the properties, in the same order;
    - [StepFacts] the peaks of a series counted as steps. *)

From Stdlib Require Import ZArith QArith Lia List Bool Ascii String.
From stdpp Require Import gmap strings list.
Import ListNotations.

Local Open Scope string_scope.
Local Open Scope Z_scope.

(* ===================================================================== *)
(** ** Python string primitives *)
(* ===================================================================== *)

Module Py.

(** A string is a sequence of code points up to U+00FF; the link only
    ever delivers code points below U+0080. *)

(** [needle in hay] on strings. *)
Fixpoint contains (needle hay : string) : bool :=
  String.prefix needle hay ||
  match hay with
  | EmptyString => false
  | String _ rest => contains needle rest
  end.

(** [bytes.decode('utf-8')] of a single byte: one byte is a complete
    UTF-8 sequence exactly when it is below 0x80; anything else raises
    [UnicodeDecodeError] (a [ValueError]), rendered [None]. *)
Definition decode (b : ascii) : option string :=
  if (nat_of_ascii b <? 128)%nat then Some (String b "") else None.

(** [str.isspace] on one character (code points up to U+00FF). *)
Definition isspace (c : ascii) : bool :=
  let n := nat_of_ascii c in
  ((9 <=? n) && (n <=? 13) || (28 <=? n) && (n <=? 32)
   || (n =? 133) || (n =? 160))%nat.

(** [s.split(sep)] for a one-character separator: never the empty list. *)
Fixpoint split (sep : ascii) (s : string) : list string :=
  match s with
  | EmptyString => [EmptyString]
  | String c rest =>
      if Ascii.eqb c sep then EmptyString :: split sep rest
      else match split sep rest with
           | field :: fields => String c field :: fields
           | [] => [String c EmptyString]
           end
  end.

(** [s.lstrip()] and [s.rstrip()] without argument. *)
Fixpoint lstrip (s : string) : string :=
  match s with
  | String c rest => if isspace c then lstrip rest else s
  | EmptyString => EmptyString
  end.

Fixpoint rstrip (s : string) : string :=
  match s with
  | EmptyString => EmptyString
  | String c rest =>
      match rstrip rest with
      | EmptyString => if isspace c then EmptyString else String c EmptyString
      | kept => String c kept
      end
  end.

Definition digit_value (c : ascii) : option Z :=
  let n := nat_of_ascii c in
  if ((48 <=? n) && (n <=? 57))%nat then Some (Z.of_nat n - 48) else None.

(** The digits of an [int] literal, most significant first: decimal
    digits, with single underscores allowed between two digits.
    [acc] is the value read so far, [after_digit] tells whether the
    previous character was a digit. *)
Fixpoint int_digits (s : string) (acc : Z) (after_digit : bool) : option Z :=
  match s with
  | EmptyString => if after_digit then Some acc else None
  | String c rest =>
      match digit_value c with
      | Some d => int_digits rest (10 * acc + d) true
      | None =>
          if Ascii.eqb c "_" && after_digit then
            match rest with
            | String c' _ =>
                match digit_value c' with
                | Some _ => int_digits rest acc false
                | None => None
                end
            | EmptyString => None
            end
          else None
      end
  end.

(** [int(s)] in base 10: surrounding whitespace is ignored, one sign is
    allowed; [None] is [ValueError]. *)
Definition int (s : string) : option Z :=
  match rstrip (lstrip s) with
  | EmptyString => None
  | String c rest as body =>
      if Ascii.eqb c "-" then option_map Z.opp (int_digits rest 0 false)
      else if Ascii.eqb c "+" then int_digits rest 0 false
      else int_digits body 0 false
  end.

Definition digit_char (d : Z) : ascii := ascii_of_nat (Z.to_nat (48 + d)).

(** Decimal digits of a non-negative number, most significant first,
    prepended to [acc]; [fuel] bounds the number of digits after the
    first. *)
Fixpoint digits (fuel : nat) (n : Z) (acc : string) : string :=
  let acc' := String (digit_char (n mod 10)) acc in
  match fuel with
  | O => acc'
  | S fuel' => if n <? 10 then acc' else digits fuel' (n / 10) acc'
  end.

(** [str(n)], which is also ["{}".format(n)], for an [int]. *)
Definition str (n : Z) : string :=
  if n <? 0 then String "-" (digits (Z.to_nat (Z.log2 (- n))) (- n) "")
  else digits (Z.to_nat (Z.log2 n)) n "".

(** Every character of the string satisfies [p]. *)
Fixpoint all_chars (p : ascii -> bool) (s : string) : bool :=
  match s with
  | EmptyString => true
  | String c rest => p c && all_chars p rest
  end.

(** The characters [str] writes: digits and the minus sign. *)
Definition numeral_char (c : ascii) : bool :=
  match digit_value c with
  | Some _ => true
  | None => Ascii.eqb c "-"
  end.

Definition not_space (c : ascii) : bool := negb (isspace c).

(** A byte that is a character by itself in UTF-8. *)
Definition ascii7 (c : ascii) : bool := (nat_of_ascii c <? 128)%nat.

End Py.

(* ===================================================================== *)
(** ** The BLE link ([my_wearable/ble.py]) *)
(* ===================================================================== *)

Module BLE.

(** Exceptions that leave the methods.  Both handshake failures are
    [IOError]s in the source and differ by their message. *)
Inductive exn :=
| IOError (msg : string)
| TypeError
| AssertionError.

Definition ConnectionFailed : exn :=
  IOError "Exceed max number of attemps establishing connection".
Definition ReconnectFailed : exn :=
  IOError "Can't connect to Peripheral".

(** The object and the serial port behind it.

    The port is a scripted transport.  [rx] lists what successive looks at
    the input buffer find: [Some b], a byte [b] is waiting (it stays until
    it is read or flushed); [None], the buffer is empty at that instant.
    [clock] lists the outcomes of the successive deadline tests
    [time() - t1 < timeout]: [true] while time remains.  An exhausted
    [rx] is a silent line, an exhausted [clock] an expired deadline.
    [tx] collects what was written, oldest first.  [reads] is a ghost
    counter of the calls to [read_line]; the program never looks at it. *)
Record state := mkState {
  _peripheral_mac : option string;
  closed : bool;
  rx : list (option ascii);
  clock : list bool;
  tx : list string;
  reads : nat
}.

Definition set_mac (m : option string) (s : state) : state :=
  mkState m (closed s) (rx s) (clock s) (tx s) (reads s).
Definition set_closed (b : bool) (s : state) : state :=
  mkState (_peripheral_mac s) b (rx s) (clock s) (tx s) (reads s).
Definition set_rx (r : list (option ascii)) (s : state) : state :=
  mkState (_peripheral_mac s) (closed s) r (clock s) (tx s) (reads s).
Definition set_clock (c : list bool) (s : state) : state :=
  mkState (_peripheral_mac s) (closed s) (rx s) c (tx s) (reads s).
Definition set_tx (t : list string) (s : state) : state :=
  mkState (_peripheral_mac s) (closed s) (rx s) (clock s) t (reads s).
Definition set_reads (n : nat) (s : state) : state :=
  mkState (_peripheral_mac s) (closed s) (rx s) (clock s) (tx s) n.

(** Outcome of a method: a value, an exception, or a call nesting deeper
    than the fuel allows. *)
Inductive res (A : Type) :=
| Ok (a : A) (s : state)
| Raise (e : exn) (s : state)
| OutOfFuel.
Arguments Ok {A} a s.
Arguments Raise {A} e s.
Arguments OutOfFuel {A}.

Definition M (A : Type) : Type := state -> res A.

Definition ret {A} (a : A) : M A := fun s => Ok a s.
Definition raise {A} (e : exn) : M A := fun s => Raise e s.
Definition bind {A B} (m : M A) (k : A -> M B) : M B :=
  fun s =>
    match m s with
    | Ok a s' => k a s'
    | Raise e s' => Raise e s'
    | OutOfFuel => OutOfFuel
    end.
Definition modify (f : state -> state) : M unit := fun s => Ok tt (f s).

Notation "x <- m ;; k" := (bind m (fun x => k))
  (at level 100, m at next level, right associativity).
Notation "m ;; k" := (bind m (fun _ => k))
  (at level 100, right associativity).

(** [while cond: body] on the local variables [st]; [n] bounds the number
    of iterations.  The condition may look at the transport. *)
Fixpoint while {St} (n : nat) (cond : St -> M bool) (body : St -> M St)
    (st : St) : M St :=
  continue <- cond st ;;
  if continue then
    match n with
    | O => fun _ => OutOfFuel
    | S n' => st' <- body st ;; while n' cond body st'
    end
  else ret st.

(** [sleep(seconds)]: time is only seen through the two scripts. *)
Definition sleep (seconds : Q) : M unit := ret tt.

(** [write(msg)]. *)
Definition write (msg : string) : M unit :=
  modify (fun s => set_tx (tx s ++ [msg])%list s).

(** [flushInput()] drops the bytes waiting in the input buffer. *)
Fixpoint drop_waiting (r : list (option ascii)) : list (option ascii) :=
  match r with
  | Some _ :: rest => drop_waiting rest
  | _ => r
  end.

(** [flush()]. *)
Definition flush : M unit :=
  modify (fun s => set_rx (drop_waiting (rx s)) s) ;;
  sleep 0.1%Q.

(** [read()]: one character, or [''] when nothing is waiting or the byte
    does not decode. *)
Definition read : M string :=
  fun s =>
    match rx s with
    | Some b :: rest =>
        Ok (match Py.decode b with Some c => c | None => "" end) (set_rx rest s)
    | None :: rest => Ok "" (set_rx rest s)
    | [] => Ok "" s
    end.

(** The test [time() - t1 < timeout] of [read_line]. *)
Definition in_time (timeout : Z) : M bool :=
  fun s =>
    if timeout <=? 0 then Ok false s
    else match clock s with
         | b :: rest => Ok b (set_clock rest s)
         | [] => Ok false s
         end.

(** [self._ser.in_waiting] used as a condition. *)
Definition in_waiting : M bool :=
  fun s =>
    match rx s with
    | Some _ :: _ => Ok true s
    | None :: rest => Ok false (set_rx rest s)
    | [] => Ok false s
    end.

Definition LF : string := String "010"%char "".

(** ["AT+CON" + self._peripheral_mac]: a [TypeError] when the address is
    still [None]. *)
Definition concat_mac (prefix : string) : M string :=
  fun s =>
    match _peripheral_mac s with
    | Some mac => Ok (prefix ++ mac) s
    | None => Raise TypeError s
    end.

(** *** The methods, open in the methods they call *)

(** The loop of [read_line] on its locals [(msg, c)]:
    [while (c != eol) and (time() - t1 < timeout): msg += c; c = self.read()]. *)
Definition frame_cond (eol : string) (timeout : Z) : string * string -> M bool :=
  fun '(msg, c) =>
    if negb (String.eqb c eol) then in_time timeout else ret false.
Definition frame_step : string * string -> M (string * string) :=
  fun '(msg, c) => c' <- read ;; ret (msg ++ c, c').

(** The framing part of [read_line], before the connection check.  Every
    turn of the loop uses up one entry of [clock]. *)
Definition frame (eol : string) (timeout : Z) : M string :=
  c <- read ;;
  st <- (fun s =>
           while (List.length (clock s)) (frame_cond eol timeout) frame_step
             ("", c) s) ;;
  ret (fst st).

(** The loop of [read_lines]: [while self._ser.in_waiting: msg += self.read()]. *)
Definition drain_step (msg : string) : M string :=
  c <- read ;; ret (msg ++ c).

Section Readers.
Variable check_connection : string -> Z -> M unit.

(** [read_line(eol, timeout)]. *)
Definition read_line_ (eol : string) (timeout : Z) : M string :=
  (if (String.length eol =? 1)%nat then ret tt else raise AssertionError) ;;
  modify (fun s => set_reads (S (reads s)) s) ;;
  msg <- frame eol timeout ;;
  check_connection msg 10 ;;
  ret msg.

(** [read_lines()]. *)
Definition read_lines_ : M string :=
  msg <- (fun s =>
            while (List.length (rx s)) (fun _ => in_waiting) drain_step "" s) ;;
  check_connection msg 10 ;;
  ret msg.
End Readers.

Section Connect.
Variable read_line : string -> Z -> M string.

(** The loop of [connect] on its locals [(connected, confirmed, tries)]:
    [while not confirmed and tries < max_tries]. *)
Definition connect_cond (max_tries : Z) : bool * bool * Z -> M bool :=
  fun '(connected, confirmed, tries) =>
    ret (negb confirmed && (tries <? max_tries)).

Definition connect_step : bool * bool * Z -> M (bool * bool * Z) :=
  fun '(connected, confirmed, tries) =>
    response <- read_line LF 1 ;;
    let connected :=
      if Py.contains "OK+CONNAOK+CONN" response then true else connected in
    let confirmed :=
      if Py.contains "#" response then true else confirmed in
    (if negb connected then
       cmd <- concat_mac "AT+CON" ;; write cmd ;; sleep 0.5%Q
     else if negb confirmed then
       write "AT+NAME?" ;; sleep 0.5%Q
     else ret tt) ;;
    ret (connected, confirmed, tries + 1).

(** [connect(peripheral_mac, max_tries)]. *)
Definition connect_ (peripheral_mac : option string) (max_tries : Z)
    : M unit :=
  modify (set_mac peripheral_mac) ;;
  modify (fun s => if closed s then set_closed false s else s) ;;
  write "AT" ;;
  sleep 0.5%Q ;;
  flush ;;
  st <- while (Z.to_nat max_tries) (connect_cond max_tries) connect_step
          (false, false, 0) ;;
  let '(_, confirmed, _) := st in
  if negb confirmed then raise ConnectionFailed else ret tt.
End Connect.

Section CheckConnection.
Variable connect : option string -> Z -> M unit.
Variable read_lines : M string.

(** The loop of [check_connection] on its locals [(msg, tries)]:
    [while "OK+LOST" in msg and tries < max_tries]. *)
Definition check_cond (max_tries : Z) : string * Z -> M bool :=
  fun '(msg, tries) =>
    ret (Py.contains "OK+LOST" msg && (tries <? max_tries)).

Definition check_step : string * Z -> M (string * Z) :=
  fun '(msg, tries) =>
    (fun s => connect (_peripheral_mac s) 20 s) ;;
    msg' <- read_lines ;;
    ret (msg', tries + 1).

Definition check_connection_loop (msg : string) (max_tries : Z)
    : M (string * Z) :=
  while (Z.to_nat max_tries) (check_cond max_tries) check_step (msg, 0).

(** [check_connection(msg, max_tries)]. *)
Definition check_connection_ (msg : string) (max_tries : Z) : M unit :=
  st <- check_connection_loop msg max_tries ;;
  if snd st >=? max_tries then raise ReconnectFailed else ret tt.
End CheckConnection.

(** *** Tying the knot

    [check_connection] calls [connect] and [read_lines], which call
    [check_connection] again.  [fuel] is the depth of reconnections inside
    reconnections that is followed; a frame without link-lost marker needs
    none. *)
Fixpoint check_connection (fuel : nat) (msg : string) (max_tries : Z)
    {struct fuel} : M unit :=
  match fuel with
  | O =>
      check_connection_ (fun _ _ _ => OutOfFuel) (fun _ => OutOfFuel)
        msg max_tries
  | S fuel' =>
      check_connection_
        (connect_ (read_line_ (check_connection fuel')))
        (read_lines_ (check_connection fuel'))
        msg max_tries
  end.

Definition read_line (fuel : nat) : string -> Z -> M string :=
  read_line_ (check_connection fuel).
Definition read_lines (fuel : nat) : M string :=
  read_lines_ (check_connection fuel).
Definition connect (fuel : nat) : option string -> Z -> M unit :=
  connect_ (read_line fuel).

(** The callees of [check_connection] at a given fuel. *)
Definition reconnect_callee (fuel : nat) : option string -> Z -> M unit :=
  match fuel with
  | O => fun _ _ _ => OutOfFuel
  | S fuel' => connect fuel'
  end.
Definition reread_callee (fuel : nat) : M string :=
  match fuel with
  | O => fun _ => OutOfFuel
  | S fuel' => read_lines fuel'
  end.

(** A port as [__init__] leaves it (without configuration), on a script. *)
Definition opened (r : list (option ascii)) (c : list bool) : state :=
  mkState None false r c [] 0.

Definition bytes (s : string) : list (option ascii) :=
  map Some (list_ascii_of_string s).

(** A method's outcome with a change applied to the state it leaves. *)
Definition map_state {A} (f : state -> state) (r : res A) : res A :=
  match r with
  | Ok a s => Ok a (f s)
  | Raise e s => Raise e (f s)
  | OutOfFuel => OutOfFuel
  end.

(** Changes of the state that leave the two scripts alone. *)
Definition off_port (f : state -> state) : Prop :=
  forall s,
    rx (f s) = rx s /\ clock (f s) = clock s /\
    (forall r, f (set_rx r s) = set_rx r (f s)) /\
    (forall c, f (set_clock c s) = set_clock c (f s)).

(** The scripts of [s0] put among the other fields of [s]. *)
Definition on_scripts (s s0 : state) : state :=
  mkState (_peripheral_mac s) (closed s) (rx s0) (clock s0) (tx s) (reads s).

(** The ghost step of [read_line]. *)
Definition bump (s : state) : state := set_reads (S (reads s)) s.

(** What [read] returns: nothing, or one character. *)
Definition short (c : string) : Prop := c = "" \/ exists b, c = String b "".

Definition differs (e : ascii) (c : ascii) : bool := negb (Ascii.eqb e c).

(** [m1] does what [m2] does, unless it runs out of fuel. *)
Definition within {A} (m1 m2 : M A) : Prop :=
  forall s, m1 s = OutOfFuel \/ m1 s = m2 s.

(** A message without the link-lost marker. *)
Definition quiet (m : string) : bool := negb (Py.contains "OK+LOST" m).

(** *** The read cycles of a handshake

    The frames that the loop of [connect] reads from a script: at most
    [k], and none after the first that carries the confirmation marker. *)
Fixpoint handshake_frames (k : nat) (r : list (option ascii)) (c : list bool)
    : list string :=
  match k with
  | O => []
  | S k' =>
      match frame LF 1 (opened r c) with
      | Ok msg s' =>
          msg :: (if Py.contains "#" msg then []
                  else handshake_frames k' (rx s') (clock s'))
      | _ => []
      end
  end.

(** [k] turns of the loop of [check_connection], each entered with the
    link-lost marker in the message at hand and each returning normally
    from [connect] and [read_lines]: the last backlog read and the state
    reached. *)
Fixpoint reconnections (fuel k : nat) (msg : string) (s : state)
    : option (string * state) :=
  match k with
  | O => Some (msg, s)
  | S k' =>
      if Py.contains "OK+LOST" msg then
        match check_step (reconnect_callee fuel) (reread_callee fuel)
                (msg, 0) s with
        | Ok (msg', _) s' => reconnections fuel k' msg' s'
        | _ => None
        end
      else None
  end.

(** *** Scripted transports *)

Definition mac_address : string := "78DB2F141044".

(** Noise, then the link-established marker, then the peripheral's name. *)
Definition script_handshake : state :=
  opened (None :: bytes ("xx" ++ LF)
           ++ None :: bytes ("OK+CONNAOK+CONN" ++ LF)
           ++ bytes ("#name" ++ LF))%list
        (repeat true 30).

(** The link-lost notice arrives just after the reset, then the line
    stays silent: the deadline of every later read expires. *)
Definition script_link_lost : state :=
  opened (None :: bytes ("OK+LOST" ++ LF))
        (repeat true 8 ++ repeat false 20)%list.

(** A port that was connected before, on which the peripheral answers the
    next handshake at once and sends nothing else. *)
Definition script_recovery : state :=
  mkState (Some mac_address) false (None :: bytes ("#" ++ LF))
    (repeat true 2) [] 0.

(** The default budget of [check_connection], used up to its last turn:
    nine times the handshake succeeds and the backlog still carries the
    link-lost notice (which a nested reconnection clears), the tenth time
    the backlog is empty. *)
Definition answer : list (option ascii) := None :: bytes ("#" ++ LF).
Definition still_lost : list (option ascii) :=
  (answer ++ bytes "OK+LOST" ++ [None] ++ answer ++ [None])%list.
Definition script_ten_attempts : state :=
  mkState (Some mac_address) false
    (concat (repeat still_lost 9) ++ answer)%list
    (repeat true 38) [] 0.

(** Text without delimiter; the deadline expires at the fourth test. *)
Definition script_slow : state :=
  opened (bytes "12,3") [true; true; true; false].

(** Some text and a delimiter, with time to spare. *)
Definition script_line : state :=
  opened (bytes ("12,34;56")) (repeat true 20).

(** *** What the methods make of a script *)

(** The results of successive calls of [read], one for each look at the
    input buffer, put together: a byte that decodes gives its character,
    an empty look or a byte that does not decode gives nothing. *)
Fixpoint heard (looks : list (option ascii)) : string :=
  match looks with
  | [] => ""
  | Some b :: rest =>
      (match Py.decode b with Some c => c | None => "" end) ++ heard rest
  | None :: rest => heard rest
  end.

(** A look that does not find the byte [e]. *)
Definition besides (e : ascii) (look : option ascii) : bool :=
  match look with
  | Some b => differs e b
  | None => true
  end.

(** No byte is waiting at the next look. *)
Definition idle (r : list (option ascii)) : bool :=
  match r with
  | Some _ :: _ => false
  | _ => true
  end.

(** The commands that the loop of [connect] writes while it reads the
    frames [frames], none but the last of which carries the confirmation
    marker; [connected] is the local of the same name. *)
Fixpoint handshake_commands (mac : string) (connected : bool)
    (frames : list string) : list string :=
  match frames with
  | [] => []
  | response :: rest =>
      let connected :=
        if Py.contains "OK+CONNAOK+CONN" response then true else connected in
      ((if negb connected then ["AT+CON" ++ mac]%string
        else if negb (Py.contains "#" response) then ["AT+NAME?"]
        else []) ++ handshake_commands mac connected rest)%list
  end.

(** What a method keeps of the object: the peer address, an open port,
    and everything written so far. *)
Definition kept (s s' : state) : Prop :=
  _peripheral_mac s' = _peripheral_mac s
  /\ (closed s = false -> closed s' = false)
  /\ exists more, tx s' = (tx s ++ more)%list.

(** The state that an outcome leaves satisfies [I]. *)
Definition leaves {A} (I : state -> Prop) (r : res A) : Prop :=
  match r with
  | Ok _ s' => I s'
  | Raise _ s' => I s'
  | OutOfFuel => True
  end.

(** A byte that is no character by itself. *)
Definition stray : ascii := ascii_of_nat 200.

(** A sample between empty looks and a stray byte, then the delimiter. *)
Definition script_noisy : state :=
  opened [None; Some "1"%char; Some stray; None; Some "2"%char;
          Some ";"%char; Some "3"%char]
        (repeat true 10).

(** A backlog with a stray byte in it; more arrives after a pause. *)
Definition script_backlog : state :=
  opened (bytes "ab" ++ Some stray :: bytes "c" ++ None :: bytes "later")%list
        [].

(** A method keeps the object, from whatever state it starts. *)
Definition keeps {A} (m : M A) : Prop := forall s, leaves (kept s) (m s).

(** A port that was connected before: the link-lost notice arrives in
    the middle of a sample, and the peripheral confirms the handshake
    that follows. *)
Definition script_relink : state :=
  mkState (Some mac_address) false
    (bytes "12OK+LOST;" ++ None :: bytes ("#" ++ LF))%list
    (repeat true 20) [] 0.

(** A port never connected, on which the peripheral answers the reset
    with noise. *)
Definition script_unaddressed : state :=
  opened (None :: bytes ("OK" ++ LF)) (repeat true 5).

End BLE.

(* ===================================================================== *)
(** ** The sample buffer ([my_wearable/pedometer.py]) *)
(* ===================================================================== *)

Module Pedometer.

(** Python keeps lists by reference: a buffer attribute holds the address
    of a list object in the heap. *)
Abbreviation loc := nat (only parsing).
(** An instance of the class. *)
Abbreviation ref := nat (only parsing).

(** The instance dictionary.  [_maxlen] and [_file_flag] are bound by
    [__init__]; the name-mangled [__time_buffer], [__data_buffer] and
    [__steps] are bound only once a method assigns them, and are looked up
    in the class until then. *)
Record instance := mkInstance {
  _maxlen : Z;
  _file_flag : bool;
  time_buffer : option loc;
  data_buffer : option loc;
  steps : option Z
}.

(** The class attributes [__time_buffer = []], [__data_buffer = []] and
    [__steps = 0], created once when the class statement runs. *)
Definition class_time_buffer : loc := 0%nat.
Definition class_data_buffer : loc := 1%nat.
Definition class_steps : Z := 0.

Record store := mkStore {
  heap : gmap loc (list Z);
  objects : gmap ref instance;
  files : gmap string string;
  stdout : list string
}.

Definition set_heap (h : gmap loc (list Z)) (σ : store) : store :=
  mkStore h (objects σ) (files σ) (stdout σ).
Definition set_objects (o : gmap ref instance) (σ : store) : store :=
  mkStore (heap σ) o (files σ) (stdout σ).
Definition set_files (f : gmap string string) (σ : store) : store :=
  mkStore (heap σ) (objects σ) f (stdout σ).
Definition set_stdout (out : list string) (σ : store) : store :=
  mkStore (heap σ) (objects σ) (files σ) out.

(** The store once the module is imported, on a given file system. *)
Definition boot (fs : gmap string string) : store :=
  mkStore {[ class_time_buffer := []; class_data_buffer := [] ]} ∅ fs [].

(** [Dangling] is no Python exception: it marks a reference to an object
    that does not exist, which no run of the program produces. *)
Inductive exn :=
| ValueError
| IndexError
| FileNotFoundError
| Dangling.

Inductive res (A : Type) :=
| Ok (a : A) (σ : store)
| Raise (e : exn) (σ : store).
Arguments Ok {A} a σ.
Arguments Raise {A} e σ.

Definition M (A : Type) : Type := store -> res A.

Definition ret {A} (a : A) : M A := fun σ => Ok a σ.
Definition raise {A} (e : exn) : M A := fun σ => Raise e σ.
Definition bind {A B} (m : M A) (k : A -> M B) : M B :=
  fun σ =>
    match m σ with
    | Ok a σ' => k a σ'
    | Raise e σ' => Raise e σ'
    end.

Notation "x <- m ;; k" := (bind m (fun x => k))
  (at level 100, m at next level, right associativity).
Notation "m ;; k" := (bind m (fun _ => k))
  (at level 100, right associativity).

(** [try: body except: handler]; what [body] did before it raised stays
    done. *)
Definition try_except {A} (body handler : M A) : M A :=
  fun σ =>
    match body σ with
    | Raise Dangling σ' => Raise Dangling σ'
    | Raise _ σ' => handler σ'
    | r => r
    end.

Definition print (line : string) : M unit :=
  fun σ => Ok tt (set_stdout (stdout σ ++ [line])%list σ).

Definition lookup_instance (self : ref) : M instance :=
  fun σ =>
    match objects σ !! self with
    | Some o => Ok o σ
    | None => Raise Dangling σ
    end.

Definition update_instance (self : ref) (f : instance -> instance) : M unit :=
  o <- lookup_instance self ;;
  fun σ => Ok tt (set_objects (<[self := f o]> (objects σ)) σ).

(** Reading [self.__time_buffer], [self.__data_buffer], [self.__steps],
    [self._maxlen]: the instance first, then the class. *)
Definition get_time_buffer (self : ref) : M loc :=
  o <- lookup_instance self ;; ret (default class_time_buffer (time_buffer o)).
Definition get_data_buffer (self : ref) : M loc :=
  o <- lookup_instance self ;; ret (default class_data_buffer (data_buffer o)).
Definition get_steps (self : ref) : M Z :=
  o <- lookup_instance self ;; ret (default class_steps (steps o)).
Definition get_maxlen (self : ref) : M Z :=
  o <- lookup_instance self ;; ret (_maxlen o).

(** The list object at an address. *)
Definition deref (l : loc) : M (list Z) :=
  fun σ =>
    match heap σ !! l with
    | Some xs => Ok xs σ
    | None => Raise Dangling σ
    end.

(** The list display [[]]: a new, empty list object. *)
Definition new_list : M loc :=
  fun σ =>
    let l := fresh (dom (heap σ)) in
    Ok l (set_heap (<[l := []]> (heap σ)) σ).

(** [lst.append(x)], in place. *)
Definition list_append (l : loc) (x : Z) : M unit :=
  xs <- deref l ;;
  fun σ => Ok tt (set_heap (<[l := (xs ++ [x])%list]> (heap σ)) σ).

(** [lst[i]] and [int(s)]. *)
Definition item {A} (xs : list A) (i : nat) : M A :=
  match xs !! i with
  | Some x => ret x
  | None => raise IndexError
  end.
Definition to_int (s : string) : M Z :=
  match Py.int s with
  | Some z => ret z
  | None => raise ValueError
  end.

(** [Pedometer(maxlen, file_flag)]: [__init__] binds two attributes and
    nothing else. *)
Definition new (maxlen : Z) (file_flag : bool) : M ref :=
  fun σ =>
    let self := fresh (dom (objects σ)) in
    Ok self
       (set_objects
          (<[self := mkInstance maxlen file_flag None None None]> (objects σ))
          σ).

(** [reset()].  Its last statement, [__steps = 0], binds a local variable
    of the method and has no effect. *)
Definition reset (self : ref) : M unit :=
  tb <- new_list ;;
  update_instance self
    (fun o => mkInstance (_maxlen o) (_file_flag o) (Some tb)
                (data_buffer o) (steps o)) ;;
  db <- new_list ;;
  update_instance self
    (fun o => mkInstance (_maxlen o) (_file_flag o) (time_buffer o)
                (Some db) (steps o)) ;;
  let __steps := 0 in
  ret tt.

(** [append(msg_str)]. *)
Definition append (self : ref) (msg_str : string) : M unit :=
  tb <- get_time_buffer self ;;
  t <- deref tb ;;
  db <- get_data_buffer self ;;
  d <- deref db ;;
  maxlen <- get_maxlen self ;;
  if (Z.of_nat (List.length t) =? maxlen)
     || (Z.of_nat (List.length d) =? maxlen)
  then print "The buffer is full"
  else
    try_except
      (let received := Py.split "," msg_str in
       tb <- get_time_buffer self ;;
       field0 <- item received 0 ;;
       v0 <- to_int field0 ;;
       list_append tb v0 ;;
       db <- get_data_buffer self ;;
       field1 <- item received 1 ;;
       v1 <- to_int field1 ;;
       list_append db v1)
      (print "Received invalid data" ;;
       print msg_str).

Definition LF : string := String "010"%char "".

(** [open(filename, 'w')] creates or empties the file; [file.write(text)]
    adds to its end. *)
Definition open_w (filename : string) : M unit :=
  fun σ => Ok tt (set_files (<[filename := ""]> (files σ)) σ).
Definition file_write (filename text : string) : M unit :=
  fun σ =>
    Ok tt
       (set_files
          (<[filename := default "" (files σ !! filename) ++ text]> (files σ))
          σ).

(** [open(filename, 'r')], giving the text of the file. *)
Definition open_r (filename : string) : M string :=
  fun σ =>
    match files σ !! filename with
    | Some text => Ok text σ
    | None => Raise FileNotFoundError σ
    end.

(** The successive results of [file.readline()] up to the end of the
    file: each line with its newline, the last one possibly without. *)
Fixpoint readlines (text : string) : list string :=
  match text with
  | EmptyString => []
  | String c rest =>
      if Ascii.eqb c "010" then String c "" :: readlines rest
      else match readlines rest with
           | line :: more => String c line :: more
           | [] => [String c ""]
           end
  end.

(** ["{},{}\n".format(t, d)]: the text written for one sample. *)
Definition row (t d : Z) : string :=
  Py.str t ++ "," ++ Py.str d ++ LF.

(** The body of the loop of [save_file], for the indices of [range]. *)
Fixpoint save_rows (self : ref) (filename : string) (range : list nat)
    : M unit :=
  match range with
  | [] => ret tt
  | i :: rest =>
      tb <- get_time_buffer self ;;
      t <- deref tb ;;
      ti <- item t i ;;
      db <- get_data_buffer self ;;
      d <- deref db ;;
      di <- item d i ;;
      file_write filename (row ti di) ;;
      save_rows self filename rest
  end.

(** [save_file(filename)]. *)
Definition save_file (self : ref) (filename : string) : M unit :=
  open_w filename ;;
  tb <- get_time_buffer self ;;
  t <- deref tb ;;
  save_rows self filename (seq 0 (List.length t)).

(** The loop of [load_file] over the lines that [readline] returns;
    the result is [count]. *)
Fixpoint load_rows (self : ref) (lines : list string) (count : Z) : M Z :=
  match lines with
  | [] => ret count
  | line :: rest =>
      let vals := Py.split "," (Py.rstrip line) in
      tb <- get_time_buffer self ;;
      field0 <- item vals 0 ;;
      v0 <- to_int field0 ;;
      list_append tb v0 ;;
      db <- get_data_buffer self ;;
      field1 <- item vals 1 ;;
      v1 <- to_int field1 ;;
      list_append db v1 ;;
      load_rows self rest (count + 1)
  end.

(** [load_file(filename)]. *)
Definition load_file (self : ref) (filename : string) : M unit :=
  tb <- new_list ;;
  update_instance self
    (fun o => mkInstance (_maxlen o) (_file_flag o) (Some tb)
                (data_buffer o) (steps o)) ;;
  db <- new_list ;;
  update_instance self
    (fun o => mkInstance (_maxlen o) (_file_flag o) (time_buffer o)
                (Some db) (steps o)) ;;
  text <- open_r filename ;;
  count <- load_rows self (readlines text) 0 ;;
  update_instance self
    (fun o => mkInstance count (_file_flag o) (time_buffer o)
                (data_buffer o) (steps o)).

(** The counting loop of [__count_steps], on the peaks that
    [__find_peaks] has found: [self.__steps += 1] for every peak strictly
    between the two bounds. *)
Fixpoint count_peaks (self : ref) (peaks : list Z) : M unit :=
  match peaks with
  | [] => ret tt
  | peak :: rest =>
      (if (peak <? 4000) && (peak >? -200) then
         n <- get_steps self ;;
         update_instance self
           (fun o => mkInstance (_maxlen o) (_file_flag o) (time_buffer o)
                       (data_buffer o) (Some (n + 1)))
       else ret tt) ;;
      count_peaks self rest
  end.

(** The text of a file that holds the samples [(t, d)] in order. *)
Fixpoint text (ts ds : list Z) : string :=
  match ts, ds with
  | t :: ts', d :: ds' => row t d ++ text ts' ds'
  | _, _ => ""
  end.

(** What an instance shows of itself: the contents of its two buffers
    and its step count. *)
Definition view (self : ref) (σ : store) : option (list Z * list Z * Z) :=
  o ← objects σ !! self;
  t ← heap σ !! default class_time_buffer (time_buffer o);
  d ← heap σ !! default class_data_buffer (data_buffer o);
  Some (t, d, default class_steps (steps o)).

(** The state a method leaves behind, whether it returned or raised. *)
Definition final {A} (r : res A) : store :=
  match r with
  | Ok _ σ => σ
  | Raise _ σ => σ
  end.

Definition raises {A} (r : res A) : bool :=
  match r with
  | Ok _ _ => false
  | Raise _ _ => true
  end.

(** A line that [load_file] takes: after [rstrip], at least two fields
    between commas, the first two of which [int] accepts. *)
Definition accepted (line : string) : bool :=
  match Py.split "," (Py.rstrip line) with
  | field0 :: field1 :: _ =>
      match Py.int field0, Py.int field1 with
      | Some _, Some _ => true
      | _, _ => false
      end
  | _ => false
  end.

(** The wording of the specification: a line of exactly two integer
    fields. *)
Definition exactly_two_integer_fields (line : string) : bool :=
  match Py.split "," (Py.rstrip line) with
  | [field0; field1] =>
      match Py.int field0, Py.int field1 with
      | Some _, Some _ => true
      | _, _ => false
      end
  | _ => false
  end.

(** *** Sample stores *)

(** One pedometer, and two pedometers, just constructed as in
    [main.py]. *)
Definition one_pedometer : store :=
  final (new 500 true (boot ∅)).
Definition two_pedometers : store :=
  final ((new 500 true ;; new 500 true) (boot ∅)).
Definition first : ref := 0%nat.
Definition second : ref := 1%nat.

(** A pedometer that holds three samples and has counted three steps. *)
Definition after_walk : store :=
  final ((append first "10,512" ;; append first "30,-7" ;;
          append first "50,498" ;; count_peaks first [3; 7; 12])
           one_pedometer).

(** A pedometer next to a file whose lines have a third field. *)
Definition extra_fields : string := "1,2,3" ++ LF ++ "4,5,x" ++ LF.
Definition with_extra_fields : store :=
  set_files {[ "log.txt" := extra_fields ]} one_pedometer.

(** A pedometer next to a file whose second line has no integer. *)
Definition with_bad_line : store :=
  set_files {[ "log.txt" := "1,2" ++ LF ++ "abc" ++ LF ]} one_pedometer.

(** *** What the methods make of their input *)

(** The two integers that [load_file] takes from a line: the first two
    fields between commas, once the trailing whitespace is stripped. *)
Definition parse_line (line : string) : option (Z * Z) :=
  match Py.split "," (Py.rstrip line) with
  | field0 :: field1 :: _ =>
      match Py.int field0, Py.int field1 with
      | Some t, Some d => Some (t, d)
      | _, _ => None
      end
  | _ => None
  end.

(** What [load_file] has appended to the time buffer by the time it
    refuses a line: the first field, when [int] accepts it. *)
Definition half_line (line : string) : list Z :=
  match Py.split "," (Py.rstrip line) with
  | field0 :: _ =>
      match Py.int field0 with
      | Some t => [t]
      | None => []
      end
  | [] => []
  end.

(** The test of the counting loop of [__count_steps]:
    [peak < upper_bound and peak > lower_bound]. *)
Definition counted (peak : Z) : bool := (peak <? 4000) && (peak >? -200).

(** A pedometer after a message whose second field is no integer. *)
Definition half_sample : store :=
  final (append first "12,abc" one_pedometer).

(** A pedometer for two samples that holds two. *)
Definition small_pedometer : store :=
  final ((self <- new 2 true ;; append self "1,5" ;; append self "2,6")
           (boot ∅)).

(** The pedometer of [after_walk] next to a file from an earlier run. *)
Definition with_old_log : store :=
  set_files {[ "log.txt" := "old" ]} after_walk.

(** A pedometer next to a file whose second line stops after its first
    field. *)
Definition with_torn_line : store :=
  set_files {[ "log.txt" := "1,2" ++ LF ++ "3" ++ LF ++ "5,6" ++ LF ]}
    one_pedometer.

(** A pedometer next to a file of two samples. *)
Definition with_log : store :=
  set_files {[ "log.txt" := "10,512" ++ LF ++ "30,-7" ++ LF ]} one_pedometer.

End Pedometer.

(* ===================================================================== *)
(** ** The filter pipeline and the peak detector *)
(* ===================================================================== *)

Module Signal.

(** The private filter methods read [self.__data_buffer] and bind it to
    the array they computed; here the buffer is the argument and the
    result.  [None] is a [ValueError] raised by the numeric library.

    The stages are calls into NumPy and SciPy.  They are written out
    below after the documented behaviour of [scipy.signal.detrend],
    [scipy.signal.lfilter], [scipy.signal.boxcar], [numpy.gradient] and
    [scipy.signal.find_peaks]; the arithmetic of the sample type, the
    least-squares solver and the Butterworth design stay parameters. *)

Section Pipeline.
(** The sample type ([float64]) and its arithmetic. *)
Variable R : Type.
Variable Radd Rsub Rmul Rdiv : R -> R -> R.
(** A numeric literal as a sample. *)
Variable lit : Q -> R.
(** Slope and intercept of the least-squares line through a series
    plotted against its index. *)
Variable linear_fit : list R -> R * R.
(** [scipy.signal.butter(order, cutoff, btype='low')]: the numerator
    [b] and the denominator [a]. *)
Variable butter : Z -> R -> list R * list R.

Definition series := list R.

(** [scipy.signal.detrend(x)]: the series minus its best-fit line.
    An empty series cannot be reshaped and is refused. *)
Definition detrend (x : series) : option series :=
  match x with
  | [] => None
  | _ =>
      let '(slope, intercept) := linear_fit x in
      Some (imap (fun i xi =>
                    Rsub xi (Radd (Rmul slope (lit (inject_Z (Z.of_nat i))))
                               intercept)) x)
  end.

(** Sum of the products of coefficients and history, over the shorter
    of the two. *)
Fixpoint dot (coeffs history : list R) : R :=
  match coeffs, history with
  | c :: coeffs', h :: history' => Radd (Rmul c h) (dot coeffs' history')
  | _, _ => lit 0
  end.

(** The difference equation of [lfilter], one output per input:
    [a0*y[n] = b[0]*x[n] + ... + b[M]*x[n-M] - a[1]*y[n-1] - ...].
    [xh] and [yh] are the inputs and outputs so far, latest first. *)
Fixpoint lfilter_run (b a_tail : list R) (a0 : R) (x xh yh : list R)
    : list R :=
  match x with
  | [] => []
  | xn :: rest =>
      let xh' := xn :: xh in
      let yn := Rdiv (Rsub (dot b xh') (dot a_tail yh)) a0 in
      yn :: lfilter_run b a_tail a0 rest xh' (yn :: yh)
  end.

(** [scipy.signal.lfilter(b, a, x)]; an empty denominator is refused. *)
Definition lfilter (b a : list R) (x : series) : option series :=
  match a with
  | [] => None
  | a0 :: a_tail => Some (lfilter_run b a_tail a0 x [] [])
  end.

(** [scipy.signal.boxcar(M)]: [M] ones. *)
Definition boxcar (M : Z) : list R := repeat (lit 1) (Z.to_nat M).

(** [numpy.gradient(x)] with unit spacing: central differences inside,
    one-sided differences at the two ends; fewer than two samples are
    refused. *)
Definition gradient (x : series) : option series :=
  let n := List.length x in
  if (n <? 2)%nat then None
  else
    let at_ (i : nat) := nth i x (lit 0) in
    Some (imap (fun i _ =>
                  if (i =? 0)%nat then Rsub (at_ 1%nat) (at_ 0%nat)
                  else if (i =? n - 1)%nat then
                    Rsub (at_ (n - 1)%nat) (at_ (n - 2)%nat)
                  else Rdiv (Rsub (at_ (i + 1)%nat) (at_ (i - 1)%nat))
                            (lit 2)) x).

(** [__lowpass_filter(cutoff)]. *)
Definition lowpass_filter (cutoff : R) (data_buffer : series)
    : option series :=
  let '(b, a) := butter 3 cutoff in
  lfilter b a data_buffer.

(** [__smoothing_filter(N)]. *)
Definition smoothing_filter (N : Z) (data_buffer : series) : option series :=
  let boxcar := map (fun c => Rdiv c (lit (inject_Z (N + 1)))) (boxcar (N + 1)) in
  lfilter boxcar [lit 1] data_buffer.

(** [__demean_filter()]. *)
Definition demean_filter (data_buffer : series) : option series :=
  detrend data_buffer.

(** [__filter_pedometer()]. *)
Definition filter_pedometer (data_buffer : series) : option series :=
  data_buffer ← demean_filter data_buffer;
  data_buffer ← smoothing_filter 4 data_buffer;
  data_buffer ← gradient data_buffer;
  let cutoff := Rdiv (lit 5) (Rmul (lit 0.5) (lit 50)) in
  lowpass_filter cutoff data_buffer.

(** The comparisons of the sample type. *)
Variable ltb eqb : R -> R -> bool.

(** The inner loop of the peak search:
    [while i_ahead < i_max and x[i_ahead] == x[i]: i_ahead += 1]. *)
Fixpoint plateau_end (fuel : nat) (x : series) (i i_ahead i_max : nat) : nat :=
  match fuel with
  | O => i_ahead
  | S fuel' =>
      if (i_ahead <? i_max)%nat && eqb (nth i_ahead x (lit 0)) (nth i x (lit 0))
      then plateau_end fuel' x i (S i_ahead) i_max
      else i_ahead
  end.

(** The outer loop, [while i < i_max], collecting the midpoints. *)
Fixpoint local_maxima (fuel : nat) (x : series) (i i_max : nat) : list nat :=
  match fuel with
  | O => []
  | S fuel' =>
      if (i <? i_max)%nat then
        if ltb (nth (i - 1) x (lit 0)) (nth i x (lit 0)) then
          let i_ahead := plateau_end (List.length x) x i (i + 1) i_max in
          if ltb (nth i_ahead x (lit 0)) (nth i x (lit 0)) then
            ((i + (i_ahead - 1)) / 2)%nat
            :: local_maxima fuel' x (i_ahead + 1) i_max
          else local_maxima fuel' x (i + 1) i_max
        else local_maxima fuel' x (i + 1) i_max
      else []
  end.

(** [scipy.signal.find_peaks(x)[0]] without any condition: the search
    runs for [i] from [1] while [i < len(x) - 1]. *)
Definition find_peaks (x : series) : list nat :=
  local_maxima (List.length x) x 1 (List.length x - 1).

(** A flat peak: the samples from [l] to [r] are equal, the sample before
    them and the sample after them are strictly smaller.  With [l = r] it
    is a sample strictly greater than both its neighbours. *)
Definition flat_peak (x : series) (l r : nat) : Prop :=
  (1 <= l <= r)%nat /\ (r + 1 < List.length x)%nat
  /\ ltb (nth (l - 1) x (lit 0)) (nth l x (lit 0)) = true
  /\ (forall k, (l < k <= r)%nat ->
                eqb (nth k x (lit 0)) (nth l x (lit 0)) = true)
  /\ ltb (nth (r + 1) x (lit 0)) (nth l x (lit 0)) = true.

(** [__find_peaks()]: the peaks of the filtered buffer. *)
Definition find_peaks_method (data_buffer : series)
    : option (series * list nat) :=
  data_buffer ← filter_pedometer data_buffer;
  Some (data_buffer, find_peaks data_buffer).

End Pipeline.

(** *** Samples as rationals

    Every finite [float64] is a rational number.  With exact arithmetic
    on [Q] the stages can be run; lengths and the order of samples do not
    depend on rounding. *)

Definition Qfit (x : list Q) : Q * Q :=
  let n := inject_Z (Z.of_nat (List.length x)) in
  let idx := map (fun i => inject_Z (Z.of_nat i)) (seq 0 (List.length x)) in
  let sum := fold_right Qplus 0%Q in
  let sx := sum idx in
  let sy := sum x in
  let sxx := sum (map (fun i => i * i)%Q idx) in
  let sxy := sum (zip_with Qmult idx x) in
  let slope := ((n * sxy - sx * sy) / (n * sxx - sx * sx))%Q in
  (slope, ((sy - slope * sx) / n)%Q).

(** The low-pass design of order 3 for the cutoff 0.2, to eight
    decimals. *)
Definition Qbutter (order : Z) (cutoff : Q) : list Q * list Q :=
  ([0.01809893; 0.0542968; 0.0542968; 0.01809893]%Q,
   [1; -1.76004188; 1.18289326; -0.27805992]%Q).

Definition Qltb (a b : Q) : bool := negb (Qle_bool b a).

Definition Qid (q : Q) : Q := q.

Definition Qdemean_filter : list Q -> option (list Q) :=
  demean_filter Q Qplus Qminus Qmult Qid Qfit.
Definition Qsmoothing_filter : Z -> list Q -> option (list Q) :=
  smoothing_filter Q Qplus Qminus Qmult Qdiv Qid.
Definition Qgradient : list Q -> option (list Q) :=
  gradient Q Qminus Qdiv Qid.
Definition Qlowpass_filter : Q -> list Q -> option (list Q) :=
  lowpass_filter Q Qplus Qminus Qmult Qdiv Qid Qbutter.
Definition Qfilter_pedometer : list Q -> option (list Q) :=
  filter_pedometer Q Qplus Qminus Qmult Qdiv Qid Qfit Qbutter.
Definition Qfind_peaks : list Q -> list nat :=
  find_peaks Q Qid Qltb Qeq_bool.

End Signal.

(* ===================================================================== *)
(** * Properties *)
(* ===================================================================== *)

(** ** Strings: character classes, [split], [rstrip], [int] and [str] *)

Module PyFacts.
Import Py.

Lemma append_cons c (s t : string) : String c s ++ t = String c (s ++ t).
Proof. reflexivity. Qed.

Lemma append_nil (t : string) : "" ++ t = t.
Proof. reflexivity. Qed.

Lemma append_assoc (s t u : string) : (s ++ t) ++ u = s ++ (t ++ u).
Proof.
  induction s as [|c s IH]; [reflexivity|].
  rewrite !append_cons, IH. reflexivity.
Qed.

Lemma append_empty_r (s : string) : s ++ "" = s.
Proof.
  induction s as [|c s IH]; [reflexivity|]. rewrite append_cons, IH. reflexivity.
Qed.

Lemma all_chars_app p s t :
  all_chars p (s ++ t) = all_chars p s && all_chars p t.
Proof.
  induction s as [|c s IH]; [reflexivity|].
  rewrite append_cons. simpl. rewrite IH. apply andb_assoc.
Qed.

Lemma all_chars_weaken (p q : ascii -> bool) s :
  (forall c, p c = true -> q c = true) ->
  all_chars p s = true -> all_chars q s = true.
Proof.
  intros Hpq. induction s as [|c s IH]; simpl; [reflexivity|].
  intros [Hc Hs]%andb_true_iff. rewrite (Hpq _ Hc). simpl. auto.
Qed.

(** A one-character needle occurs exactly when one character equals it. *)
Lemma contains_char e s :
  contains (String e "") s = negb (all_chars (fun c => negb (Ascii.eqb e c)) s).
Proof.
  induction s as [|c s IH]; simpl; [reflexivity|].
  rewrite IH.
  destruct (ascii_dec e c) as [->|Hne].
  - rewrite Ascii.eqb_refl. simpl. destruct s; reflexivity.
  - apply Ascii.eqb_neq in Hne. rewrite Hne. simpl. reflexivity.
Qed.

Lemma prefix_empty s : String.prefix "" s = true.
Proof. destruct s; reflexivity. Qed.

Lemma digit_value_char d :
  0 <= d < 10 -> digit_value (digit_char d) = Some d.
Proof.
  intros H.
  assert (d = 0 \/ d = 1 \/ d = 2 \/ d = 3 \/ d = 4 \/ d = 5 \/ d = 6
          \/ d = 7 \/ d = 8 \/ d = 9) as Hd by lia.
  repeat (destruct Hd as [-> | Hd]; [reflexivity|]). subst d. reflexivity.
Qed.

Lemma numeral_digit_char d : 0 <= d < 10 -> numeral_char (digit_char d) = true.
Proof.
  intros H. unfold numeral_char. rewrite digit_value_char by assumption.
  reflexivity.
Qed.

Lemma digits_numeral fuel n acc :
  0 <= n -> all_chars numeral_char acc = true ->
  all_chars numeral_char (digits fuel n acc) = true.
Proof.
  revert n acc. induction fuel as [|fuel IH]; intros n acc Hn Hacc; simpl.
  - rewrite numeral_digit_char by (apply Z.mod_pos_bound; lia). assumption.
  - destruct (n <? 10) eqn:Hlt.
    + simpl. rewrite numeral_digit_char by (apply Z.mod_pos_bound; lia).
      assumption.
    + apply IH.
      * apply Z.div_pos; lia.
      * simpl. rewrite numeral_digit_char by (apply Z.mod_pos_bound; lia).
        assumption.
Qed.

Lemma str_numeral n : all_chars numeral_char (str n) = true.
Proof.
  unfold str. destruct (n <? 0) eqn:Hneg.
  - apply Z.ltb_lt in Hneg. simpl. apply digits_numeral; [lia | reflexivity].
  - apply Z.ltb_ge in Hneg. apply digits_numeral; [lia | reflexivity].
Qed.

(** Reading back the digits that [digits] wrote. *)
Lemma int_digits_digits fuel n acc :
  0 <= n < 2 ^ (Z.of_nat fuel + 1) ->
  exists k, forall a after,
    int_digits (digits fuel n acc) a after
    = int_digits acc (a * 10 ^ Z.of_nat k + n) true.
Proof.
  revert n acc. induction fuel as [|fuel IH]; intros n acc Hn.
  - exists 1%nat. intros a after. simpl digits.
    assert (n mod 10 = n) as Hmod by (apply Z.mod_small; simpl in Hn; lia).
    simpl int_digits. rewrite Hmod.
    rewrite digit_value_char by (simpl in Hn; lia).
    f_equal. change (10 ^ Z.of_nat 1) with 10. lia.
  - simpl digits. destruct (n <? 10) eqn:Hlt.
    + apply Z.ltb_lt in Hlt. exists 1%nat. intros a after.
      assert (n mod 10 = n) as Hmod by (apply Z.mod_small; lia).
      simpl int_digits. rewrite Hmod. rewrite digit_value_char by lia.
      f_equal. change (10 ^ Z.of_nat 1) with 10. lia.
    + apply Z.ltb_ge in Hlt.
      destruct (IH (n / 10) (String (digit_char (n mod 10)) acc)) as [k Hk].
      { split; [apply Z.div_pos; lia|].
        apply Z.div_lt_upper_bound; [lia|].
        replace (Z.of_nat (S fuel) + 1) with (Z.succ (Z.of_nat fuel + 1)) in Hn
          by lia.
        rewrite Z.pow_succ_r in Hn by lia. lia. }
      exists (S k). intros a after. rewrite Hk. simpl int_digits.
      rewrite digit_value_char by (apply Z.mod_pos_bound; lia).
      f_equal.
      replace (Z.of_nat (S k)) with (Z.succ (Z.of_nat k)) by lia.
      rewrite Z.pow_succ_r by lia.
      pose proof (Z.div_mod n 10 ltac:(lia)). lia.
Qed.

Lemma log2_fuel n : 0 <= n -> 0 <= n < 2 ^ (Z.of_nat (Z.to_nat (Z.log2 n)) + 1).
Proof.
  intros Hn. split; [assumption|].
  rewrite Z2Nat.id by apply Z.log2_nonneg.
  destruct (Z.eq_dec n 0) as [->|Hne]; [reflexivity|].
  replace (Z.log2 n + 1) with (Z.succ (Z.log2 n)) by lia.
  apply Z.log2_spec. lia.
Qed.

Lemma int_digits_str_nonneg n :
  0 <= n -> int_digits (digits (Z.to_nat (Z.log2 n)) n "") 0 false = Some n.
Proof.
  intros Hn.
  destruct (int_digits_digits (Z.to_nat (Z.log2 n)) n "" (log2_fuel n Hn))
    as [k Hk].
  rewrite Hk. simpl. f_equal; lia.
Qed.

Lemma digits_head fuel n acc :
  0 <= n ->
  exists d rest, 0 <= d < 10 /\ digits fuel n acc = String (digit_char d) rest.
Proof.
  revert n acc. induction fuel as [|fuel IH]; intros n acc Hn; simpl.
  - exists (n mod 10), acc. split; [apply Z.mod_pos_bound; lia | reflexivity].
  - destruct (n <? 10).
    + exists (n mod 10), acc.
      split; [apply Z.mod_pos_bound; lia | reflexivity].
    + apply IH. apply Z.div_pos; lia.
Qed.

Lemma lstrip_not_space s : all_chars not_space s = true -> lstrip s = s.
Proof.
  destruct s as [|c s]; simpl; [reflexivity|].
  unfold not_space. intros [Hc _]%andb_true_iff.
  apply negb_true_iff in Hc. rewrite Hc. reflexivity.
Qed.

Lemma rstrip_not_space s : all_chars not_space s = true -> rstrip s = s.
Proof.
  induction s as [|c s IH]; simpl; [reflexivity|].
  unfold not_space at 1. intros [Hc Hs]%andb_true_iff.
  apply negb_true_iff in Hc. rewrite (IH Hs), Hc.
  destruct s; reflexivity.
Qed.

(** A line of the file: trailing newline after text without whitespace. *)
Lemma rstrip_line body :
  all_chars not_space body = true -> rstrip (body ++ String "010" "") = body.
Proof.
  induction body as [|c s IH]; [reflexivity|].
  rewrite append_cons. simpl.
  unfold not_space at 1. intros [Hc Hs]%andb_true_iff.
  apply negb_true_iff in Hc. rewrite (IH Hs), Hc.
  destruct s; reflexivity.
Qed.

Lemma numeral_not_space c : numeral_char c = true -> not_space c = true.
Proof.
  destruct c as [[] [] [] [] [] [] [] []]; intros H; try reflexivity;
    discriminate H.
Qed.

Lemma numeral_not_comma c :
  numeral_char c = true -> negb (Ascii.eqb c ",") = true.
Proof.
  destruct c as [[] [] [] [] [] [] [] []]; intros H; try reflexivity;
    discriminate H.
Qed.

Lemma numeral_not_newline c :
  numeral_char c = true -> negb (Ascii.eqb c "010") = true.
Proof.
  destruct c as [[] [] [] [] [] [] [] []]; intros H; try reflexivity;
    discriminate H.
Qed.

(** [int] reads back what [str] wrote. *)
Lemma int_str n : int (str n) = Some n.
Proof.
  unfold int.
  pose proof (all_chars_weaken _ _ _ numeral_not_space (str_numeral n)) as Hsp.
  rewrite (lstrip_not_space _ Hsp), (rstrip_not_space _ Hsp).
  unfold str. destruct (n <? 0) eqn:Hneg.
  - apply Z.ltb_lt in Hneg. rewrite Ascii.eqb_refl.
    rewrite int_digits_str_nonneg by lia. simpl. f_equal. lia.
  - apply Z.ltb_ge in Hneg.
    destruct (digits_head (Z.to_nat (Z.log2 n)) n "" Hneg)
      as (d & rest & Hd & Heq).
    pose proof (int_digits_str_nonneg n Hneg) as Hint.
    rewrite Heq in *.
    assert (digit_char d <> "-"%char /\ digit_char d <> "+"%char) as [H1 H2].
    { pose proof (digit_value_char d Hd) as Hv.
      split; intros E; rewrite E in Hv; discriminate Hv. }
    apply Ascii.eqb_neq in H1, H2. rewrite H1, H2. exact Hint.
Qed.

(** [split] on text without separator, and up to the first separator. *)
Lemma split_no_sep sep s :
  all_chars (fun c => negb (Ascii.eqb c sep)) s = true -> split sep s = [s].
Proof.
  induction s as [|c s IH]; simpl; [reflexivity|].
  intros [Hc Hs]%andb_true_iff. apply negb_true_iff in Hc.
  rewrite Hc, (IH Hs). reflexivity.
Qed.

Lemma split_app sep u v :
  all_chars (fun c => negb (Ascii.eqb c sep)) u = true ->
  split sep (u ++ String sep v) = u :: split sep v.
Proof.
  induction u as [|c u IH]; rewrite ?append_cons, ?append_nil; simpl.
  - intros _. rewrite Ascii.eqb_refl. reflexivity.
  - intros [Hc Hu]%andb_true_iff. apply negb_true_iff in Hc.
    rewrite Hc, (IH Hu). reflexivity.
Qed.

Lemma split_nonempty sep s : split sep s <> [].
Proof.
  destruct s as [|c s]; simpl; [discriminate|].
  destruct (Ascii.eqb c sep); [discriminate|].
  destruct (split sep s); discriminate.
Qed.

(** How [load_file] takes apart the text written for one sample. *)
Lemma split_rstrip_row t d :
  split "," (rstrip (Pedometer.row t d)) = [str t; str d].
Proof.
  unfold Pedometer.row, Pedometer.LF.
  assert (rstrip (str t ++ "," ++ str d ++ String "010" "")
          = str t ++ String "," (str d)) as ->.
  { change (str t ++ "," ++ str d ++ String "010" "")
      with (str t ++ String "," (str d ++ String "010" "")).
    replace (str t ++ String "," (str d ++ String "010" ""))
      with ((str t ++ String "," (str d)) ++ String "010" "").
    - apply rstrip_line. rewrite all_chars_app. simpl.
      rewrite (all_chars_weaken _ _ _ numeral_not_space (str_numeral t)).
      rewrite (all_chars_weaken _ _ _ numeral_not_space (str_numeral d)).
      reflexivity.
    - rewrite append_assoc. reflexivity. }
  rewrite split_app
    by exact (all_chars_weaken _ _ _ numeral_not_comma (str_numeral t)).
  rewrite split_no_sep
    by exact (all_chars_weaken _ _ _ numeral_not_comma (str_numeral d)).
  reflexivity.
Qed.

Lemma readlines_line body rest :
  all_chars (fun c => negb (Ascii.eqb c "010")) body = true ->
  Pedometer.readlines (body ++ String "010" rest)
  = (body ++ String "010" "") :: Pedometer.readlines rest.
Proof.
  induction body as [|c u IH]; rewrite ?append_cons, ?append_nil; simpl.
  - intros _. reflexivity.
  - intros [Hc Hu]%andb_true_iff. apply negb_true_iff in Hc.
    rewrite Hc, (IH Hu). reflexivity.
Qed.

Lemma readlines_row t d rest :
  Pedometer.readlines (Pedometer.row t d ++ rest)
  = Pedometer.row t d :: Pedometer.readlines rest.
Proof.
  unfold Pedometer.row, Pedometer.LF.
  replace ((str t ++ "," ++ str d ++ String "010" "") ++ rest)
    with ((str t ++ String "," (str d)) ++ String "010" rest).
  - rewrite readlines_line.
    + f_equal. rewrite append_assoc. reflexivity.
    + rewrite all_chars_app. simpl.
      rewrite (all_chars_weaken _ _ _ numeral_not_newline (str_numeral t)).
      rewrite (all_chars_weaken _ _ _ numeral_not_newline (str_numeral d)).
      reflexivity.
  - rewrite !append_assoc. reflexivity.
Qed.

End PyFacts.

(** ** The BLE link *)

Module BLEFacts.
Import Py PyFacts BLE.

(** *** The monad and its loops *)

Lemma while_unfold {St} n cond body (st : St) :
  while n cond body st
  = (continue <- cond st ;;
     if continue then
       match n with
       | O => fun _ => OutOfFuel
       | S n' => st' <- body st ;; while n' cond body st'
       end
     else ret st).
Proof. destruct n; reflexivity. Qed.

Lemma while_exit {St} n cond body (st : St) s s' :
  cond st s = Ok false s' -> while n cond body st s = Ok st s'.
Proof. intros H. rewrite while_unfold. unfold bind. rewrite H. reflexivity. Qed.

Lemma while_step {St} n cond body (st : St) s s' :
  cond st s = Ok true s' ->
  while (S n) cond body st s = (st' <- body st ;; while n cond body st') s'.
Proof. intros H. simpl. unfold bind at 1. rewrite H. reflexivity. Qed.

(** A change of the state that the loop does not look at passes through
    the loop. *)
Lemma while_commute {St} (f : state -> state) n cond body (st : St) s :
  (forall st s, cond st (f s) = map_state f (cond st s)) ->
  (forall st s, body st (f s) = map_state f (body st s)) ->
  while n cond body st (f s) = map_state f (while n cond body st s).
Proof.
  intros Hc Hb. revert st s.
  induction n as [|n IH]; intros st s; simpl; unfold bind; rewrite Hc;
    destruct (cond st s) as [[] s1 | e s1 |]; simpl; try reflexivity.
  rewrite Hb. destruct (body st s1) as [st' s2 | e s2 |]; simpl;
    try reflexivity.
  apply IH.
Qed.

(** *** Framing *)

Lemma read_commute f s : off_port f -> read (f s) = map_state f (read s).
Proof.
  intros Hf. destruct (Hf s) as (Hrx & _ & Hset & _).
  unfold read. rewrite Hrx.
  destruct (rx s) as [|[b|] rest]; simpl; rewrite ?Hset; reflexivity.
Qed.

Lemma in_time_commute f timeout s :
  off_port f -> in_time timeout (f s) = map_state f (in_time timeout s).
Proof.
  intros Hf. destruct (Hf s) as (_ & Hclock & _ & Hset).
  unfold in_time. rewrite Hclock.
  destruct (timeout <=? 0); [reflexivity|].
  destruct (clock s) as [|b rest]; simpl; rewrite ?Hset; reflexivity.
Qed.

Lemma frame_commute f eol timeout s :
  off_port f -> frame eol timeout (f s) = map_state f (frame eol timeout s).
Proof.
  intros Hf. unfold frame, bind. rewrite (read_commute f s Hf).
  destruct (read s) as [c s1 | e s1 |]; simpl; try reflexivity.
  destruct (Hf s1) as (_ & -> & _ & _).
  rewrite while_commute.
  - destruct (while _ _ _ _ s1) as [st s2 | e s2 |]; reflexivity.
  - intros [msg c'] s'. unfold frame_cond.
    destruct (negb (c' =? eol)%string); [|reflexivity].
    apply in_time_commute, Hf.
  - intros [msg c'] s'. unfold frame_step, bind.
    rewrite (read_commute f s' Hf).
    destruct (read s') as [c2 s2 | e s2 |]; reflexivity.
Qed.

Lemma on_scripts_off_port s : off_port (on_scripts s).
Proof. intros s0. repeat split. Qed.

Lemma frame_scripts eol timeout s :
  frame eol timeout s
  = map_state (on_scripts s) (frame eol timeout (opened (rx s) (clock s))).
Proof.
  rewrite <- frame_commute by apply on_scripts_off_port.
  f_equal. destruct s; reflexivity.
Qed.

Lemma read_short s : exists c s', read s = Ok c s' /\ short c /\ clock s' = clock s.
Proof.
  unfold read. destruct (rx s) as [|[b|] rest].
  - exists "", s. repeat split. left. reflexivity.
  - unfold decode. destruct (nat_of_ascii b <? 128)%nat.
    + eexists _, _. repeat split. right. eauto.
    + eexists _, _. repeat split. left. reflexivity.
  - eexists _, _. repeat split. left. reflexivity.
Qed.

Lemma short_differs e c :
  short c -> (c =? String e "")%string = false ->
  all_chars (differs e) c = true.
Proof.
  intros [-> | [b ->]] Hne; [reflexivity|].
  simpl. unfold differs. rewrite andb_true_r.
  apply negb_true_iff, Ascii.eqb_neq. intros ->.
  rewrite String.eqb_refl in Hne. discriminate.
Qed.

(** The loop of [read_line] always ends within the entries of [clock],
    and never lets the delimiter into the message. *)
Lemma frame_loop_spec e timeout n msg c s :
  (List.length (clock s) <= n)%nat -> short c ->
  all_chars (differs e) msg = true ->
  exists msg' c' s',
    while n (frame_cond (String e "") timeout) frame_step (msg, c) s
    = Ok (msg', c') s'
    /\ all_chars (differs e) msg' = true.
Proof.
  revert msg c s. induction n as [|n IH]; intros msg c s Hn Hc Hmsg.
  - assert (clock s = []) as Hclock by (destruct (clock s); simpl in Hn; [reflexivity | lia]).
    exists msg, c, s. split; [|assumption].
    apply while_exit. unfold frame_cond.
    destruct (negb _); [|reflexivity].
    unfold in_time. rewrite Hclock. destruct (timeout <=? 0); reflexivity.
  - destruct (frame_cond (String e "") timeout (msg, c) s) as [[] s1 | e1 s1 |] eqn:Hcond.
    + (* another turn *)
      pose proof Hcond as Hturn.
      unfold frame_cond in Hcond.
      destruct (negb (c =? String e "")%string) eqn:Hne; [|discriminate Hcond].
      apply negb_true_iff in Hne.
      unfold in_time in Hcond.
      destruct (timeout <=? 0); [discriminate Hcond|].
      destruct (clock s) as [|b rest] eqn:Hclock; [discriminate Hcond|].
      injection Hcond as -> Hs1. subst s1.
      destruct (read_short (set_clock rest s)) as (c2 & s2 & Hread & Hc2 & Hclock2).
      destruct (IH (msg ++ c) c2 s2) as (msg' & c' & s' & Hrun & Hall).
      * rewrite Hclock2. simpl in *. lia.
      * assumption.
      * rewrite all_chars_app, Hmsg. simpl. apply short_differs; assumption.
      * exists msg', c', s'. split; [|assumption].
        rewrite (while_step _ _ _ _ _ _ Hturn).
        unfold frame_step, bind. rewrite Hread. exact Hrun.
    + exists msg, c, s1. split; [|assumption]. apply while_exit. assumption.
    + exfalso. unfold frame_cond, in_time in Hcond.
      destruct (negb _), (timeout <=? 0), (clock s); discriminate Hcond.
    + exfalso. unfold frame_cond, in_time in Hcond.
      destruct (negb _), (timeout <=? 0), (clock s); discriminate Hcond.
Qed.

Lemma frame_total e timeout s :
  exists msg s',
    frame (String e "") timeout s = Ok msg s'
    /\ all_chars (differs e) msg = true.
Proof.
  unfold frame, bind.
  destruct (read_short s) as (c & s1 & -> & Hc & _).
  destruct (frame_loop_spec e timeout (List.length (clock s1)) "" c s1)
    as (msg & c' & s' & -> & Hall); [lia | assumption | reflexivity |].
  exists msg, s'. split; [reflexivity | assumption].
Qed.

(** *** A message without the link-lost marker *)

Lemma check_connection_quiet connect read_lines msg max_tries s :
  contains "OK+LOST" msg = false -> 0 < max_tries ->
  check_connection_ connect read_lines msg max_tries s = Ok tt s.
Proof.
  intros Hmsg Hmax. unfold check_connection_, check_connection_loop, bind.
  rewrite (while_exit _ _ _ _ s s).
  - simpl. destruct (0 >=? max_tries) eqn:E; [lia | reflexivity].
  - unfold check_cond. rewrite Hmsg. reflexivity.
Qed.

Lemma check_connection_fuel_quiet fuel msg s :
  contains "OK+LOST" msg = false -> check_connection fuel msg 10 s = Ok tt s.
Proof.
  intros Hmsg. destruct fuel; simpl; apply check_connection_quiet;
    (assumption || lia).
Qed.

Lemma bump_off_port : off_port bump.
Proof. intros s. repeat split. Qed.

(** What [read_line] does when the frame carries no link-lost marker. *)
Lemma read_line_quiet fuel e timeout s msg s0 :
  frame (String e "") timeout (opened (rx s) (clock s)) = Ok msg s0 ->
  contains "OK+LOST" msg = false ->
  read_line fuel (String e "") timeout s = Ok msg (on_scripts (bump s) s0).
Proof.
  intros Hframe Hmsg. unfold read_line, read_line_, bind. simpl.
  change (set_reads (S (reads s)) s) with (bump s).
  rewrite frame_scripts. simpl rx. simpl clock. rewrite Hframe. simpl.
  rewrite check_connection_fuel_quiet by assumption. reflexivity.
Qed.

(** *** The loop of [connect] on a line that stays up *)

Lemma handshake_frames_step k r c m s0 :
  frame LF 1 (opened r c) = Ok m s0 ->
  handshake_frames (S k) r c
  = m :: (if contains "#" m then []
          else handshake_frames k (rx s0) (clock s0)).
Proof. intros H. simpl. rewrite H. reflexivity. Qed.

Lemma connect_loop_spec fuel mac max_tries k :
  forall s connected tries,
    Z.of_nat k = Z.max 0 (max_tries - tries) ->
    _peripheral_mac s = Some mac ->
    forallb quiet (handshake_frames k (rx s) (clock s)) = true ->
    exists connected' tries' s',
      while k (connect_cond max_tries) (connect_step (read_line fuel))
        (connected, false, tries) s
      = Ok (connected',
            existsb (contains "#") (handshake_frames k (rx s) (clock s)),
            tries') s'
      /\ reads s' = (reads s + List.length (handshake_frames k (rx s) (clock s)))%nat
      /\ (existsb (contains "#") (handshake_frames k (rx s) (clock s)) = false ->
          List.length (handshake_frames k (rx s) (clock s)) = k).
Proof.
  induction k as [|k IH]; intros s connected tries Hk Hmac Hquiet.
  - exists connected, tries, s.
    change (handshake_frames 0 (rx s) (clock s)) with (@nil string).
    cbn [existsb List.length].
    split; [|split; [lia | reflexivity]].
    apply while_exit. unfold connect_cond, ret. simpl.
    destruct (tries <? max_tries) eqn:E; [lia | reflexivity].
  - destruct (frame_total "010" 1 (opened (rx s) (clock s)))
      as (m & s0 & Hframe & _).
    change (String "010" "") with LF in Hframe.
    rewrite (handshake_frames_step _ _ _ _ _ Hframe) in *.
    cbn [forallb] in Hquiet. apply andb_true_iff in Hquiet as [Hm Hrest].
    apply negb_true_iff in Hm.
    assert (connect_cond max_tries (connected, false, tries) s = Ok true s)
      as Hcond.
    { unfold connect_cond, ret. simpl.
      destruct (tries <? max_tries) eqn:E; [reflexivity | lia]. }
    rewrite (while_step _ _ _ _ _ _ Hcond).
    unfold connect_step at 1. unfold bind at 1. unfold bind at 1.
    unfold LF at 1. rewrite (read_line_quiet fuel _ _ _ _ _ Hframe Hm).
    set (s1 := on_scripts (bump s) s0).
    set (connected1 := if contains "OK+CONNAOK+CONN" m then true else connected).
    assert (exists s2,
      (if negb connected1 then
         cmd <- concat_mac "AT+CON" ;; write cmd ;; sleep 0.5%Q
       else if negb (if contains "#" m then true else false) then
         write "AT+NAME?" ;; sleep 0.5%Q
       else ret tt) s1 = Ok tt s2
      /\ rx s2 = rx s0 /\ clock s2 = clock s0 /\ reads s2 = S (reads s)
      /\ _peripheral_mac s2 = Some mac) as (s2 & Hwrite & Hrx & Hclock & Hreads & Hmac2).
    { destruct (negb connected1).
      - unfold bind, concat_mac. simpl. rewrite Hmac. simpl.
        eexists. split; [reflexivity|]. repeat split. assumption.
      - destruct (negb (if contains "#" m then true else false)).
        + eexists. split; [reflexivity|]. repeat split. assumption.
        + eexists. split; [reflexivity|]. repeat split. assumption. }
    unfold bind at 1. rewrite Hwrite. unfold ret at 1.
    destruct (contains "#" m) eqn:Hconf.
    + (* confirmed: the loop ends here *)
      exists connected1, (tries + 1), s2. cbn [existsb List.length].
      rewrite Hconf. cbn [orb].
      split; [|split; [lia | discriminate]].
      apply while_exit. reflexivity.
    + destruct (IH s2 connected1 (tries + 1)) as (c' & t' & s' & Hrun & Hr & Hlen).
      * lia.
      * assumption.
      * rewrite Hrx, Hclock. assumption.
      * rewrite Hrx, Hclock in *. exists c', t', s'.
        cbn [existsb List.length]. rewrite Hconf. cbn [orb].
        split; [exact Hrun|]. split; [lia|].
        intros Hnone. rewrite (Hlen Hnone). reflexivity.
Qed.

(** [handshake_frames] ends with the first frame that carries ['#']. *)
Lemma handshake_frames_confirmed k r c :
  existsb (contains "#") (handshake_frames k r c) = true ->
  exists pre m,
    handshake_frames k r c = (pre ++ [m])%list
    /\ contains "#" m = true
    /\ Forall (fun p => contains "#" p = false) pre.
Proof.
  revert r c. induction k as [|k IH]; intros r c; simpl; [discriminate|].
  destruct (frame LF 1 (opened r c)) as [m s' | |]; try discriminate.
  destruct (contains "#" m) eqn:Hm.
  - intros _. exists [], m. repeat split; [assumption | constructor].
  - simpl. rewrite Hm. simpl. intros H.
    destruct (IH _ _ H) as (pre & m' & -> & Hm' & Hpre).
    exists (m :: pre), m'. repeat split; [assumption|].
    constructor; assumption.
Qed.

Lemma handshake_frames_bound k r c :
  (List.length (handshake_frames k r c) <= k)%nat.
Proof.
  revert r c. induction k as [|k IH]; intros r c; simpl; [lia|].
  destruct (frame LF 1 (opened r c)) as [m s' | |]; simpl; try lia.
  destruct (contains "#" m); simpl; [lia|]. specialize (IH (rx s') (clock s')). lia.
Qed.

(** *** More fuel changes no outcome *)

Lemma within_refl {A} (m : M A) : within m m.
Proof. intros s. right. reflexivity. Qed.

Lemma within_bind {A B} (m1 m2 : M A) (k1 k2 : A -> M B) :
  within m1 m2 -> (forall a, within (k1 a) (k2 a)) ->
  within (bind m1 k1) (bind m2 k2).
Proof.
  intros Hm Hk s. unfold bind. destruct (Hm s) as [-> | ->]; [left; reflexivity|].
  destruct (m2 s) as [a s' | e s' |]; [apply Hk | right; reflexivity
                                       | right; reflexivity].
Qed.

Lemma within_while {St} n cond (b1 b2 : St -> M St) st :
  (forall st, within (b1 st) (b2 st)) ->
  within (while n cond b1 st) (while n cond b2 st).
Proof.
  intros Hb. revert st. induction n as [|n IH]; intros st; simpl.
  - apply within_refl.
  - apply within_bind; [apply within_refl|]. intros [].
    + apply within_bind; [apply Hb | apply IH].
    + apply within_refl.
Qed.

Lemma within_read_line (c1 c2 : string -> Z -> M unit) eol timeout :
  (forall msg n, within (c1 msg n) (c2 msg n)) ->
  within (read_line_ c1 eol timeout) (read_line_ c2 eol timeout).
Proof.
  intros Hc. unfold read_line_.
  repeat (apply within_bind; [try apply within_refl | intros ?]).
  - apply Hc.
  - apply within_refl.
Qed.

Lemma within_read_lines (c1 c2 : string -> Z -> M unit) :
  (forall msg n, within (c1 msg n) (c2 msg n)) ->
  within (read_lines_ c1) (read_lines_ c2).
Proof.
  intros Hc. unfold read_lines_.
  repeat (apply within_bind; [try apply within_refl | intros ?]).
  - apply Hc.
  - apply within_refl.
Qed.

Lemma within_connect (r1 r2 : string -> Z -> M string) mac max_tries :
  (forall eol timeout, within (r1 eol timeout) (r2 eol timeout)) ->
  within (connect_ r1 mac max_tries) (connect_ r2 mac max_tries).
Proof.
  intros Hr. unfold connect_.
  do 5 (apply within_bind; [apply within_refl | intros ?]).
  apply within_bind; [|intros ?; apply within_refl].
  apply within_while. intros [[connected confirmed] tries].
  unfold connect_step. apply within_bind; [apply Hr | intros ?; apply within_refl].
Qed.

Lemma within_check (c1 c2 : option string -> Z -> M unit) (l1 l2 : M string)
    msg max_tries :
  (forall mac n, within (c1 mac n) (c2 mac n)) -> within l1 l2 ->
  within (check_connection_ c1 l1 msg max_tries)
         (check_connection_ c2 l2 msg max_tries).
Proof.
  intros Hc Hl. unfold check_connection_, check_connection_loop.
  apply within_bind; [|intros ?; apply within_refl].
  apply within_while. intros [m tries]. unfold check_step.
  apply within_bind; [intros s; apply Hc | intros ?].
  apply within_bind; [apply Hl | intros ?; apply within_refl].
Qed.

Lemma check_connection_more_fuel fuel msg max_tries :
  within (check_connection fuel msg max_tries)
         (check_connection (S fuel) msg max_tries).
Proof.
  revert msg max_tries. induction fuel as [|fuel IH]; intros msg max_tries.
  - apply within_check; [intros ? ? ? | intros ?]; left; reflexivity.
  - change (within
              (check_connection_
                 (connect_ (read_line_ (check_connection fuel)))
                 (read_lines_ (check_connection fuel)) msg max_tries)
              (check_connection_
                 (connect_ (read_line_ (check_connection (S fuel))))
                 (read_lines_ (check_connection (S fuel))) msg max_tries)).
    apply within_check.
    + intros mac n. apply within_connect. intros eol timeout.
      apply within_read_line. exact IH.
    + apply within_read_lines. exact IH.
Qed.

Lemma check_connection_fuel fuel fuel' msg max_tries :
  (fuel <= fuel')%nat ->
  within (check_connection fuel msg max_tries)
         (check_connection fuel' msg max_tries).
Proof.
  induction 1 as [|fuel' _ IH]; [apply within_refl|].
  intros s. destruct (IH s) as [-> | ->]; [left; reflexivity|].
  apply check_connection_more_fuel.
Qed.

(** Once [connect] has an outcome, more fuel gives the same. *)
Lemma connect_fuel fuel fuel' mac max_tries s :
  (fuel <= fuel')%nat -> connect fuel mac max_tries s <> OutOfFuel ->
  connect fuel' mac max_tries s = connect fuel mac max_tries s.
Proof.
  intros Hle Hout.
  destruct (within_connect (read_line fuel) (read_line fuel') mac max_tries)
    with (s := s) as [H | H].
  - intros eol timeout. apply within_read_line. intros msg n.
    apply check_connection_fuel. assumption.
  - contradiction.
  - symmetry. exact H.
Qed.

Lemma check_connection_stable fuel fuel' msg max_tries s :
  (fuel <= fuel')%nat -> check_connection fuel msg max_tries s <> OutOfFuel ->
  check_connection fuel' msg max_tries s = check_connection fuel msg max_tries s.
Proof.
  intros Hle Hout.
  destruct (check_connection_fuel fuel fuel' msg max_tries Hle s) as [H | H];
    [contradiction | symmetry; exact H].
Qed.

(** C1, amended.  On a script whose handshake frames carry no link-lost
    marker, [connect] returns at the first read cycle whose frame carries
    ['#'], and raises the connection failure after exactly [max_tries]
    read cycles when none of them does.  [frames] are the frames read; the
    ghost counter [reads] grows by their number. *)
Theorem connect_read_cycles fuel mac max_tries s :
  let frames :=
    handshake_frames (Z.to_nat max_tries) (drop_waiting (rx s)) (clock s) in
  forallb quiet frames = true ->
  exists s',
    reads s' = (reads s + List.length frames)%nat
    /\ (List.length frames <= Z.to_nat max_tries)%nat
    /\ if existsb (contains "#") frames then
         connect fuel (Some mac) max_tries s = Ok tt s'
         /\ exists pre m,
              frames = (pre ++ [m])%list
              /\ contains "#" m = true
              /\ Forall (fun p => contains "#" p = false) pre
       else
         connect fuel (Some mac) max_tries s = Raise ConnectionFailed s'
         /\ List.length frames = Z.to_nat max_tries.
Proof.
  intros frames Hquiet.
  set (sa := set_mac (Some mac) s).
  set (sb := if closed sa then set_closed false sa else sa).
  set (sc := set_tx (tx sb ++ ["AT"])%list sb).
  set (s1 := set_rx (drop_waiting (rx sc)) sc).
  assert (rx s1 = drop_waiting (rx s) /\ clock s1 = clock s
          /\ reads s1 = reads s /\ _peripheral_mac s1 = Some mac)
    as (Hrx & Hclock & Hreads & Hmac).
  { subst s1 sc sb sa. simpl. destruct (closed s); repeat split. }
  destruct (connect_loop_spec fuel mac max_tries (Z.to_nat max_tries)
              s1 false 0) as (c' & t' & s' & Hrun & Hr & Hlen).
  { lia. }
  { assumption. }
  { rewrite Hrx, Hclock. assumption. }
  rewrite Hrx, Hclock in *. fold frames in Hrun, Hr, Hlen.
  exists s'. split; [lia|]. split; [apply handshake_frames_bound|].
  assert (connect fuel (Some mac) max_tries s
          = (st <- while (Z.to_nat max_tries) (connect_cond max_tries)
                     (connect_step (read_line fuel)) (false, false, 0) ;;
             let '(_, confirmed, _) := st in
             if negb confirmed then raise ConnectionFailed else ret tt) s1)
    as Hconnect by reflexivity.
  rewrite Hconnect. unfold bind. rewrite Hrun.
  destruct (existsb (contains "#") frames) eqn:Hany; simpl.
  - split; [reflexivity|]. apply handshake_frames_confirmed. assumption.
  - split; [reflexivity|]. apply Hlen. reflexivity.
Qed.

Lemma connect_read_cycles_witness :
  forallb quiet
    (handshake_frames (Z.to_nat 5) (drop_waiting (rx script_handshake))
       (clock script_handshake)) = true
  /\ exists s',
       reads s' = 3%nat
       /\ connect 0 (Some mac_address) 5 script_handshake = Ok tt s'.
Proof.
  split; [reflexivity|].
  destruct (connect_read_cycles 0 mac_address 5 script_handshake eq_refl)
    as (s' & Hreads & _ & Hconnect).
  exists s'. split; [exact Hreads | exact (proj1 Hconnect)].
Defined.

(** C1 as stated fails.  The script never carries ['#'] and [max_tries]
    is 5, yet [connect] is over within its first read cycle: the frame
    read there carries the link-lost marker, [read_line] starts a
    reconnection, and the failure of that nested handshake (20 silent
    read cycles) leaves [connect].  21 read cycles were made in all, and
    the only commands sent are those of the nested handshake. *)
Lemma connect_aborted_by_link_loss :
  forallb (fun b => negb (bool_decide (b = Some "#"%char)))
    (rx script_link_lost) = true
  /\ exists s',
       (forall fuel, (1 <= fuel)%nat ->
          connect fuel (Some mac_address) 5 script_link_lost
          = Raise ConnectionFailed s')
       /\ reads s' = 21%nat
       /\ tx s' = "AT" :: "AT" :: repeat "AT+CON78DB2F141044" 20.
Proof.
  split; [reflexivity|].
  eexists. split.
  - intros fuel Hfuel.
    rewrite (connect_fuel 1 fuel) by (assumption || (vm_compute; discriminate)).
    vm_compute. reflexivity.
  - split; reflexivity.
Qed.

(** *** [check_connection] *)

Lemma check_connection_callees fuel :
  check_connection fuel
  = check_connection_ (reconnect_callee fuel) (reread_callee fuel).
Proof. destruct fuel; reflexivity. Qed.

Lemma check_step_tries connect read_lines msg tries s :
  check_step connect read_lines (msg, tries) s
  = match check_step connect read_lines (msg, 0) s with
    | Ok (msg', _) s' => Ok (msg', tries + 1) s'
    | Raise e s' => Raise e s'
    | OutOfFuel => OutOfFuel
    end.
Proof.
  unfold check_step, bind.
  destruct (connect (_peripheral_mac s) 20 s) as [[] s1 | e s1 |];
    try reflexivity.
  destruct (read_lines s1) as [m s2 | e s2 |]; reflexivity.
Qed.

Lemma reconnections_step fuel k msg s :
  reconnections fuel (S k) msg s
  = if contains "OK+LOST" msg then
      match check_step (reconnect_callee fuel) (reread_callee fuel)
              (msg, 0) s with
      | Ok (msg', _) s' => reconnections fuel k msg' s'
      | _ => None
      end
    else None.
Proof. reflexivity. Qed.

(** The loop of [check_connection] follows the reconnections as long as
    the budget lasts. *)
Lemma check_loop_reconnections fuel max_tries k :
  forall n msg tries s msg' s',
    reconnections fuel k msg s = Some (msg', s') ->
    (k <= n)%nat -> tries + Z.of_nat k <= max_tries ->
    while n (check_cond max_tries)
      (check_step (reconnect_callee fuel) (reread_callee fuel)) (msg, tries) s
    = while (n - k) (check_cond max_tries)
        (check_step (reconnect_callee fuel) (reread_callee fuel))
        (msg', tries + Z.of_nat k) s'.
Proof.
  induction k as [|k IH]; intros n msg tries s msg' s' Hrun Hn Hmax.
  - injection Hrun as -> ->. rewrite Nat.sub_0_r, Z.add_0_r. reflexivity.
  - rewrite reconnections_step in Hrun.
    destruct (contains "OK+LOST" msg) eqn:Hlost; [|discriminate Hrun].
    destruct (check_step _ _ (msg, 0) s) as [[m1 t1] s1 | |] eqn:Hstep;
      try discriminate Hrun.
    destruct n as [|n]; [lia|].
    rewrite (while_step _ _ _ _ s s).
    + unfold bind at 1. rewrite check_step_tries, Hstep.
      rewrite (IH n m1 (tries + 1) s1 msg' s' Hrun) by lia.
      replace (tries + 1 + Z.of_nat k) with (tries + Z.of_nat (S k)) by lia.
      reflexivity.
    + unfold check_cond, ret. rewrite Hlost.
      destruct (tries <? max_tries) eqn:E; [reflexivity | lia].
Qed.

(** C2, amended.  Let the loop of [check_connection] make [k] turns of
    reconnecting and re-reading, each entered with the link-lost marker
    at hand, and stop there with the backlog [msg']: the budget is used
    up, or [msg'] is free of the marker.  Then [check_connection] raises
    the reconnection failure exactly when [k] is the whole budget,
    whatever [msg'] is, and returns normally otherwise. *)
Theorem check_connection_budget fuel msg max_tries s k msg' s' :
  reconnections fuel k msg s = Some (msg', s') ->
  Z.of_nat k <= max_tries ->
  (Z.of_nat k < max_tries -> contains "OK+LOST" msg' = false) ->
  check_connection fuel msg max_tries s
  = if Z.of_nat k =? max_tries then Raise ReconnectFailed s' else Ok tt s'.
Proof.
  intros Hrun Hk Hstop. rewrite check_connection_callees.
  unfold check_connection_, check_connection_loop, bind.
  rewrite (check_loop_reconnections fuel max_tries k _ _ _ _ _ _ Hrun)
    by lia.
  destruct (Z.of_nat k =? max_tries) eqn:Hall.
  - apply Z.eqb_eq in Hall.
    rewrite (while_exit _ _ _ _ s' s').
    + simpl. destruct (0 + Z.of_nat k >=? max_tries) eqn:E; [reflexivity | lia].
    + unfold check_cond, ret.
      destruct (0 + Z.of_nat k <? max_tries) eqn:E; [lia|].
      rewrite andb_false_r. reflexivity.
  - apply Z.eqb_neq in Hall.
    rewrite (while_exit _ _ _ _ s' s').
    + simpl. destruct (0 + Z.of_nat k >=? max_tries) eqn:E; [lia | reflexivity].
    + unfold check_cond, ret. rewrite Hstop by lia. reflexivity.
Qed.

Lemma check_connection_budget_witness :
  exists s',
    reconnections 1 1 "OK+LOST" script_recovery = Some ("", s')
    /\ Z.of_nat 1 <= 2
    /\ (Z.of_nat 1 < 2 -> contains "OK+LOST" "" = false)
    /\ check_connection 1 "OK+LOST" 1 script_recovery
       = Raise ReconnectFailed s'
    /\ check_connection 1 "OK+LOST" 2 script_recovery = Ok tt s'.
Proof.
  eexists. split; [vm_compute; reflexivity|].
  split; [lia|]. split; [reflexivity|]. split.
  - apply (check_connection_budget 1 "OK+LOST" 1 script_recovery 1 "");
      [reflexivity | lia | lia].
  - apply (check_connection_budget 1 "OK+LOST" 2 script_recovery 1 "");
      [reflexivity | lia | reflexivity].
Defined.

(** Within any budget the loop either stops as [check_connection_budget]
    supposes, or is left by an exception, or by lack of fuel, of [connect]
    or [read_lines] during one of its turns. *)
Lemma reconnections_exhaustive fuel n :
  forall msg s,
    (exists k msg' s',
       (k <= n)%nat
       /\ reconnections fuel k msg s = Some (msg', s')
       /\ ((k < n)%nat -> contains "OK+LOST" msg' = false))
    \/ (exists k msg' s',
          (k < n)%nat
          /\ reconnections fuel k msg s = Some (msg', s')
          /\ contains "OK+LOST" msg' = true
          /\ forall m t s2,
               check_step (reconnect_callee fuel) (reread_callee fuel)
                 (msg', 0) s' <> Ok (m, t) s2).
Proof.
  induction n as [|n IH]; intros msg s.
  - left. exists 0%nat, msg, s. split; [lia|]. split; [reflexivity | lia].
  - destruct (contains "OK+LOST" msg) eqn:Hlost.
    2: { left. exists 0%nat, msg, s. split; [lia|].
         split; [reflexivity | intros _; exact Hlost]. }
    destruct (check_step (reconnect_callee fuel) (reread_callee fuel)
                (msg, 0) s) as [[m1 t1] s1 | e s1 |] eqn:Hstep.
    + destruct (IH m1 s1) as [(k & msg' & s' & Hk & Hrun & Hstop)
                             | (k & msg' & s' & Hk & Hrun & Hmark & Hfail)].
      * left. exists (S k), msg', s'. split; [lia|]. split.
        -- rewrite reconnections_step, Hlost, Hstep. exact Hrun.
        -- intros Hlt. apply Hstop. lia.
      * right. exists (S k), msg', s'. split; [lia|]. split.
        -- rewrite reconnections_step, Hlost, Hstep. exact Hrun.
        -- split; assumption.
    + right. exists 0%nat, msg, s. split; [lia|]. split; [reflexivity|].
      split; [exact Hlost|]. intros m t s2. rewrite Hstep. discriminate.
    + right. exists 0%nat, msg, s. split; [lia|]. split; [reflexivity|].
      split; [exact Hlost|]. intros m t s2. rewrite Hstep. discriminate.
Qed.

(** Without budget [check_connection] raises at once, marker or not. *)
Lemma check_connection_no_budget fuel msg max_tries s :
  max_tries <= 0 ->
  check_connection fuel msg max_tries s = Raise ReconnectFailed s.
Proof.
  intros Hmax. rewrite check_connection_callees.
  unfold check_connection_, check_connection_loop, bind.
  rewrite (while_exit _ _ _ _ s s).
  - simpl. destruct (0 >=? max_tries) eqn:E; [reflexivity | lia].
  - unfold check_cond, ret. destruct (0 <? max_tries) eqn:E; [lia|].
    rewrite andb_false_r. reflexivity.
Qed.

(** C2 as stated fails.  With a budget of one attempt the reconnection
    succeeds and the backlog read after it is empty, so the marker is
    gone on the last allowed attempt; [check_connection] raises all the
    same, because the attempts are used up. *)
Lemma check_connection_raises_after_recovery :
  exists s',
    check_connection_loop (reconnect_callee 1) (reread_callee 1)
      "OK+LOST" 1 script_recovery = Ok ("", 1) s'
    /\ contains "OK+LOST" "" = false
    /\ forall fuel, (1 <= fuel)%nat ->
         check_connection fuel "OK+LOST" 1 script_recovery
         = Raise ReconnectFailed s'.
Proof.
  eexists. split; [vm_compute; reflexivity|]. split; [reflexivity|].
  intros fuel Hfuel.
  rewrite (check_connection_stable 1 fuel)
    by (assumption || (vm_compute; discriminate)).
  vm_compute. reflexivity.
Qed.

(** The same with the default budget of ten attempts. *)
Lemma check_connection_tenth_attempt :
  exists s',
    check_connection_loop (reconnect_callee 2) (reread_callee 2)
      "OK+LOST" 10 script_ten_attempts = Ok ("", 10) s'
    /\ forall fuel, (2 <= fuel)%nat ->
         check_connection fuel "OK+LOST" 10 script_ten_attempts
         = Raise ReconnectFailed s'.
Proof.
  eexists. split; [vm_compute; reflexivity|].
  intros fuel Hfuel.
  rewrite (check_connection_stable 2 fuel)
    by (assumption || (vm_compute; discriminate)).
  vm_compute. reflexivity.
Qed.

(** *** [read_line] *)

Lemma read_byte s b rest :
  rx s = Some b :: rest -> ascii7 b = true ->
  read s = Ok (String b "") (set_rx rest s).
Proof.
  intros Hrx Hb. unfold read. rewrite Hrx. unfold decode.
  unfold ascii7 in Hb. rewrite Hb. reflexivity.
Qed.

Lemma in_time_tick timeout s b rest :
  0 < timeout -> clock s = b :: rest ->
  in_time timeout s = Ok b (set_clock rest s).
Proof.
  intros Ht Hclock. unfold in_time.
  destruct (timeout <=? 0) eqn:E; [lia|]. rewrite Hclock. reflexivity.
Qed.

Lemma frame_cond_pending e timeout msg b s t rest :
  0 < timeout -> Ascii.eqb b e = false -> clock s = t :: rest ->
  frame_cond (String e "") timeout (msg, String b "") s
  = Ok t (set_clock rest s).
Proof.
  intros Ht Hb Hclock. unfold frame_cond.
  assert ((String b "" =? String e "")%string = false) as ->
    by (simpl; rewrite Hb; reflexivity).
  cbn [negb]. apply in_time_tick; assumption.
Qed.

(** The loop of [read_line] on text followed by the delimiter, with time
    for every character. *)
Lemma frame_loop_delimiter e timeout rest ticks :
  0 < timeout -> ascii7 e = true ->
  forall body b msg n s,
    all_chars ascii7 body = true ->
    all_chars (differs e) (String b body) = true ->
    rx s = (bytes body ++ Some e :: rest)%list ->
    clock s = (repeat true (S (String.length body)) ++ ticks)%list ->
    (S (String.length body) <= n)%nat ->
    while n (frame_cond (String e "") timeout) frame_step
      (msg, String b "") s
    = Ok (msg ++ String b body, String e "")
         (set_clock ticks (set_rx rest s)).
Proof.
  intros Htime He.
  induction body as [|b' body IH]; intros b msg n s Hbody Hdiff Hrx Hclock Hn;
    (destruct n as [|n]; [simpl in Hn; lia|]);
    cbn [all_chars] in Hdiff; apply andb_true_iff in Hdiff as [Hb Hdiff];
    unfold differs in Hb; apply negb_true_iff in Hb;
    rewrite Ascii.eqb_sym in Hb.
  - rewrite (while_step _ _ _ _ s (set_clock ticks s))
      by (apply frame_cond_pending; assumption).
    unfold frame_step, bind.
    rewrite (read_byte (set_clock ticks s) e rest) by (assumption || exact Hrx).
    unfold ret.
    rewrite (while_exit _ _ _ _ _ (set_rx rest (set_clock ticks s))).
    + reflexivity.
    + unfold frame_cond. rewrite String.eqb_refl. reflexivity.
  - cbn [all_chars] in Hbody. apply andb_true_iff in Hbody as [Hb' Hbody].
    rewrite (while_step _ _ _ _ s
               (set_clock (repeat true (S (String.length body)) ++ ticks)%list s))
      by (apply frame_cond_pending; assumption).
    unfold frame_step, bind.
    rewrite (read_byte (set_clock _ s) b' (bytes body ++ Some e :: rest)%list)
      by (assumption || exact Hrx).
    unfold ret.
    rewrite (IH b' (msg ++ String b "") n _ Hbody Hdiff);
      [| reflexivity | reflexivity | simpl in Hn; lia].
    rewrite append_assoc. reflexivity.
Qed.

Lemma set_clock_same s : set_clock (clock s) s = s.
Proof. destruct s; reflexivity. Qed.

Lemma frame_delimiter e timeout body rest ticks s :
  0 < timeout ->
  all_chars ascii7 (String e body) = true ->
  all_chars (differs e) body = true ->
  rx s = (bytes body ++ Some e :: rest)%list ->
  clock s = (repeat true (String.length body) ++ ticks)%list ->
  frame (String e "") timeout s = Ok body (set_clock ticks (set_rx rest s)).
Proof.
  intros Htime Hascii Hdiff Hrx Hclock.
  cbn [all_chars] in Hascii. apply andb_true_iff in Hascii as [He Hbody].
  unfold frame, bind. destruct body as [|b body].
  - rewrite (read_byte s e rest) by assumption.
    rewrite (while_exit _ _ _ _ _ (set_rx rest s)).
    + unfold ret. cbn [fst]. f_equal. simpl in Hclock. rewrite <- Hclock.
      destruct s; reflexivity.
    + unfold frame_cond. rewrite String.eqb_refl. reflexivity.
  - cbn [all_chars] in Hbody. apply andb_true_iff in Hbody as [Hb Hbody].
    rewrite (read_byte s b (bytes body ++ Some e :: rest)%list)
      by assumption.
    rewrite (frame_loop_delimiter e timeout rest ticks Htime He body b "");
      try assumption; try reflexivity.
    cbn [set_rx clock]. rewrite Hclock. rewrite length_app, repeat_length.
    simpl. lia.
Qed.

(** What [read] takes off the script. *)
Lemma read_next e s :
  hd_error (rx s) <> Some (Some e) ->
  exists c, read s = Ok c (set_rx (tl (rx s)) s)
            /\ (c =? String e "")%string = false.
Proof.
  intros Hhd. unfold read. destruct (rx s) as [|[b|] rest] eqn:Hrx.
  - exists "". split; [|reflexivity]. cbn [tl]. rewrite <- Hrx.
    destruct s; reflexivity.
  - unfold decode. destruct (nat_of_ascii b <? 128)%nat.
    + exists (String b ""). split; [reflexivity|]. simpl.
      destruct (Ascii.eqb b e) eqn:E; [|reflexivity].
      apply Ascii.eqb_eq in E. subst b. exfalso. apply Hhd. reflexivity.
    + exists "". split; reflexivity.
  - exists "". split; reflexivity.
Qed.

(** The loop of [read_line] when the deadline expires after the text. *)
Lemma frame_loop_timeout e timeout tail ticks :
  0 < timeout -> hd_error tail <> Some (Some e) ->
  forall body b msg n s,
    all_chars ascii7 body = true ->
    all_chars (differs e) (String b body) = true ->
    rx s = (bytes body ++ tail)%list ->
    clock s = (repeat true (S (String.length body)) ++ false :: ticks)%list ->
    (S (String.length body) <= n)%nat ->
    exists c,
      while n (frame_cond (String e "") timeout) frame_step
        (msg, String b "") s
      = Ok (msg ++ String b body, c) (set_clock ticks (set_rx (tl tail) s)).
Proof.
  intros Htime Htail.
  induction body as [|b' body IH]; intros b msg n s Hbody Hdiff Hrx Hclock Hn;
    (destruct n as [|n]; [simpl in Hn; lia|]);
    cbn [all_chars] in Hdiff; apply andb_true_iff in Hdiff as [Hb Hdiff];
    unfold differs in Hb; apply negb_true_iff in Hb;
    rewrite Ascii.eqb_sym in Hb.
  - rewrite (while_step _ _ _ _ s (set_clock (false :: ticks) s))
      by (apply frame_cond_pending; assumption).
    unfold frame_step, bind.
    destruct (read_next e (set_clock (false :: ticks) s)) as (c & -> & Hc).
    { cbn [rx set_clock]. rewrite Hrx. exact Htail. }
    exists c. unfold ret.
    cbn [rx set_clock]. rewrite Hrx. cbn [bytes list_ascii_of_string map app].
    rewrite (while_exit _ _ _ _ _
               (set_clock ticks (set_rx (tl tail) (set_clock (false :: ticks) s)))).
    + reflexivity.
    + unfold frame_cond. rewrite Hc. cbn [negb].
      apply in_time_tick; [assumption | reflexivity].
  - cbn [all_chars] in Hbody. apply andb_true_iff in Hbody as [Hb' Hbody].
    rewrite (while_step _ _ _ _ s
               (set_clock (repeat true (S (String.length body))
                             ++ false :: ticks)%list s))
      by (apply frame_cond_pending; assumption).
    unfold frame_step, bind.
    rewrite (read_byte (set_clock _ s) b' (bytes body ++ tail)%list)
      by (assumption || exact Hrx).
    unfold ret.
    destruct (IH b' (msg ++ String b "") n
                (set_rx (bytes body ++ tail)%list
                   (set_clock (repeat true (S (String.length body))
                                 ++ false :: ticks)%list s))
                Hbody Hdiff) as (c & Hrun);
      [reflexivity | reflexivity | simpl in Hn; lia |].
    exists c. etransitivity; [exact Hrun|].
    rewrite append_assoc. reflexivity.
Qed.

Lemma frame_timeout e timeout body tail ticks s :
  0 < timeout -> hd_error tail <> Some (Some e) ->
  all_chars ascii7 body = true ->
  all_chars (differs e) body = true ->
  rx s = (bytes body ++ tail)%list ->
  clock s = (repeat true (String.length body) ++ false :: ticks)%list ->
  frame (String e "") timeout s
  = Ok body (set_clock ticks (set_rx (tl tail) s)).
Proof.
  intros Htime Htail Hbody Hdiff Hrx Hclock.
  unfold frame, bind. destruct body as [|b body].
  - destruct (read_next e s) as (c & -> & Hc).
    { rewrite Hrx. exact Htail. }
    rewrite Hrx. cbn [bytes list_ascii_of_string map app].
    rewrite (while_exit _ _ _ _ _ (set_clock ticks (set_rx (tl tail) s))).
    + reflexivity.
    + unfold frame_cond. rewrite Hc. cbn [negb].
      apply in_time_tick; [assumption | exact Hclock].
  - cbn [all_chars] in Hbody. apply andb_true_iff in Hbody as [Hb Hbody].
    rewrite (read_byte s b (bytes body ++ tail)%list) by assumption.
    destruct (frame_loop_timeout e timeout tail ticks Htime Htail body b ""
                (List.length (clock (set_rx (bytes body ++ tail)%list s)))
                (set_rx (bytes body ++ tail)%list s) Hbody Hdiff)
      as (c & ->); try reflexivity; try assumption.
    cbn [set_rx clock]. rewrite Hclock. rewrite length_app, repeat_length.
    simpl. lia.
Qed.


Lemma on_scripts_bump s rest ticks :
  on_scripts (bump s) (set_clock ticks (set_rx rest (opened (rx s) (clock s))))
  = bump (set_clock ticks (set_rx rest s)).
Proof. reflexivity. Qed.

(** C10.  Whatever the transport delivers, the framing loop of
    [read_line] ends with a message free of the delimiter, and that
    message is the only one [read_line] can return (it returns it once
    the connection check that follows has passed).  When the delimiter
    arrives in time after the text [body], [read_line] returns [body]
    and has taken the delimiter off the line; when the deadline expires
    first, it returns the text accumulated until then, and the character
    read last is lost. *)
Theorem read_line_excludes_delimiter fuel e timeout s :
  (exists msg s1,
     frame (String e "") timeout (bump s) = Ok msg s1
     /\ contains (String e "") msg = false
     /\ forall m s', read_line fuel (String e "") timeout s = Ok m s' ->
                     m = msg)
  /\ (forall body rest ticks,
        0 < timeout ->
        all_chars ascii7 (String e body) = true ->
        all_chars (differs e) body = true ->
        quiet body = true ->
        rx s = (bytes body ++ Some e :: rest)%list ->
        clock s = (repeat true (String.length body) ++ ticks)%list ->
        read_line fuel (String e "") timeout s
        = Ok body (bump (set_clock ticks (set_rx rest s))))
  /\ (forall body tail ticks,
        0 < timeout ->
        hd_error tail <> Some (Some e) ->
        all_chars ascii7 body = true ->
        all_chars (differs e) body = true ->
        quiet body = true ->
        rx s = (bytes body ++ tail)%list ->
        clock s = (repeat true (String.length body) ++ false :: ticks)%list ->
        read_line fuel (String e "") timeout s
        = Ok body (bump (set_clock ticks (set_rx (tl tail) s)))).
Proof.
  split; [|split].
  - destruct (frame_total e timeout (bump s)) as (msg & s1 & Hframe & Hall).
    exists msg, s1. split; [assumption|]. split.
    + rewrite contains_char. fold (differs e). rewrite Hall. reflexivity.
    + intros m s'. unfold read_line, read_line_, bind. simpl.
      change (set_reads (S (reads s)) s) with (bump s). rewrite Hframe.
      destruct (check_connection fuel msg 10 s1) as [[] s2 | e2 s2 |];
        [|discriminate|discriminate].
      unfold ret. intros H. injection H as <- _. reflexivity.
  - intros body rest ticks Htime Hascii Hdiff Hquiet Hrx Hclock.
    apply negb_true_iff in Hquiet.
    rewrite (read_line_quiet fuel e timeout s body
               (set_clock ticks (set_rx rest (opened (rx s) (clock s)))));
      [apply f_equal, on_scripts_bump | | assumption].
    apply frame_delimiter; assumption.
  - intros body tail ticks Htime Htail Hascii Hdiff Hquiet Hrx Hclock.
    apply negb_true_iff in Hquiet.
    rewrite (read_line_quiet fuel e timeout s body
               (set_clock ticks (set_rx (tl tail) (opened (rx s) (clock s)))));
      [apply f_equal, on_scripts_bump | | assumption].
    apply frame_timeout; assumption.
Qed.

Lemma read_line_excludes_delimiter_witness :
  0 < 1
  /\ all_chars ascii7 (String ";" "12,34") = true
  /\ all_chars (differs ";") "12,34" = true
  /\ quiet "12,34" = true
  /\ rx script_line = (bytes "12,34" ++ Some ";"%char :: bytes "56")%list
  /\ clock script_line
     = (repeat true (String.length "12,34") ++ repeat true 15)%list
  /\ read_line 0 ";" 1 script_line
     = Ok "12,34"
         (bump (set_clock (repeat true 15) (set_rx (bytes "56") script_line)))
  /\ contains ";" "12,34" = false.
Proof.
  split; [lia|]. do 5 (split; [reflexivity|]).
  split; [|reflexivity].
  apply (read_line_excludes_delimiter 0 ";" 1 script_line);
    (lia || reflexivity).
Defined.

(** On expiry the character read last is dropped with the loop. *)
Lemma read_line_timeout_example :
  read_line 0 ";" 1 script_slow
  = Ok "12," (bump (set_clock [] (set_rx [] script_slow))).
Proof. reflexivity. Qed.

(** A delimiter that is not one character is refused. *)
Lemma read_line_asserts fuel eol timeout s :
  String.length eol <> 1%nat ->
  read_line fuel eol timeout s = Raise AssertionError s.
Proof.
  intros Hlen. unfold read_line, read_line_, bind.
  destruct (String.length eol =? 1)%nat eqn:E; [|reflexivity].
  apply Nat.eqb_eq in E. contradiction.
Qed.

(** *** Reading on any script *)

Lemma heard_cons look rest :
  heard (look :: rest) = heard [look] ++ heard rest.
Proof.
  destruct look as [b|]; cbn [heard]; [|reflexivity].
  rewrite append_empty_r. reflexivity.
Qed.

Lemma read_look look rest s :
  rx s = look :: rest -> read s = Ok (heard [look]) (set_rx rest s).
Proof.
  intros Hrx. unfold read. rewrite Hrx.
  destruct look as [b|]; cbn [heard]; [|reflexivity].
  rewrite append_empty_r. reflexivity.
Qed.

Lemma heard_differs e look :
  look <> Some e -> (heard [look] =? String e "")%string = false.
Proof.
  intros Hlook. destruct look as [b|]; cbn [heard]; [|reflexivity].
  rewrite append_empty_r. unfold decode.
  destruct (nat_of_ascii b <? 128)%nat; [|reflexivity].
  simpl. destruct (Ascii.eqb b e) eqn:E; [|reflexivity].
  apply Ascii.eqb_eq in E. subst b. contradiction.
Qed.

Lemma read_tail s : exists c, read s = Ok c (set_rx (tl (rx s)) s).
Proof.
  unfold read. destruct (rx s) as [|[b|] rest] eqn:Hrx; eauto.
  exists "". cbn [tl]. rewrite <- Hrx. destruct s; reflexivity.
Qed.

(** The loop of [read_lines] on a backlog followed by an empty look. *)
Lemma drain_loop tail :
  idle tail = true ->
  forall bs msg n s,
    rx s = (map Some bs ++ tail)%list -> (List.length bs <= n)%nat ->
    while n (fun _ => in_waiting) drain_step msg s
    = Ok (msg ++ heard (map Some bs)) (set_rx (tl tail) s).
Proof.
  intros Hidle. induction bs as [|b bs IH]; intros msg n s Hrx Hn.
  - cbn [map app] in Hrx. cbn [map heard]. rewrite append_empty_r.
    apply while_exit. unfold in_waiting. rewrite Hrx.
    destruct tail as [|[b|] rest]; [| discriminate Hidle | reflexivity].
    cbn [tl]. rewrite <- Hrx. destruct s; reflexivity.
  - destruct n as [|n]; [simpl in Hn; lia|].
    cbn [map app] in Hrx.
    rewrite (while_step _ _ _ _ s s)
      by (unfold in_waiting; rewrite Hrx; reflexivity).
    unfold drain_step at 1. unfold bind at 1. unfold bind at 1.
    rewrite (read_look _ _ _ Hrx). unfold ret at 1.
    rewrite (IH _ n (set_rx (map Some bs ++ tail)%list s));
      [| reflexivity | simpl in Hn; lia].
    cbn [map]. rewrite (heard_cons (Some b) (map Some bs)), append_assoc.
    reflexivity.
Qed.

(** X1.  [read_lines] returns the bytes that wait in the input buffer, in
    their order and without those that do not decode, and stops at the
    first look that finds the buffer empty; what arrives after that look
    stays for the next call.  ([bs] are the bytes waiting, [tail] is the
    script from the empty look on.) *)
Theorem read_lines_drains fuel bs tail s :
  rx s = (map Some bs ++ tail)%list ->
  idle tail = true ->
  quiet (heard (map Some bs)) = true ->
  read_lines fuel s = Ok (heard (map Some bs)) (set_rx (tl tail) s).
Proof.
  intros Hrx Hidle Hquiet. apply negb_true_iff in Hquiet.
  unfold read_lines, read_lines_. unfold bind at 1.
  rewrite (drain_loop tail Hidle bs "" _ s Hrx)
    by (rewrite Hrx, length_app, length_map; lia).
  rewrite append_nil. unfold bind.
  rewrite check_connection_fuel_quiet by assumption. reflexivity.
Qed.

Lemma read_lines_drains_witness :
  rx script_backlog
  = (map Some ["a"; "b"; stray; "c"]%char ++ None :: bytes "later")%list
  /\ idle (None :: bytes "later") = true
  /\ heard (map Some ["a"; "b"; stray; "c"]%char) = "abc"
  /\ read_lines 0 script_backlog
     = Ok "abc" (set_rx (bytes "later") script_backlog).
Proof.
  split; [reflexivity|]. split; [reflexivity|]. split; [reflexivity|].
  apply (read_lines_drains 0 ["a"; "b"; stray; "c"]%char
           (None :: bytes "later") script_backlog);
    reflexivity.
Defined.

Lemma idle_drop_waiting r : idle (drop_waiting r) = true.
Proof.
  induction r as [|[b|] r IH]; simpl; [reflexivity | exact IH | reflexivity].
Qed.


Lemma frame_cond_tick e timeout msg c s t rest :
  0 < timeout -> (c =? String e "")%string = false -> clock s = t :: rest ->
  frame_cond (String e "") timeout (msg, c) s = Ok t (set_clock rest s).
Proof.
  intros Ht Hc Hclock. unfold frame_cond. rewrite Hc. cbn [negb].
  apply in_time_tick; assumption.
Qed.

Lemma forallb_not_delimiter e look looks :
  forallb (besides e) (look :: looks) = true ->
  look <> Some e /\ forallb (besides e) looks = true.
Proof.
  cbn [forallb]. intros H. apply andb_true_iff in H as [H1 H2].
  split; [|exact H2]. intros ->. unfold besides, differs in H1.
  rewrite Ascii.eqb_refl in H1. discriminate H1.
Qed.

(** The loop of [read_line] while the delimiter is on its way. *)
Lemma frame_loop_heard e timeout rest ticks :
  0 < timeout -> ascii7 e = true ->
  forall looks c msg n s,
    (c =? String e "")%string = false ->
    forallb (besides e) looks = true ->
    rx s = (looks ++ Some e :: rest)%list ->
    clock s = (repeat true (S (List.length looks)) ++ ticks)%list ->
    (S (List.length looks) <= n)%nat ->
    while n (frame_cond (String e "") timeout) frame_step (msg, c) s
    = Ok (msg ++ c ++ heard looks, String e "")
         (set_clock ticks (set_rx rest s)).
Proof.
  intros Htime He.
  induction looks as [|look looks IH]; intros c msg n s Hc Hlooks Hrx Hclock Hn;
    (destruct n as [|n]; [simpl in Hn; lia|]).
  - rewrite (while_step _ _ _ _ s (set_clock ticks s))
      by (apply frame_cond_tick; assumption).
    unfold frame_step, bind.
    rewrite (read_byte (set_clock ticks s) e rest) by (assumption || exact Hrx).
    unfold ret.
    rewrite (while_exit _ _ _ _ _ (set_rx rest (set_clock ticks s))).
    + cbn [heard]. rewrite append_empty_r. reflexivity.
    + unfold frame_cond. rewrite String.eqb_refl. reflexivity.
  - apply forallb_not_delimiter in Hlooks as [Hlook Hlooks].
    rewrite (while_step _ _ _ _ s
               (set_clock (repeat true (S (List.length looks)) ++ ticks)%list s))
      by (apply frame_cond_tick; assumption).
    unfold frame_step, bind.
    rewrite (read_look look (looks ++ Some e :: rest)%list (set_clock _ s))
      by exact Hrx.
    unfold ret.
    rewrite (IH (heard [look]) (msg ++ c) n);
      [| apply heard_differs; exact Hlook | exact Hlooks | reflexivity
       | reflexivity | simpl in Hn; lia].
    rewrite (heard_cons look looks), !append_assoc. reflexivity.
Qed.

Lemma frame_heard e timeout looks rest ticks s :
  0 < timeout -> ascii7 e = true ->
  forallb (besides e) looks = true ->
  rx s = (looks ++ Some e :: rest)%list ->
  clock s = (repeat true (List.length looks) ++ ticks)%list ->
  frame (String e "") timeout s
  = Ok (heard looks) (set_clock ticks (set_rx rest s)).
Proof.
  intros Htime He Hlooks Hrx Hclock.
  unfold frame. unfold bind at 1. destruct looks as [|look looks].
  - rewrite (read_byte s e rest) by assumption. unfold bind.
    rewrite (while_exit _ _ _ _ _ (set_rx rest s)).
    + unfold ret. cbn [fst heard]. f_equal. simpl in Hclock. rewrite <- Hclock.
      destruct s; reflexivity.
    + unfold frame_cond. rewrite String.eqb_refl. reflexivity.
  - apply forallb_not_delimiter in Hlooks as [Hlook Hlooks].
    rewrite (read_look look (looks ++ Some e :: rest)%list s) by exact Hrx.
    unfold bind.
    rewrite (frame_loop_heard e timeout rest ticks Htime He looks
               (heard [look]) "");
      [| apply heard_differs; exact Hlook | exact Hlooks | reflexivity
       | exact Hclock
       | cbn [set_rx clock]; rewrite Hclock, length_app, repeat_length;
         simpl; lia].
    unfold ret. cbn [fst]. rewrite append_nil, (heard_cons look looks).
    reflexivity.
Qed.

(** X3.  When the delimiter arrives in time, [read_line] returns the
    characters read before it, whatever the looks at the input buffer
    found on the way: an empty look and a byte that does not decode add
    nothing to the message, and each of them uses up one test of the
    deadline like a character does.  The delimiter is taken off the
    line, what follows it stays. *)
Theorem read_line_skips_noise fuel e timeout looks rest ticks s :
  0 < timeout -> ascii7 e = true ->
  forallb (besides e) looks = true ->
  quiet (heard looks) = true ->
  rx s = (looks ++ Some e :: rest)%list ->
  clock s = (repeat true (List.length looks) ++ ticks)%list ->
  read_line fuel (String e "") timeout s
  = Ok (heard looks) (bump (set_clock ticks (set_rx rest s))).
Proof.
  intros Htime He Hlooks Hquiet Hrx Hclock. apply negb_true_iff in Hquiet.
  rewrite (read_line_quiet fuel e timeout s (heard looks)
             (set_clock ticks (set_rx rest (opened (rx s) (clock s)))));
    [apply f_equal, on_scripts_bump | | assumption].
  apply frame_heard; assumption.
Qed.

Lemma read_line_skips_noise_witness :
  0 < 1 /\ ascii7 ";" = true
  /\ rx script_noisy
     = ([None; Some "1"%char; Some stray; None; Some "2"%char]
          ++ Some ";"%char :: [Some "3"%char])%list
  /\ clock script_noisy = (repeat true 5 ++ repeat true 5)%list
  /\ read_line 0 ";" 1 script_noisy
     = Ok "12"
         (bump (set_clock (repeat true 5)
                  (set_rx [Some "3"%char] script_noisy))).
Proof.
  split; [lia|]. do 3 (split; [reflexivity|]).
  apply (read_line_skips_noise 0 ";" 1
           [None; Some "1"%char; Some stray; None; Some "2"%char]
           [Some "3"%char] (repeat true 5) script_noisy);
    (lia || reflexivity).
Defined.

Lemma frame_without_time e timeout s :
  timeout <= 0 ->
  frame (String e "") timeout s = Ok "" (set_rx (tl (rx s)) s).
Proof.
  intros Htime. unfold frame. unfold bind at 1.
  destruct (read_tail s) as (c & ->). unfold bind.
  rewrite (while_exit _ _ _ _ _ (set_rx (tl (rx s)) s)); [reflexivity|].
  unfold frame_cond, in_time, ret.
  destruct (negb _); [|reflexivity].
  destruct (timeout <=? 0) eqn:E; [reflexivity | lia].
Qed.

(** X4.  With a timeout that is not positive, [read_line] returns the
    empty string at once, and the one look at the input buffer that it
    takes is lost: a character that was waiting is read and dropped. *)
Theorem read_line_without_time fuel e timeout s :
  timeout <= 0 ->
  read_line fuel (String e "") timeout s
  = Ok "" (bump (set_rx (tl (rx s)) s)).
Proof.
  intros Htime.
  rewrite (read_line_quiet fuel e timeout s ""
             (set_rx (tl (rx s)) (opened (rx s) (clock s))));
    [reflexivity | | reflexivity].
  apply (frame_without_time e timeout (opened (rx s) (clock s))). exact Htime.
Qed.

Lemma read_line_without_time_witness :
  0 <= 0
  /\ rx script_line = Some "1"%char :: bytes "2,34;56"
  /\ read_line 0 ";" 0 script_line
     = Ok "" (bump (set_rx (bytes "2,34;56") script_line)).
Proof.
  split; [lia|]. split; [reflexivity|].
  apply (read_line_without_time 0 ";" 0 script_line). lia.
Defined.

(** X5.  On a message without the link-lost marker [check_connection]
    touches nothing: it returns when the budget is positive, and raises
    the reconnection failure when the budget is zero or negative, clean
    message or not. *)
Theorem check_connection_clean_message fuel msg max_tries s :
  quiet msg = true ->
  check_connection fuel msg max_tries s
  = if 0 <? max_tries then Ok tt s else Raise ReconnectFailed s.
Proof.
  intros Hquiet. apply negb_true_iff in Hquiet.
  destruct (0 <? max_tries) eqn:Hmax.
  - rewrite check_connection_callees. apply check_connection_quiet;
      [assumption | lia].
  - apply check_connection_no_budget. lia.
Qed.

Lemma check_connection_clean_message_witness :
  quiet "12,34" = true
  /\ check_connection 0 "12,34" 10 script_line = Ok tt script_line
  /\ check_connection 0 "12,34" 0 script_line
     = Raise ReconnectFailed script_line.
Proof.
  split; [reflexivity|]. split.
  - apply (check_connection_clean_message 0 "12,34" 10 script_line).
    reflexivity.
  - apply (check_connection_clean_message 0 "12,34" 0 script_line).
    reflexivity.
Defined.

(** *** The commands of a handshake *)

Lemma handshake_commands_shape mac frames :
  forall connected,
    exists i j,
      handshake_commands mac connected frames
      = (repeat ("AT+CON" ++ mac)%string i ++ repeat "AT+NAME?" j)%list
      /\ (i + j <= List.length frames)%nat
      /\ (connected = true -> i = 0%nat).
Proof.
  induction frames as [|m frames IH]; intros connected.
  - exists 0%nat, 0%nat. repeat split; simpl; lia.
  - cbn [handshake_commands]. cbv zeta.
    set (connected1 := if contains "OK+CONNAOK+CONN" m then true else connected).
    destruct (IH connected1) as (i & j & -> & Hlen & Hi).
    destruct connected1 eqn:Hc; cbn [negb].
    + rewrite (Hi eq_refl) in *. destruct (contains "#" m); cbn [negb].
      * exists 0%nat, j. repeat split; simpl in *; lia.
      * exists 0%nat, (S j). repeat split; simpl in *; lia.
    + exists (S i), j. repeat split; [simpl in *; lia|].
      intros ->. subst connected1. destruct (contains _ m); discriminate Hc.
Qed.

(** The loop of [connect] with the commands it writes. *)
Lemma connect_loop_commands fuel mac max_tries k :
  forall s connected tries,
    Z.of_nat k = Z.max 0 (max_tries - tries) ->
    _peripheral_mac s = Some mac ->
    forallb quiet (handshake_frames k (rx s) (clock s)) = true ->
    exists connected' tries' s',
      while k (connect_cond max_tries) (connect_step (read_line fuel))
        (connected, false, tries) s
      = Ok (connected',
            existsb (contains "#") (handshake_frames k (rx s) (clock s)),
            tries') s'
      /\ tx s'
         = (tx s ++ handshake_commands mac connected
                      (handshake_frames k (rx s) (clock s)))%list.
Proof.
  induction k as [|k IH]; intros s connected tries Hk Hmac Hquiet.
  - exists connected, tries, s.
    change (handshake_frames 0 (rx s) (clock s)) with (@nil string).
    cbn [existsb handshake_commands]. rewrite app_nil_r.
    split; [|reflexivity].
    apply while_exit. unfold connect_cond, ret. simpl.
    destruct (tries <? max_tries) eqn:E; [lia | reflexivity].
  - destruct (frame_total "010" 1 (opened (rx s) (clock s)))
      as (m & s0 & Hframe & _).
    change (String "010" "") with LF in Hframe.
    rewrite (handshake_frames_step _ _ _ _ _ Hframe) in *.
    cbn [forallb] in Hquiet. apply andb_true_iff in Hquiet as [Hm Hrest].
    apply negb_true_iff in Hm.
    assert (connect_cond max_tries (connected, false, tries) s = Ok true s)
      as Hcond.
    { unfold connect_cond, ret. simpl.
      destruct (tries <? max_tries) eqn:E; [reflexivity | lia]. }
    rewrite (while_step _ _ _ _ _ _ Hcond).
    unfold connect_step at 1. unfold bind at 1. unfold bind at 1.
    unfold LF at 1. rewrite (read_line_quiet fuel _ _ _ _ _ Hframe Hm).
    set (s1 := on_scripts (bump s) s0).
    cbn [handshake_commands]. cbv zeta.
    set (connected1 := if contains "OK+CONNAOK+CONN" m then true else connected).
    set (cmds := if negb connected1 then ["AT+CON" ++ mac]
                 else if negb (contains "#" m) then ["AT+NAME?"] else []).
    assert (exists s2,
      (if negb connected1 then
         cmd <- concat_mac "AT+CON" ;; write cmd ;; sleep 0.5%Q
       else if negb (if contains "#" m then true else false) then
         write "AT+NAME?" ;; sleep 0.5%Q
       else ret tt) s1 = Ok tt s2
      /\ rx s2 = rx s0 /\ clock s2 = clock s0
      /\ _peripheral_mac s2 = Some mac
      /\ tx s2 = (tx s ++ cmds)%list)
      as (s2 & Hwrite & Hrx & Hclock & Hmac2 & Htx).
    { subst cmds. destruct (negb connected1).
      - unfold bind, concat_mac. simpl. rewrite Hmac. simpl.
        eexists. split; [reflexivity|]. repeat split. assumption.
      - destruct (contains "#" m); cbn [negb].
        + eexists. split; [reflexivity|]. repeat split; [assumption|].
          simpl. rewrite app_nil_r. reflexivity.
        + eexists. split; [reflexivity|]. repeat split. assumption. }
    unfold bind at 1. rewrite Hwrite. unfold ret at 1.
    destruct (contains "#" m) eqn:Hconf.
    + (* confirmed: the loop ends here *)
      exists connected1, (tries + 1), s2. cbn [existsb handshake_commands].
      rewrite Hconf. cbn [orb]. rewrite app_nil_r.
      split; [|exact Htx].
      apply while_exit. reflexivity.
    + destruct (IH s2 connected1 (tries + 1)) as (c' & t' & s' & Hrun & Htx').
      * lia.
      * assumption.
      * rewrite Hrx, Hclock. assumption.
      * rewrite Hrx, Hclock in *. exists c', t', s'.
        cbn [existsb]. rewrite Hconf. cbn [orb].
        split; [exact Hrun|]. rewrite Htx', Htx, <- app_assoc. reflexivity.
Qed.

(** X6.  On a script whose handshake frames carry no link-lost marker,
    [connect] writes the reset command ["AT"] and then at most one
    command for each frame it reads: the connection request for the
    stored address as long as no frame has carried the link-established
    marker, the name query after that for every frame without the
    confirmation marker.  It never returns to the connection request,
    and it writes nothing else, whether it ends connected or fails. *)
Theorem connect_commands fuel mac max_tries s :
  let frames :=
    handshake_frames (Z.to_nat max_tries) (drop_waiting (rx s)) (clock s) in
  forallb quiet frames = true ->
  exists s' i j,
    (connect fuel (Some mac) max_tries s = Ok tt s'
     \/ connect fuel (Some mac) max_tries s = Raise ConnectionFailed s')
    /\ tx s' = (tx s ++ "AT" :: handshake_commands mac false frames)%list
    /\ handshake_commands mac false frames
       = (repeat ("AT+CON" ++ mac)%string i ++ repeat "AT+NAME?" j)%list
    /\ (i + j <= List.length frames)%nat.
Proof.
  intros frames Hquiet.
  set (sa := set_mac (Some mac) s).
  set (sb := if closed sa then set_closed false sa else sa).
  set (sc := set_tx (tx sb ++ ["AT"])%list sb).
  set (s1 := set_rx (drop_waiting (rx sc)) sc).
  assert (rx s1 = drop_waiting (rx s) /\ clock s1 = clock s
          /\ tx s1 = (tx s ++ ["AT"])%list /\ _peripheral_mac s1 = Some mac)
    as (Hrx & Hclock & Htx & Hmac).
  { subst s1 sc sb sa. simpl. destruct (closed s); repeat split. }
  destruct (connect_loop_commands fuel mac max_tries (Z.to_nat max_tries)
              s1 false 0) as (c' & t' & s' & Hrun & Htx').
  { lia. }
  { assumption. }
  { rewrite Hrx, Hclock. assumption. }
  rewrite Hrx, Hclock in *. fold frames in Hrun, Htx'.
  destruct (handshake_commands_shape mac frames false) as (i & j & Hshape & Hlen & _).
  exists s', i, j.
  assert (connect fuel (Some mac) max_tries s
          = (st <- while (Z.to_nat max_tries) (connect_cond max_tries)
                     (connect_step (read_line fuel)) (false, false, 0) ;;
             let '(_, confirmed, _) := st in
             if negb confirmed then raise ConnectionFailed else ret tt) s1)
    as Hconnect by reflexivity.
  rewrite Hconnect. unfold bind. rewrite Hrun.
  split; [destruct (existsb (contains "#") frames); [left | right]; reflexivity|].
  split; [|split; assumption].
  rewrite Htx', Htx, <- app_assoc. reflexivity.
Qed.

Lemma connect_commands_witness :
  forallb quiet
    (handshake_frames (Z.to_nat 5) (drop_waiting (rx script_handshake))
       (clock script_handshake)) = true
  /\ handshake_frames (Z.to_nat 5) (drop_waiting (rx script_handshake))
       (clock script_handshake)
     = ["xx"; "OK+CONNAOK+CONN"; "#name"]
  /\ exists s',
       connect 0 (Some mac_address) 5 script_handshake = Ok tt s'
       /\ tx s' = ["AT"; "AT+CON78DB2F141044"; "AT+NAME?"].
Proof.
  split; [reflexivity|]. split; [reflexivity|].
  destruct (connect_commands 0 mac_address 5 script_handshake eq_refl)
    as (s' & i & j & Hrun & Htx & _).
  exists s'. split; [|exact Htx].
  destruct Hrun as [Hrun | Hrun]; [exact Hrun|].
  exfalso. revert Hrun. vm_compute. discriminate.
Defined.

(** X7.  [connect] with no address ([None], which is what
    [check_connection] passes when the object has never been connected)
    raises a [TypeError] in its first read cycle, unless the first frame
    carries the link-established marker: the reset command has been
    written and one frame has been read by then.  A link-lost notice on a
    port that was never connected therefore ends in a [TypeError], not in
    one of the two [IOError]s. *)
Theorem connect_without_address fuel s m s0 :
  frame LF 1 (opened (drop_waiting (rx s)) (clock s)) = Ok m s0 ->
  quiet m = true -> contains "OK+CONNAOK+CONN" m = false ->
  exists s',
    tx s' = (tx s ++ ["AT"])%list /\ reads s' = S (reads s)
    /\ (forall max_tries, 0 < max_tries ->
          connect fuel None max_tries s = Raise TypeError s')
    /\ (forall msg budget,
          _peripheral_mac s = None -> contains "OK+LOST" msg = true ->
          0 < budget ->
          check_connection (S fuel) msg budget s = Raise TypeError s').
Proof.
  intros Hframe Hquiet Hconn. apply negb_true_iff in Hquiet.
  set (sa := set_mac None s).
  set (sb := if closed sa then set_closed false sa else sa).
  set (sc := set_tx (tx sb ++ ["AT"])%list sb).
  set (s1 := set_rx (drop_waiting (rx sc)) sc).
  assert (rx s1 = drop_waiting (rx s) /\ clock s1 = clock s
          /\ tx s1 = (tx s ++ ["AT"])%list /\ _peripheral_mac s1 = None
          /\ reads s1 = reads s)
    as (Hrx & Hclock & Htx & Hmac & Hreads).
  { subst s1 sc sb sa. simpl. destruct (closed s); repeat split. }
  exists (on_scripts (bump s1) s0).
  split; [exact Htx|].
  split; [cbn [on_scripts reads bump set_reads]; rewrite Hreads; reflexivity|].
  assert (forall max_tries, 0 < max_tries ->
            connect fuel None max_tries s
            = Raise TypeError (on_scripts (bump s1) s0)) as Hconnect.
  { intros max_tries Hmax.
    assert (connect fuel None max_tries s
            = (st <- while (Z.to_nat max_tries) (connect_cond max_tries)
                       (connect_step (read_line fuel)) (false, false, 0) ;;
               let '(_, confirmed, _) := st in
               if negb confirmed then raise ConnectionFailed else ret tt) s1)
      as -> by reflexivity.
    destruct (Z.to_nat max_tries) as [|k] eqn:Hk; [lia|].
    unfold bind at 1.
    rewrite (while_step _ _ _ _ s1 s1).
    2: { unfold connect_cond, ret. simpl.
         destruct (0 <? max_tries) eqn:E; [reflexivity | lia]. }
    unfold connect_step at 1. unfold bind at 1. unfold bind at 1.
    unfold bind at 1. unfold LF at 1.
    rewrite (read_line_quiet fuel "010" 1 s1 m s0);
      [| rewrite Hrx, Hclock; exact Hframe | exact Hquiet].
    rewrite Hconn. cbn [negb]. unfold bind at 1. unfold concat_mac.
    cbn [on_scripts _peripheral_mac bump set_reads]. rewrite Hmac.
    reflexivity. }
  split; [exact Hconnect|].
  intros msg budget Hnone Hlost Hbudget.
  change (check_connection (S fuel) msg budget s)
    with (check_connection_ (connect fuel) (read_lines fuel) msg budget s).
  unfold check_connection_, check_connection_loop. unfold bind at 1.
  destruct (Z.to_nat budget) as [|k] eqn:Hk; [lia|].
  rewrite (while_step _ _ _ _ s s).
  2: { unfold check_cond, ret. rewrite Hlost.
       destruct (0 <? budget) eqn:E; [reflexivity | lia]. }
  unfold check_step at 1. unfold bind at 1. unfold bind at 1.
  rewrite Hnone, (Hconnect 20) by lia. reflexivity.
Qed.

Lemma connect_without_address_witness :
  exists s0 s',
    frame LF 1
      (opened (drop_waiting (rx script_unaddressed)) (clock script_unaddressed))
    = Ok "OK" s0
    /\ quiet "OK" = true /\ contains "OK+CONNAOK+CONN" "OK" = false
    /\ connect 0 None 20 script_unaddressed = Raise TypeError s'
    /\ check_connection 1 "OK+LOST" 10 script_unaddressed = Raise TypeError s'
    /\ tx s' = ["AT"].
Proof.
  eexists.
  destruct (connect_without_address 0 script_unaddressed "OK" _ eq_refl
              eq_refl eq_refl) as (s' & Htx & _ & Hconnect & Hcheck).
  exists s'. split; [reflexivity|]. split; [reflexivity|].
  split; [reflexivity|]. split; [apply Hconnect; lia|].
  split; [apply Hcheck; [reflexivity | reflexivity | lia] | exact Htx].
Defined.

(** *** What no method undoes *)

Lemma kept_refl s : kept s s.
Proof.
  split; [reflexivity|]. split; [auto|]. exists []. rewrite app_nil_r.
  reflexivity.
Qed.

Lemma kept_trans s1 s2 s3 : kept s1 s2 -> kept s2 s3 -> kept s1 s3.
Proof.
  intros (Hm1 & Hc1 & more1 & Ht1) (Hm2 & Hc2 & more2 & Ht2).
  split; [congruence|]. split; [auto|].
  exists (more1 ++ more2)%list. rewrite Ht2, Ht1, app_assoc. reflexivity.
Qed.

Lemma leaves_impl {A} (I J : state -> Prop) (r : res A) :
  (forall s, I s -> J s) -> leaves I r -> leaves J r.
Proof. intros H. destruct r; simpl; auto. Qed.

Lemma keeps_bind {A B} (m : M A) (k : A -> M B) :
  keeps m -> (forall a, keeps (k a)) -> keeps (bind m k).
Proof.
  intros Hm Hk s. unfold bind. specialize (Hm s).
  destruct (m s) as [a s1 | e s1 |]; simpl in *; [|assumption | exact I].
  apply (leaves_impl (kept s1)); [|apply Hk].
  intros s2. apply kept_trans. exact Hm.
Qed.

Lemma keeps_ret {A} (a : A) : keeps (ret a).
Proof. intros s. apply kept_refl. Qed.

Lemma keeps_raise {A} e : keeps (@raise A e).
Proof. intros s. apply kept_refl. Qed.

Lemma keeps_while {St} cond body :
  (forall st : St, keeps (cond st)) -> (forall st, keeps (body st)) ->
  forall n st, keeps (while n cond body st).
Proof.
  intros Hc Hb. induction n as [|n IH]; intros st; simpl.
  - apply keeps_bind; [apply Hc|]. intros []; [|apply keeps_ret].
    intros s. exact I.
  - apply keeps_bind; [apply Hc|]. intros []; [|apply keeps_ret].
    apply keeps_bind; [apply Hb | apply IH].
Qed.

Lemma keeps_read : keeps read.
Proof.
  intros s. unfold read. destruct (rx s) as [|[b|] rest]; simpl;
    (split; [reflexivity|]; split; [auto|]; exists []; simpl;
     rewrite app_nil_r; reflexivity).
Qed.

Lemma keeps_in_time timeout : keeps (in_time timeout).
Proof.
  intros s. unfold in_time.
  destruct (timeout <=? 0); [apply kept_refl|].
  destruct (clock s) as [|b rest]; simpl; [apply kept_refl|].
  split; [reflexivity|]. split; [auto|]. exists []. simpl.
  rewrite app_nil_r. reflexivity.
Qed.

Lemma keeps_in_waiting : keeps in_waiting.
Proof.
  intros s. unfold in_waiting. destruct (rx s) as [|[b|] rest]; simpl;
    try apply kept_refl.
  split; [reflexivity|]. split; [auto|]. exists []. simpl.
  rewrite app_nil_r. reflexivity.
Qed.

Lemma keeps_write msg : keeps (write msg).
Proof.
  intros s. simpl. split; [reflexivity|]. split; [auto|].
  exists [msg]. reflexivity.
Qed.

Lemma keeps_flush : keeps flush.
Proof.
  intros s. simpl. split; [reflexivity|]. split; [auto|]. exists [].
  simpl. rewrite app_nil_r. reflexivity.
Qed.

Lemma keeps_frame eol timeout : keeps (frame eol timeout).
Proof.
  unfold frame. apply keeps_bind; [apply keeps_read | intros c].
  apply keeps_bind; [|intros st; apply keeps_ret].
  intros s. apply keeps_while.
  - intros [msg c']. unfold frame_cond.
    destruct (negb _); [apply keeps_in_time | apply keeps_ret].
  - intros [msg c']. unfold frame_step.
    apply keeps_bind; [apply keeps_read | intros c2; apply keeps_ret].
Qed.

Lemma keeps_read_line check eol timeout :
  (forall msg n, keeps (check msg n)) -> keeps (read_line_ check eol timeout).
Proof.
  intros Hc. unfold read_line_.
  apply keeps_bind; [destruct (_ =? _)%nat; [apply keeps_ret | apply keeps_raise]|].
  intros _. apply keeps_bind.
  { intros s. simpl. split; [reflexivity|]. split; [auto|]. exists [].
    simpl. rewrite app_nil_r. reflexivity. }
  intros _. apply keeps_bind; [apply keeps_frame | intros msg].
  apply keeps_bind; [apply Hc | intros _; apply keeps_ret].
Qed.

Lemma keeps_read_lines check :
  (forall msg n, keeps (check msg n)) -> keeps (read_lines_ check).
Proof.
  intros Hc. unfold read_lines_.
  apply keeps_bind.
  { intros s. apply keeps_while.
    - intros _. apply keeps_in_waiting.
    - intros msg. unfold drain_step.
      apply keeps_bind; [apply keeps_read | intros c; apply keeps_ret]. }
  intros msg. apply keeps_bind; [apply Hc | intros _; apply keeps_ret].
Qed.

(** The handshake of [connect], after the reset and the flush. *)
Lemma keeps_handshake rl max_tries :
  (forall eol timeout, keeps (rl eol timeout)) ->
  keeps (st <- while (Z.to_nat max_tries) (connect_cond max_tries)
                 (connect_step rl) (false, false, 0) ;;
         let '(_, confirmed, _) := st in
         if negb confirmed then raise ConnectionFailed else ret tt).
Proof.
  intros Hr. apply keeps_bind.
  - apply keeps_while.
    + intros [[connected confirmed] tries]. apply keeps_ret.
    + intros [[connected confirmed] tries]. unfold connect_step.
      apply keeps_bind; [apply Hr | intros response].
      apply keeps_bind; [|intros _; apply keeps_ret].
      destruct (negb _).
      * apply keeps_bind.
        { intros s. unfold concat_mac.
          destruct (_peripheral_mac s); apply kept_refl. }
        intros cmd. apply keeps_bind; [apply keeps_write|].
        intros _. apply keeps_ret.
      * destruct (negb _); [|apply keeps_ret].
        apply keeps_bind; [apply keeps_write | intros _; apply keeps_ret].
  - intros [[connected confirmed] tries].
    destruct (negb confirmed); [apply keeps_raise | apply keeps_ret].
Qed.

(** What [connect] leaves, whatever the address it is given. *)
Lemma connect_leaves rl mac max_tries s :
  (forall eol timeout, keeps (rl eol timeout)) ->
  leaves (fun s' => _peripheral_mac s' = mac /\ closed s' = false
                    /\ exists more, tx s' = (tx s ++ "AT" :: more)%list)
    (connect_ rl mac max_tries s).
Proof.
  intros Hr.
  set (sa := set_mac mac s).
  set (sb := if closed sa then set_closed false sa else sa).
  set (sc := set_tx (tx sb ++ ["AT"])%list sb).
  set (s1 := set_rx (drop_waiting (rx sc)) sc).
  assert (closed s1 = false /\ tx s1 = (tx s ++ ["AT"])%list
          /\ _peripheral_mac s1 = mac) as (Hclosed & Htx & Hmac).
  { subst s1 sc sb sa. simpl. destruct (closed s) eqn:E; repeat split.
    simpl. exact E. }
  change (connect_ rl mac max_tries s)
    with ((st <- while (Z.to_nat max_tries) (connect_cond max_tries)
                   (connect_step rl) (false, false, 0) ;;
           let '(_, confirmed, _) := st in
           if negb confirmed then raise ConnectionFailed else ret tt) s1).
  apply (leaves_impl (kept s1)); [|apply keeps_handshake; exact Hr].
  intros s' (Hm & Hc & more & Ht).
  split; [congruence|]. split; [auto|].
  exists more. rewrite Ht, Htx, <- app_assoc. reflexivity.
Qed.

Lemma keeps_check connect read_lines msg max_tries :
  (forall n s, leaves (kept s) (connect (_peripheral_mac s) n s)) ->
  keeps read_lines ->
  keeps (check_connection_ connect read_lines msg max_tries).
Proof.
  intros Hc Hl. unfold check_connection_, check_connection_loop.
  apply keeps_bind.
  - apply keeps_while.
    + intros [m tries]. apply keeps_ret.
    + intros [m tries]. unfold check_step.
      apply keeps_bind; [intros s; apply Hc | intros _].
      apply keeps_bind; [apply Hl | intros m'; apply keeps_ret].
  - intros st. destruct (_ >=? _); [apply keeps_raise | apply keeps_ret].
Qed.

Lemma connect_keeps rl n s :
  (forall eol timeout, keeps (rl eol timeout)) ->
  leaves (kept s) (connect_ rl (_peripheral_mac s) n s).
Proof.
  intros Hr.
  apply (leaves_impl
           (fun s' => _peripheral_mac s' = _peripheral_mac s
                      /\ closed s' = false
                      /\ exists more, tx s' = (tx s ++ "AT" :: more)%list));
    [|apply connect_leaves; exact Hr].
  intros s' (Hm & Hc & more & Ht).
  split; [exact Hm|]. split; [auto|]. exists ("AT" :: more). exact Ht.
Qed.

Lemma check_connection_keeps fuel :
  forall msg max_tries, keeps (check_connection fuel msg max_tries).
Proof.
  induction fuel as [|fuel IH]; intros msg max_tries.
  - apply keeps_check; [intros n s; exact I | intros s; exact I].
  - change (keeps (check_connection_
                     (connect_ (read_line_ (check_connection fuel)))
                     (read_lines_ (check_connection fuel)) msg max_tries)).
    apply keeps_check.
    + intros n s. apply connect_keeps. intros eol timeout.
      apply keeps_read_line. exact IH.
    + apply keeps_read_lines. exact IH.
Qed.

(** X8.  Whatever the transport delivers and however they end, by
    returning or by raising, [read_line], [read_lines] and
    [check_connection] leave the stored peer address as it was, leave an
    open port open, and only add to what has been written: a
    reconnection started on the way changes none of this. *)
Theorem readers_keep_link fuel s :
  (forall eol timeout, leaves (kept s) (read_line fuel eol timeout s))
  /\ leaves (kept s) (read_lines fuel s)
  /\ (forall msg max_tries,
        leaves (kept s) (check_connection fuel msg max_tries s)).
Proof.
  split; [|split].
  - intros eol timeout. apply keeps_read_line, check_connection_keeps.
  - apply keeps_read_lines, check_connection_keeps.
  - intros msg max_tries. apply check_connection_keeps.
Qed.

(** X9.  However [connect] ends, by returning or by raising, on a line
    with link losses or without, it leaves the address it was given in
    the object and the port open, and the first thing it has written is
    the reset command ["AT"]. *)
Theorem connect_leaves_address fuel mac max_tries s :
  leaves (fun s' => _peripheral_mac s' = mac /\ closed s' = false
                    /\ exists more, tx s' = (tx s ++ "AT" :: more)%list)
    (connect fuel mac max_tries s).
Proof.
  apply connect_leaves. intros eol timeout.
  apply keeps_read_line, check_connection_keeps.
Qed.

(** X10.  When the frame that [read_line] has read carries the link-lost
    notice and the reconnection succeeds within the budget of ten
    attempts, [read_line] returns that very frame, notice included: the
    message is not read again, and the backlog that [read_lines] drained
    during the reconnection is dropped. *)
Theorem read_line_after_reconnection fuel e timeout s msg s1 k msg' s' :
  frame (String e "") timeout (bump s) = Ok msg s1 ->
  reconnections fuel k msg s1 = Some (msg', s') ->
  Z.of_nat k < 10 -> contains "OK+LOST" msg' = false ->
  read_line fuel (String e "") timeout s = Ok msg s'.
Proof.
  intros Hframe Hrun Hk Hclean. unfold read_line, read_line_, bind. simpl.
  change (set_reads (S (reads s)) s) with (bump s). rewrite Hframe.
  rewrite check_connection_callees.
  unfold check_connection_, check_connection_loop, bind.
  rewrite (check_loop_reconnections fuel 10 k _ _ _ _ _ _ Hrun) by lia.
  rewrite (while_exit _ _ _ _ s' s').
  - simpl. destruct (0 + Z.of_nat k >=? 10) eqn:E; [lia | reflexivity].
  - unfold check_cond, ret. rewrite Hclean. reflexivity.
Qed.

Lemma read_line_after_reconnection_witness :
  exists s1 s',
    frame ";" 1 (bump script_relink) = Ok "12OK+LOST" s1
    /\ reconnections 1 1 "12OK+LOST" s1 = Some ("", s')
    /\ read_line 1 ";" 1 script_relink = Ok "12OK+LOST" s'
    /\ tx s' = ["AT"; "AT+CON78DB2F141044"].
Proof.
  eexists. eexists.
  split; [vm_compute; reflexivity|]. split; [vm_compute; reflexivity|].
  split; [|reflexivity].
  eapply (read_line_after_reconnection 1 ";" 1 script_relink "12OK+LOST" _ 1
            "");
    [vm_compute; reflexivity | vm_compute; reflexivity | lia | reflexivity].
Defined.

End BLEFacts.

(** ** The sample buffer *)

Module PedometerFacts.
Import Py PyFacts Pedometer.

(** *** Stepping through a method *)

Lemma bind_ok {A B} (m : M A) (k : A -> M B) σ a σ' :
  m σ = Ok a σ' -> bind m k σ = k a σ'.
Proof. intros H. unfold bind. rewrite H. reflexivity. Qed.

Lemma bind_raise {A B} (m : M A) (k : A -> M B) σ e σ' :
  m σ = Raise e σ' -> bind m k σ = Raise e σ'.
Proof. intros H. unfold bind. rewrite H. reflexivity. Qed.

Lemma lookup_instance_ok self σ o :
  objects σ !! self = Some o -> lookup_instance self σ = Ok o σ.
Proof. intros H. unfold lookup_instance. rewrite H. reflexivity. Qed.

Lemma get_time_buffer_ok self σ o :
  objects σ !! self = Some o ->
  get_time_buffer self σ = Ok (default class_time_buffer (time_buffer o)) σ.
Proof.
  intros H. unfold get_time_buffer.
  rewrite (bind_ok _ _ _ _ _ (lookup_instance_ok _ _ _ H)). reflexivity.
Qed.

Lemma get_data_buffer_ok self σ o :
  objects σ !! self = Some o ->
  get_data_buffer self σ = Ok (default class_data_buffer (data_buffer o)) σ.
Proof.
  intros H. unfold get_data_buffer.
  rewrite (bind_ok _ _ _ _ _ (lookup_instance_ok _ _ _ H)). reflexivity.
Qed.

Lemma deref_ok l σ xs : heap σ !! l = Some xs -> deref l σ = Ok xs σ.
Proof. intros H. unfold deref. rewrite H. reflexivity. Qed.

Lemma list_append_ok l x σ xs :
  heap σ !! l = Some xs ->
  list_append l x σ = Ok tt (set_heap (<[l := (xs ++ [x])%list]> (heap σ)) σ).
Proof.
  intros H. unfold list_append.
  rewrite (bind_ok _ _ _ _ _ (deref_ok _ _ _ H)). reflexivity.
Qed.

Lemma update_instance_ok self f σ o :
  objects σ !! self = Some o ->
  update_instance self f σ
  = Ok tt (set_objects (<[self := f o]> (objects σ)) σ).
Proof.
  intros H. unfold update_instance.
  rewrite (bind_ok _ _ _ _ _ (lookup_instance_ok _ _ _ H)). reflexivity.
Qed.

Lemma item_ok {A} (xs : list A) i x σ :
  xs !! i = Some x -> item xs i σ = Ok x σ.
Proof. intros H. unfold item. rewrite H. reflexivity. Qed.

Lemma to_int_some s z σ : int s = Some z -> to_int s σ = Ok z σ.
Proof. intros H. unfold to_int. rewrite H. reflexivity. Qed.

Lemma to_int_none s σ : int s = None -> to_int s σ = Raise ValueError σ.
Proof. intros H. unfold to_int. rewrite H. reflexivity. Qed.

Lemma to_int_str n σ : to_int (str n) σ = Ok n σ.
Proof. unfold to_int. rewrite int_str. reflexivity. Qed.

Create HintDb pedometer.
#[local] Hint Resolve lookup_instance_ok get_time_buffer_ok get_data_buffer_ok
  deref_ok list_append_ok update_instance_ok item_ok to_int_str : pedometer.

(** The fields of a store that has just been built. *)
Ltac fields :=
  cbn [heap objects files stdout set_heap set_objects set_files set_stdout
       _maxlen _file_flag time_buffer data_buffer steps
       mbind option_bind from_option id] in *.

(** One statement of the method has run. *)
Ltac step :=
  erewrite bind_ok; [| solve [eauto with pedometer]].

(** *** C3, C4, C9: the code against the claims *)

(** C3 fails on the code: a message whose first field is an integer and
    whose second is not leaves its timestamp in the time buffer; only the
    value buffer is unchanged.  The two buffers are out of step from then
    on. *)
Lemma append_half_sample :
  view first one_pedometer = Some ([], [], 0)
  /\ Py.int "12" = Some 12 /\ Py.int "abc" = None
  /\ exists σ',
       append first "12,abc" one_pedometer = Ok tt σ'
       /\ view first σ' = Some ([12], [], 0)
       /\ stdout σ' = ["Received invalid data"; "12,abc"].
Proof.
  split; [reflexivity|]. split; [reflexivity|]. split; [reflexivity|].
  eexists. split; [vm_compute; reflexivity|]. split; reflexivity.
Qed.

(** The same with a message that has no second field at all. *)
Lemma append_missing_field :
  exists σ',
    append first "12" one_pedometer = Ok tt σ'
    /\ view first σ' = Some ([12], [], 0).
Proof. eexists. split; [vm_compute; reflexivity | reflexivity]. Qed.

Lemma append_not_full self σ o ts ds msg_str :
  objects σ !! self = Some o ->
  heap σ !! default class_time_buffer (time_buffer o) = Some ts ->
  heap σ !! default class_data_buffer (data_buffer o) = Some ds ->
  Z.of_nat (List.length ts) <> _maxlen o ->
  Z.of_nat (List.length ds) <> _maxlen o ->
  append self msg_str σ
  = try_except
      (let received := split "," msg_str in
       tb <- get_time_buffer self ;;
       field0 <- item received 0 ;;
       v0 <- to_int field0 ;;
       list_append tb v0 ;;
       db <- get_data_buffer self ;;
       field1 <- item received 1 ;;
       v1 <- to_int field1 ;;
       list_append db v1)
      (print "Received invalid data" ;; print msg_str) σ.
Proof.
  intros Hself Ht Hd Hts Hds. unfold append.
  step. step. step. step.
  erewrite bind_ok by (unfold get_maxlen; step; reflexivity).
  apply Z.eqb_neq in Hts, Hds. rewrite Hts, Hds. reflexivity.
Qed.

(** The part of C3 that holds: a message whose first field is no integer
    changes nothing but the output. *)
Lemma append_first_field_invalid self σ o ts ds msg_str field0 fields :
  objects σ !! self = Some o ->
  heap σ !! default class_time_buffer (time_buffer o) = Some ts ->
  heap σ !! default class_data_buffer (data_buffer o) = Some ds ->
  Z.of_nat (List.length ts) <> _maxlen o ->
  Z.of_nat (List.length ds) <> _maxlen o ->
  split "," msg_str = field0 :: fields -> int field0 = None ->
  append self msg_str σ
  = Ok tt (set_stdout (stdout σ ++ ["Received invalid data"; msg_str])%list σ).
Proof.
  intros Hself Ht Hd Hts Hds Hsplit H0.
  rewrite (append_not_full self σ o ts ds) by assumption.
  unfold try_except. cbv zeta. rewrite Hsplit.
  step. erewrite bind_ok by (apply item_ok; reflexivity).
  erewrite bind_raise by (apply to_int_none; exact H0).
  unfold print, bind. cbn [stdout set_stdout]. rewrite <- app_assoc.
  reflexivity.
Qed.

(** The part of C3 that fails: when the first field is an integer and the
    second is missing or is none, the timestamp has been appended by the
    time the exception is caught. *)
Lemma append_second_field_invalid self σ o ts ds msg_str field0 fields v0 :
  objects σ !! self = Some o ->
  heap σ !! default class_time_buffer (time_buffer o) = Some ts ->
  heap σ !! default class_data_buffer (data_buffer o) = Some ds ->
  Z.of_nat (List.length ts) <> _maxlen o ->
  Z.of_nat (List.length ds) <> _maxlen o ->
  split "," msg_str = field0 :: fields -> int field0 = Some v0 ->
  match fields with
  | [] => True
  | field1 :: _ => int field1 = None
  end ->
  append self msg_str σ
  = Ok tt
      (set_stdout (stdout σ ++ ["Received invalid data"; msg_str])%list
         (set_heap
            (<[default class_time_buffer (time_buffer o) := (ts ++ [v0])%list]>
               (heap σ)) σ)).
Proof.
  intros Hself Ht Hd Hts Hds Hsplit H0 H1.
  rewrite (append_not_full self σ o ts ds) by assumption.
  unfold try_except. cbv zeta. rewrite Hsplit.
  step. erewrite bind_ok by (apply item_ok; reflexivity).
  erewrite bind_ok by (apply to_int_some; exact H0).
  step. step.
  destruct fields as [|field1 fields].
  - erewrite bind_raise by reflexivity.
    unfold print, bind. cbn [stdout set_stdout set_heap]. rewrite <- app_assoc.
    reflexivity.
  - erewrite bind_ok by (apply item_ok; reflexivity).
    erewrite bind_raise by (apply to_int_none; exact H1).
    unfold print, bind. cbn [stdout set_stdout set_heap]. rewrite <- app_assoc.
    reflexivity.
Qed.


(** C4 fails on the code: [reset] empties the two buffers and leaves the
    step count where it was. *)
Lemma reset_keeps_steps :
  view first after_walk = Some ([10; 30; 50], [512; -7; 498], 3)
  /\ exists σ',
       reset first after_walk = Ok tt σ'
       /\ view first σ' = Some ([], [], 3).
Proof.
  split; [reflexivity|].
  eexists. split; [vm_compute; reflexivity | reflexivity].
Qed.

(** C9 fails on the code: the buffers of two pedometers just constructed
    are the two lists of the class, and a sample appended through the
    first shows through the second. *)
Lemma append_shared_between_instances :
  view second two_pedometers = Some ([], [], 0)
  /\ exists σ',
       append first "1,2" two_pedometers = Ok tt σ'
       /\ view first σ' = Some ([1], [2], 0)
       /\ view second σ' = Some ([1], [2], 0).
Proof.
  split; [reflexivity|].
  eexists. split; [vm_compute; reflexivity|]. split; reflexivity.
Qed.

(** In general: [reset] gives an instance two empty buffers of its own
    and keeps its step count. *)
Lemma fresh_list_distinct (h : gmap nat (list Z)) :
  fresh (dom (<[fresh (dom h) := []]> h)) <> fresh (dom h).
Proof.
  intros E.
  pose proof (is_fresh (dom (<[fresh (dom h) := []]> h))) as Hfresh.
  rewrite E in Hfresh. apply Hfresh. rewrite dom_insert_L. set_solver.
Qed.

Lemma reset_spec self σ o :
  objects σ !! self = Some o ->
  exists σ',
    reset self σ = Ok tt σ'
    /\ view self σ' = Some ([], [], default class_steps (steps o)).
Proof.
  intros Hself. unfold reset, new_list.
  pose proof (fresh_list_distinct (heap σ)) as Hne.
  set (l1 := fresh (dom (heap σ))) in *.
  set (l2 := fresh (dom (<[l1 := []]> (heap σ)))) in *.
  eexists. split.
  - step. step. step. fold l2.
    erewrite bind_ok
      by (apply update_instance_ok; fields; apply lookup_insert_eq).
    reflexivity.
  - unfold view. fields. rewrite lookup_insert_eq. fields.
    rewrite (lookup_insert_ne _ l2 l1) by exact Hne.
    rewrite lookup_insert_eq. fields.
    rewrite lookup_insert_eq. reflexivity.
Qed.

(** *** C5: [save_file], then [load_file] *)

Lemma save_rows_spec self filename o ts ds :
  forall pre_t pre_d σ old,
    objects σ !! self = Some o ->
    heap σ !! default class_time_buffer (time_buffer o)
    = Some (pre_t ++ ts)%list ->
    heap σ !! default class_data_buffer (data_buffer o)
    = Some (pre_d ++ ds)%list ->
    List.length pre_t = List.length pre_d ->
    List.length ts = List.length ds ->
    files σ !! filename = Some old ->
    exists fs,
      save_rows self filename (seq (List.length pre_t) (List.length ts)) σ
      = Ok tt (set_files fs σ)
      /\ fs !! filename = Some (old ++ text ts ds).
Proof.
  revert ds. induction ts as [|t ts IH]; intros [|d ds] pre_t pre_d σ old
    Hself Ht Hd Hpre Hlen Hfile; try discriminate Hlen.
  - exists (files σ). split.
    + destruct σ; reflexivity.
    + rewrite Hfile. simpl. rewrite append_empty_r. reflexivity.
  - simpl seq. simpl save_rows.
    step. step.
    erewrite bind_ok by (apply item_ok; apply list_lookup_middle; reflexivity).
    step. step.
    erewrite bind_ok by (apply item_ok; apply list_lookup_middle; exact Hpre).
    unfold file_write at 1. unfold bind at 1.
    rewrite Hfile. cbn [from_option id].
    destruct (IH ds (pre_t ++ [t])%list (pre_d ++ [d])%list
                (set_files (<[filename := old ++ row t d]> (files σ)) σ)
                (old ++ row t d)) as (fs & Hrun & Hfs).
    + assumption.
    + fields. rewrite <- app_assoc. exact Ht.
    + fields. rewrite <- app_assoc. exact Hd.
    + rewrite !length_app. simpl. lia.
    + simpl in Hlen. lia.
    + fields. apply lookup_insert_eq.
    + rewrite length_app in Hrun. simpl List.length in Hrun.
      replace (List.length pre_t + 1)%nat with (S (List.length pre_t)) in Hrun
        by lia.
      exists fs. split.
      * rewrite Hrun. reflexivity.
      * rewrite Hfs. simpl text. rewrite append_assoc. reflexivity.
Qed.

Lemma save_file_spec self filename σ ts ds n :
  view self σ = Some (ts, ds, n) ->
  List.length ts = List.length ds ->
  exists fs,
    save_file self filename σ = Ok tt (set_files fs σ)
    /\ fs !! filename = Some (text ts ds).
Proof.
  intros Hview Hlen. unfold view in Hview.
  destruct (objects σ !! self) as [o|] eqn:Hself; [|discriminate Hview].
  simpl in Hview.
  destruct (heap σ !! default class_time_buffer (time_buffer o)) as [ts'|]
    eqn:Ht; [|discriminate Hview].
  simpl in Hview.
  destruct (heap σ !! default class_data_buffer (data_buffer o)) as [ds'|]
    eqn:Hd; [|discriminate Hview].
  simpl in Hview. injection Hview as -> -> <-.
  unfold save_file, open_w. unfold bind at 1.
  set (σ1 := set_files (<[filename := ""]> (files σ)) σ).
  destruct (save_rows_spec self filename o ts ds [] [] σ1 "")
    as (fs & Hrun & Hfs); try reflexivity; try assumption.
  { subst σ1. simpl. apply lookup_insert_eq. }
  exists fs. split; [|exact Hfs].
  erewrite bind_ok by (apply get_time_buffer_ok; exact Hself).
  erewrite bind_ok by (apply deref_ok; exact Ht).
  simpl in Hrun. rewrite Hrun. subst σ1. reflexivity.
Qed.

Lemma set_heap_twice h h' σ : set_heap h (set_heap h' σ) = set_heap h σ.
Proof. reflexivity. Qed.

Lemma load_rows_text self o l1 l2 :
  time_buffer o = Some l1 -> data_buffer o = Some l2 -> l1 <> l2 ->
  forall ts ds acc_t acc_d count σ,
    objects σ !! self = Some o ->
    heap σ !! l1 = Some acc_t -> heap σ !! l2 = Some acc_d ->
    List.length ts = List.length ds ->
    exists h,
      load_rows self (readlines (text ts ds)) count σ
      = Ok (count + Z.of_nat (List.length ts)) (set_heap h σ)
      /\ h !! l1 = Some (acc_t ++ ts)%list
      /\ h !! l2 = Some (acc_d ++ ds)%list.
Proof.
  intros Hl1 Hl2 Hne.
  induction ts as [|t ts IH]; intros [|d ds] acc_t acc_d count σ
    Hself Ht Hd Hlen; try discriminate Hlen.
  - exists (heap σ). rewrite !app_nil_r. split; [|split; assumption].
    simpl. rewrite Z.add_0_r. destruct σ; reflexivity.
  - cbn [text]. rewrite readlines_row. cbn [load_rows].
    rewrite split_rstrip_row. cbv zeta.
    step. rewrite Hl1. cbn [from_option id].
    erewrite bind_ok by (apply item_ok; reflexivity).
    step. step. step. fields. rewrite Hl2. cbn [from_option id].
    erewrite bind_ok by (apply item_ok; reflexivity).
    step.
    erewrite bind_ok
      by (apply list_append_ok; fields; rewrite lookup_insert_ne by exact Hne;
          exact Hd).
    fields.
    destruct (IH ds (acc_t ++ [t])%list (acc_d ++ [d])%list (count + 1)
                (set_heap (<[l2 := (acc_d ++ [d])%list]>
                             (<[l1 := (acc_t ++ [t])%list]> (heap σ))) σ))
      as (h & Hrun & Hht & Hhd).
    + exact Hself.
    + fields. rewrite lookup_insert_ne by (intros E; apply Hne; symmetry; exact E).
      apply lookup_insert_eq.
    + fields. apply lookup_insert_eq.
    + simpl in Hlen. lia.
    + exists h. rewrite <- !app_assoc in Hht, Hhd.
      split; [|split; assumption].
      rewrite set_heap_twice in *.
      rewrite Hrun. f_equal. simpl List.length. lia.
Qed.



(** *** C6: what [load_file] refuses *)

Lemma load_rows_accepted self o l1 l2 :
  time_buffer o = Some l1 -> data_buffer o = Some l2 -> l1 <> l2 ->
  forall lines acc_t acc_d count σ,
    objects σ !! self = Some o ->
    heap σ !! l1 = Some acc_t -> heap σ !! l2 = Some acc_d ->
    if forallb accepted lines then
      exists h n, load_rows self lines count σ = Ok n (set_heap h σ)
    else
      exists e σ', load_rows self lines count σ = Raise e σ'.
Proof.
  intros Hl1 Hl2 Hne.
  induction lines as [|line rest IH]; intros acc_t acc_d count σ Hself Ht Hd.
  - simpl. exists (heap σ), count. destruct σ; reflexivity.
  - cbn [forallb load_rows]. cbv zeta.
    step. rewrite Hl1. cbn [from_option id].
    destruct (split "," (rstrip line)) as [|field0 fields] eqn:Hsplit.
    { exfalso. exact (split_nonempty _ _ Hsplit). }
    erewrite bind_ok by (apply item_ok; reflexivity).
    destruct (int field0) as [v0|] eqn:H0.
    2: { assert (accepted line = false) as ->
           by (unfold accepted; rewrite Hsplit, H0; destruct fields; reflexivity).
         erewrite bind_raise by (apply to_int_none; exact H0).
         eexists _, _; reflexivity. }
    erewrite bind_ok by (apply to_int_some; exact H0).
    step. step. fields. rewrite Hl2. cbn [from_option id].
    destruct fields as [|field1 fields].
    { assert (accepted line = false) as ->
        by (unfold accepted; rewrite Hsplit; reflexivity).
      erewrite bind_raise by reflexivity. eexists _, _. reflexivity. }
    erewrite bind_ok by (apply item_ok; reflexivity).
    destruct (int field1) as [v1|] eqn:H1.
    2: { assert (accepted line = false) as ->
           by (unfold accepted; rewrite Hsplit, H0, H1; reflexivity).
         erewrite bind_raise by (apply to_int_none; exact H1).
         eexists _, _. reflexivity. }
    assert (accepted line = true) as ->
      by (unfold accepted; rewrite Hsplit, H0, H1; reflexivity).
    erewrite bind_ok by (apply to_int_some; exact H1).
    erewrite bind_ok
      by (apply list_append_ok; fields; rewrite lookup_insert_ne by exact Hne;
          exact Hd).
    fields. cbn [andb]. rewrite set_heap_twice.
    specialize (IH (acc_t ++ [v0])%list (acc_d ++ [v1])%list (count + 1)
                  (set_heap (<[l2 := (acc_d ++ [v1])%list]>
                               (<[l1 := (acc_t ++ [v0])%list]> (heap σ))) σ)).
    destruct (forallb accepted rest); cbv beta iota in *.
    + destruct IH as (h & n & Hrun).
      * exact Hself.
      * fields. rewrite lookup_insert_ne by (intros E; apply Hne; symmetry; exact E).
        apply lookup_insert_eq.
      * fields. apply lookup_insert_eq.
      * exists h, n. rewrite Hrun. reflexivity.
    + apply IH.
      * exact Hself.
      * fields. rewrite lookup_insert_ne by (intros E; apply Hne; symmetry; exact E).
        apply lookup_insert_eq.
      * fields. apply lookup_insert_eq.
Qed.




(** *** [append] on any message *)

Lemma get_maxlen_ok self σ o :
  objects σ !! self = Some o -> get_maxlen self σ = Ok (_maxlen o) σ.
Proof.
  intros H. unfold get_maxlen.
  rewrite (bind_ok _ _ _ _ _ (lookup_instance_ok _ _ _ H)). reflexivity.
Qed.

Lemma view_parts self σ ts ds n :
  view self σ = Some (ts, ds, n) ->
  exists o,
    objects σ !! self = Some o
    /\ heap σ !! default class_time_buffer (time_buffer o) = Some ts
    /\ heap σ !! default class_data_buffer (data_buffer o) = Some ds
    /\ n = default class_steps (steps o).
Proof.
  unfold view. intros Hview.
  destruct (objects σ !! self) as [o|]; fields; [|discriminate Hview].
  exists o. split; [reflexivity|].
  destruct (heap σ !! default class_time_buffer (time_buffer o)); fields;
    [|discriminate Hview].
  destruct (heap σ !! default class_data_buffer (data_buffer o)); fields;
    [|discriminate Hview].
  injection Hview as -> -> <-. repeat split.
Qed.

Lemma view_of_parts self σ o ts ds :
  objects σ !! self = Some o ->
  heap σ !! default class_time_buffer (time_buffer o) = Some ts ->
  heap σ !! default class_data_buffer (data_buffer o) = Some ds ->
  view self σ = Some (ts, ds, default class_steps (steps o)).
Proof.
  intros Hself Ht Hd. unfold view. rewrite Hself. fields.
  rewrite Ht. fields. rewrite Hd. reflexivity.
Qed.

(** Whatever the message, [append] returns, and has changed no more than
    the output and the two lists it appends to. *)
Lemma append_outcome self σ o ts ds msg_str :
  objects σ !! self = Some o ->
  heap σ !! default class_time_buffer (time_buffer o) = Some ts ->
  heap σ !! default class_data_buffer (data_buffer o) = Some ds ->
  exists h out,
    append self msg_str σ = Ok tt (set_stdout out (set_heap h σ))
    /\ forall l,
         l <> default class_time_buffer (time_buffer o) ->
         l <> default class_data_buffer (data_buffer o) ->
         h !! l = heap σ !! l.
Proof.
  intros Hself Ht Hd.
  set (tl := default class_time_buffer (time_buffer o)) in *.
  set (dl := default class_data_buffer (data_buffer o)) in *.
  destruct ((Z.of_nat (List.length ts) =? _maxlen o)
            || (Z.of_nat (List.length ds) =? _maxlen o)) eqn:Hfull.
  { exists (heap σ), (stdout σ ++ ["The buffer is full"])%list.
    split; [|reflexivity]. unfold append.
    step. fold tl. step. step. fold dl. step.
    erewrite bind_ok by (apply get_maxlen_ok; exact Hself).
    rewrite Hfull. reflexivity. }
  apply orb_false_iff in Hfull as [Hts Hds]. apply Z.eqb_neq in Hts, Hds.
  rewrite (append_not_full self σ o ts ds) by assumption.
  unfold try_except. cbv zeta.
  destruct (split "," msg_str) as [|field0 fields] eqn:Hsplit.
  { exfalso. exact (split_nonempty _ _ Hsplit). }
  step. fold tl. erewrite bind_ok by (apply item_ok; reflexivity).
  destruct (int field0) as [v0|] eqn:H0.
  2: { erewrite bind_raise by (apply to_int_none; exact H0).
       exists (heap σ), (stdout σ ++ ["Received invalid data"; msg_str])%list.
       split; [|reflexivity].
       unfold print, bind. cbn [stdout set_stdout]. rewrite <- app_assoc.
       reflexivity. }
  erewrite bind_ok by (apply to_int_some; exact H0).
  step. step. fields. fold dl.
  set (h1 := <[tl := (ts ++ [v0])%list]> (heap σ)).
  assert (forall l, l <> tl -> l <> dl -> h1 !! l = heap σ !! l) as Hh1.
  { intros l Hl _. subst h1. apply lookup_insert_ne. auto. }
  assert (exists xs, h1 !! dl = Some xs) as (xs & Hxs).
  { subst h1. destruct (decide (tl = dl)) as [E | E].
    - rewrite <- E, lookup_insert_eq. eauto.
    - rewrite lookup_insert_ne by exact E. eauto. }
  destruct fields as [|field1 fields].
  { erewrite bind_raise by reflexivity.
    exists h1, (stdout σ ++ ["Received invalid data"; msg_str])%list.
    split; [|exact Hh1].
    unfold print, bind. cbn [stdout set_stdout set_heap]. rewrite <- app_assoc.
    reflexivity. }
  erewrite bind_ok by (apply item_ok; reflexivity).
  destruct (int field1) as [v1|] eqn:H1.
  2: { erewrite bind_raise by (apply to_int_none; exact H1).
       exists h1, (stdout σ ++ ["Received invalid data"; msg_str])%list.
       split; [|exact Hh1].
       unfold print, bind. cbn [stdout set_stdout set_heap].
       rewrite <- app_assoc. reflexivity. }
  erewrite bind_ok by (apply to_int_some; exact H1).
  rewrite (list_append_ok dl v1 (set_heap h1 σ) xs) by exact Hxs.
  exists (<[dl := (xs ++ [v1])%list]> h1), (stdout σ).
  split; [reflexivity|].
  intros l Hl1 Hl2. rewrite lookup_insert_ne by auto. apply Hh1; assumption.
Qed.



Lemma append_when_full self σ o ts ds msg_str :
  objects σ !! self = Some o ->
  heap σ !! default class_time_buffer (time_buffer o) = Some ts ->
  heap σ !! default class_data_buffer (data_buffer o) = Some ds ->
  Z.of_nat (List.length ts) = _maxlen o
  \/ Z.of_nat (List.length ds) = _maxlen o ->
  append self msg_str σ
  = Ok tt (set_stdout (stdout σ ++ ["The buffer is full"])%list σ).
Proof.
  intros Hself Ht Hd Hfull. unfold append.
  step. step. step. step.
  erewrite bind_ok by (apply get_maxlen_ok; exact Hself).
  assert ((Z.of_nat (List.length ts) =? _maxlen o)
          || (Z.of_nat (List.length ds) =? _maxlen o) = true) as ->.
  { apply orb_true_iff.
    destruct Hfull as [H | H]; [left | right]; apply Z.eqb_eq; exact H. }
  reflexivity.
Qed.

(** X12.  When the time buffer or the data buffer holds exactly [_maxlen]
    entries, [append] adds nothing, whatever the message: it prints the
    notice that the buffer is full and returns. *)
Theorem append_full_buffer self σ o ts ds n msg_str :
  view self σ = Some (ts, ds, n) -> objects σ !! self = Some o ->
  Z.of_nat (List.length ts) = _maxlen o
  \/ Z.of_nat (List.length ds) = _maxlen o ->
  append self msg_str σ
  = Ok tt (set_stdout (stdout σ ++ ["The buffer is full"])%list σ).
Proof.
  intros Hview Hself Hfull.
  destruct (view_parts _ _ _ _ _ Hview) as (o' & Hself' & Ht & Hd & _).
  rewrite Hself in Hself'. injection Hself' as <-.
  apply (append_when_full self σ o ts ds); assumption.
Qed.

Lemma append_full_buffer_witness :
  view first small_pedometer = Some ([1; 2], [5; 6], 0)
  /\ objects small_pedometer !! first
     = Some (mkInstance 2 true None None None)
  /\ append first "3,7" small_pedometer
     = Ok tt
         (set_stdout (stdout small_pedometer ++ ["The buffer is full"])%list
            small_pedometer).
Proof.
  split; [reflexivity|]. split; [reflexivity|].
  apply (append_full_buffer first small_pedometer
           (mkInstance 2 true None None None) [1; 2] [5; 6] 0 "3,7");
    try reflexivity.
  left. reflexivity.
Defined.

(** X13.  Whatever the message, [append] returns normally: what goes
    wrong while the message is taken apart is caught.  It changes no
    instance and no file, and no list other than the two it appends
    to. *)
Theorem append_never_raises self σ ts ds n msg_str :
  view self σ = Some (ts, ds, n) ->
  exists o σ',
    objects σ !! self = Some o
    /\ append self msg_str σ = Ok tt σ'
    /\ objects σ' = objects σ /\ files σ' = files σ
    /\ forall l,
         l <> default class_time_buffer (time_buffer o) ->
         l <> default class_data_buffer (data_buffer o) ->
         heap σ' !! l = heap σ !! l.
Proof.
  intros Hview.
  destruct (view_parts _ _ _ _ _ Hview) as (o & Hself & Ht & Hd & _).
  destruct (append_outcome self σ o ts ds msg_str Hself Ht Hd)
    as (h & out & Hrun & Hframe).
  exists o, (set_stdout out (set_heap h σ)).
  split; [exact Hself|]. split; [exact Hrun|].
  split; [reflexivity|]. split; [reflexivity|]. exact Hframe.
Qed.

Lemma append_never_raises_witness :
  view first after_walk = Some ([10; 30; 50], [512; -7; 498], 3)
  /\ exists σ',
       append first "no sample at all" after_walk = Ok tt σ'
       /\ objects σ' = objects after_walk /\ files σ' = files after_walk.
Proof.
  split; [reflexivity|].
  destruct (append_never_raises first after_walk [10; 30; 50] [512; -7; 498]
              3 "no sample at all" eq_refl)
    as (o & σ' & _ & Hrun & Hobjects & Hfiles & _).
  exists σ'. split; [exact Hrun|]. split; assumption.
Defined.

(** *** Buffers of one's own *)

(** The first four statements of [reset] and of [load_file]: two new
    lists, bound to the instance. *)
Lemma rebind_buffers self σ o :
  objects σ !! self = Some o ->
  exists l1 l2,
    (l1 ∉ dom (heap σ)) /\ (l2 ∉ dom (heap σ)) /\ l1 <> l2
    /\ forall B (k : M B),
         (tb <- new_list ;;
          update_instance self
            (fun o => mkInstance (_maxlen o) (_file_flag o) (Some tb)
                        (data_buffer o) (steps o)) ;;
          db <- new_list ;;
          update_instance self
            (fun o => mkInstance (_maxlen o) (_file_flag o) (time_buffer o)
                        (Some db) (steps o)) ;;
          k) σ
         = k (set_objects
                (<[self := mkInstance (_maxlen o) (_file_flag o) (Some l1)
                             (Some l2) (steps o)]> (objects σ))
                (set_heap (<[l2 := []]> (<[l1 := []]> (heap σ))) σ)).
Proof.
  intros Hself.
  pose proof (fresh_list_distinct (heap σ)) as Hne.
  pose proof (is_fresh (dom (heap σ))) as Hl1.
  pose proof (is_fresh (dom (<[fresh (dom (heap σ)) := []]> (heap σ)))) as Hl2.
  set (l1 := fresh (dom (heap σ))) in *.
  set (l2 := fresh (dom (<[l1 := []]> (heap σ)))) in *.
  exists l1, l2. split; [exact Hl1|].
  split; [rewrite dom_insert_L in Hl2; set_solver|].
  split; [intros E; apply Hne; symmetry; exact E|].
  intros B k. unfold new_list.
  step. step. step. fold l1 l2.
  erewrite bind_ok
    by (apply update_instance_ok; fields; apply lookup_insert_eq).
  fields. rewrite insert_insert_eq. reflexivity.
Qed.

Lemma lookup_other_list (h : gmap nat (list Z)) l l1 l2 xs :
  h !! l = Some xs -> l1 ∉ dom h -> l2 ∉ dom h ->
  l <> l1 /\ l <> l2.
Proof.
  intros Hl H1 H2. apply elem_of_dom_2 in Hl.
  split; intros ->; contradiction.
Qed.

(** X14.  [reset] ends the sharing of buffers: the instance gets two
    new empty lists, and from then on what is appended through it does
    not show in any other pedometer, nor what is appended through
    another pedometer in it. *)
Theorem reset_ends_sharing self other σ o v :
  objects σ !! self = Some o -> other <> self -> view other σ = Some v ->
  exists σ1,
    reset self σ = Ok tt σ1
    /\ view self σ1 = Some ([], [], default class_steps (steps o))
    /\ view other σ1 = Some v
    /\ (forall msg_str, view other (final (append self msg_str σ1)) = Some v)
    /\ (forall msg_str,
          view self (final (append other msg_str σ1))
          = Some ([], [], default class_steps (steps o))).
Proof.
  intros Hself Hother Hview. destruct v as [[ots ods] on].
  destruct (view_parts _ _ _ _ _ Hview) as (oo & Hoo & Hot & Hod & ->).
  destruct (rebind_buffers self σ o Hself)
    as (l1 & l2 & Hl1 & Hl2 & Hne & Hrun).
  set (o2 := mkInstance (_maxlen o) (_file_flag o) (Some l1) (Some l2)
               (steps o)) in *.
  set (σ1 := set_objects (<[self := o2]> (objects σ))
               (set_heap (<[l2 := []]> (<[l1 := []]> (heap σ))) σ)) in *.
  destruct (lookup_other_list _ _ l1 l2 _ Hot Hl1 Hl2) as [Hot1 Hot2].
  destruct (lookup_other_list _ _ l1 l2 _ Hod Hl1 Hl2) as [Hod1 Hod2].
  assert (objects σ1 !! self = Some o2) as Hself1
    by (subst σ1; fields; apply lookup_insert_eq).
  assert (objects σ1 !! other = Some oo) as Hoo1
    by (subst σ1; fields; rewrite lookup_insert_ne by auto; exact Hoo).
  assert (heap σ1 !! l1 = Some []) as Hh1
    by (subst σ1; fields; rewrite lookup_insert_ne by auto;
        apply lookup_insert_eq).
  assert (heap σ1 !! l2 = Some []) as Hh2
    by (subst σ1; fields; apply lookup_insert_eq).
  assert (forall l xs, heap σ !! l = Some xs -> l <> l1 -> l <> l2 ->
                       heap σ1 !! l = Some xs) as Hold.
  { intros l xs Hl Hn1 Hn2. subst σ1. fields.
    rewrite !lookup_insert_ne by auto. exact Hl. }
  exists σ1. split; [apply (Hrun unit (ret tt))|].
  split; [apply (view_of_parts self σ1 o2); assumption|].
  split; [apply (view_of_parts other σ1 oo); [assumption | |]; apply Hold;
          assumption|].
  split.
  - intros msg_str.
    destruct (append_outcome self σ1 o2 [] [] msg_str Hself1 Hh1 Hh2)
      as (h & out & -> & Hframe).
    cbn [final]. apply (view_of_parts other _ oo); fields.
    + exact Hoo1.
    + rewrite Hframe by assumption. apply Hold; assumption.
    + rewrite Hframe by assumption. apply Hold; assumption.
  - intros msg_str.
    destruct (append_outcome other σ1 oo ots ods msg_str Hoo1)
      as (h & out & -> & Hframe); [apply Hold; assumption ..|].
    cbn [final]. apply (view_of_parts self _ o2); fields.
    + exact Hself1.
    + rewrite Hframe by auto. exact Hh1.
    + rewrite Hframe by auto. exact Hh2.
Qed.

Lemma reset_ends_sharing_witness :
  exists σ1,
    reset first two_pedometers = Ok tt σ1
    /\ view second (final (append first "1,2" σ1)) = Some ([], [], 0)
    /\ view first (final (append second "3,4" σ1)) = Some ([], [], 0).
Proof.
  destruct (reset_ends_sharing first second two_pedometers
              (mkInstance 500 true None None None) ([], [], 0))
    as (σ1 & Hrun & _ & _ & Hfirst & Hsecond);
    [reflexivity | discriminate | reflexivity |].
  exists σ1. split; [exact Hrun|]. split; [apply Hfirst | apply Hsecond].
Defined.

(** *** [save_file] on any two buffers *)

Lemma set_files_same σ : set_files (files σ) σ = σ.
Proof. destruct σ; reflexivity. Qed.

Lemma text_short ts : text ts [] = "".
Proof. destruct ts; reflexivity. Qed.

(** The loop of [save_file] from the index [k] on: it writes the rows for
    which both buffers have an entry, and stops with an [IndexError] at
    the first timestamp without a value. *)
Lemma save_rows_from self filename o ts ds :
  forall m k σ old,
    objects σ !! self = Some o ->
    heap σ !! default class_time_buffer (time_buffer o) = Some ts ->
    heap σ !! default class_data_buffer (data_buffer o) = Some ds ->
    files σ !! filename = Some old ->
    (k + m = List.length ts)%nat -> (k <= List.length ds)%nat ->
    save_rows self filename (seq k m) σ
    = (if (List.length ts <=? List.length ds)%nat then Ok tt
       else Raise IndexError)
        (set_files
           (<[filename := old ++ text (drop k ts) (drop k ds)]> (files σ)) σ).
Proof.
  induction m as [|m IH]; intros k σ old Hself Ht Hd Hfile Hkm Hk.
  - cbn [seq save_rows]. rewrite drop_ge by lia. cbn [text].
    rewrite append_empty_r, insert_id by exact Hfile.
    rewrite set_files_same.
    destruct (List.length ts <=? List.length ds)%nat eqn:E; [reflexivity|].
    apply Nat.leb_gt in E. lia.
  - cbn [seq save_rows].
    destruct (lookup_lt_is_Some_2 ts k) as [t Htk]; [lia|].
    step. step. erewrite bind_ok by (apply item_ok; exact Htk).
    step. step.
    destruct (ds !! k) as [d|] eqn:Hdk.
    + erewrite bind_ok by (apply item_ok; exact Hdk).
      unfold file_write at 1. unfold bind at 1.
      rewrite Hfile. cbn [from_option id].
      rewrite (IH (S k) _ (old ++ row t d));
        [| assumption | assumption | assumption
         | fields; apply lookup_insert_eq | lia
         | apply lookup_lt_Some in Hdk; lia].
      fields. rewrite insert_insert_eq.
      rewrite (drop_S ts t k Htk), (drop_S ds d k Hdk). cbn [text].
      rewrite append_assoc. reflexivity.
    + erewrite bind_raise by (unfold item; rewrite Hdk; reflexivity).
      apply lookup_ge_None in Hdk.
      rewrite (drop_ge ds) by lia. rewrite text_short.
      rewrite append_empty_r, insert_id by exact Hfile.
      rewrite set_files_same.
      destruct (List.length ts <=? List.length ds)%nat eqn:E; [|reflexivity].
      apply Nat.leb_le in E. lia.
Qed.

Lemma save_file_outcome self filename σ o ts ds :
  objects σ !! self = Some o ->
  heap σ !! default class_time_buffer (time_buffer o) = Some ts ->
  heap σ !! default class_data_buffer (data_buffer o) = Some ds ->
  save_file self filename σ
  = (if (List.length ts <=? List.length ds)%nat then Ok tt
     else Raise IndexError)
      (set_files (<[filename := text ts ds]> (files σ)) σ).
Proof.
  intros Hself Ht Hd. unfold save_file, open_w. unfold bind at 1.
  step. step.
  rewrite (save_rows_from self filename o ts ds (List.length ts) 0 _ "");
    [| assumption | assumption | assumption
     | fields; apply lookup_insert_eq | lia | lia].
  fields. rewrite insert_insert_eq, !drop_0, append_nil. reflexivity.
Qed.

(** X15.  [save_file] replaces the file by one row for each timestamp, in
    order, whatever the file held before, and changes nothing else: no
    buffer, no other file.  Values beyond the last timestamp are not
    written. *)
Theorem save_file_writes self filename σ ts ds n :
  view self σ = Some (ts, ds, n) ->
  (List.length ts <= List.length ds)%nat ->
  save_file self filename σ
  = Ok tt (set_files (<[filename := text ts ds]> (files σ)) σ).
Proof.
  intros Hview Hlen.
  destruct (view_parts _ _ _ _ _ Hview) as (o & Hself & Ht & Hd & _).
  rewrite (save_file_outcome self filename σ o ts ds) by assumption.
  destruct (List.length ts <=? List.length ds)%nat eqn:E; [reflexivity|].
  apply Nat.leb_gt in E. lia.
Qed.

Lemma save_file_writes_witness :
  view first with_old_log = Some ([10; 30; 50], [512; -7; 498], 3)
  /\ files with_old_log !! "log.txt" = Some "old"
  /\ text [10; 30; 50] [512; -7; 498]
     = "10,512" ++ LF ++ "30,-7" ++ LF ++ "50,498" ++ LF
  /\ save_file first "log.txt" with_old_log
     = Ok tt
         (set_files
            (<[ "log.txt" := text [10; 30; 50] [512; -7; 498] ]>
               (files with_old_log))
            with_old_log).
Proof.
  split; [reflexivity|]. split; [reflexivity|]. split; [reflexivity|].
  apply (save_file_writes first "log.txt" with_old_log
           [10; 30; 50] [512; -7; 498] 3); [reflexivity | simpl; lia].
Defined.

(** X16.  When the data buffer is shorter than the time buffer, as it is
    after a message whose second field was refused, [save_file] raises an
    [IndexError]; the file then holds the rows of the samples that are
    complete, and whatever it held before is gone. *)
Theorem save_file_half_sample self filename σ ts ds n :
  view self σ = Some (ts, ds, n) ->
  (List.length ds < List.length ts)%nat ->
  save_file self filename σ
  = Raise IndexError (set_files (<[filename := text ts ds]> (files σ)) σ).
Proof.
  intros Hview Hlen.
  destruct (view_parts _ _ _ _ _ Hview) as (o & Hself & Ht & Hd & _).
  rewrite (save_file_outcome self filename σ o ts ds) by assumption.
  destruct (List.length ts <=? List.length ds)%nat eqn:E; [|reflexivity].
  apply Nat.leb_le in E. lia.
Qed.

Lemma save_file_half_sample_witness :
  view first half_sample = Some ([12], [], 0)
  /\ text [12] [] = ""
  /\ save_file first "log.txt" half_sample
     = Raise IndexError
         (set_files (<[ "log.txt" := text [12] [] ]> (files half_sample))
            half_sample).
Proof.
  split; [reflexivity|]. split; [reflexivity|].
  apply (save_file_half_sample first "log.txt" half_sample [12] [] 0);
    [reflexivity | simpl; lia].
Defined.

(** *** [load_file] on any file *)

Lemma set_heap_same σ : set_heap (heap σ) σ = σ.
Proof. destruct σ; reflexivity. Qed.

(** One turn of the loop of [load_file] on a line it takes. *)
Lemma load_row_taken self o l1 l2 line t d rest count σ acc_t acc_d :
  time_buffer o = Some l1 -> data_buffer o = Some l2 -> l1 <> l2 ->
  objects σ !! self = Some o ->
  heap σ !! l1 = Some acc_t -> heap σ !! l2 = Some acc_d ->
  parse_line line = Some (t, d) ->
  load_rows self (line :: rest) count σ
  = load_rows self rest (count + 1)
      (set_heap (<[l2 := (acc_d ++ [d])%list]>
                   (<[l1 := (acc_t ++ [t])%list]> (heap σ))) σ).
Proof.
  intros Hl1 Hl2 Hne Hself Ht Hd Hline. unfold parse_line in Hline.
  cbn [load_rows]. cbv zeta.
  destruct (split "," (rstrip line)) as [|field0 [|field1 fields]];
    try discriminate Hline.
  destruct (int field0) as [v0|] eqn:H0; [|discriminate Hline].
  destruct (int field1) as [v1|] eqn:H1; [|discriminate Hline].
  injection Hline as -> ->.
  step. rewrite Hl1. cbn [from_option id].
  erewrite bind_ok by (apply item_ok; reflexivity).
  erewrite bind_ok by (apply to_int_some; exact H0).
  step. step. fields. rewrite Hl2. cbn [from_option id].
  erewrite bind_ok by (apply item_ok; reflexivity).
  erewrite bind_ok by (apply to_int_some; exact H1).
  erewrite bind_ok
    by (apply list_append_ok; fields; rewrite lookup_insert_ne by exact Hne;
        exact Hd).
  reflexivity.
Qed.

(** One turn of the loop of [load_file] on a line it refuses. *)
Lemma load_row_refused self o l1 l2 line rest count σ acc_t acc_d :
  time_buffer o = Some l1 -> data_buffer o = Some l2 -> l1 <> l2 ->
  objects σ !! self = Some o ->
  heap σ !! l1 = Some acc_t -> heap σ !! l2 = Some acc_d ->
  parse_line line = None ->
  exists e,
    (e = ValueError \/ e = IndexError)
    /\ load_rows self (line :: rest) count σ
       = Raise e
           (set_heap (<[l1 := (acc_t ++ half_line line)%list]> (heap σ)) σ).
Proof.
  intros Hl1 Hl2 Hne Hself Ht Hd Hline. unfold parse_line in Hline.
  unfold half_line. cbn [load_rows]. cbv zeta.
  destruct (split "," (rstrip line)) as [|field0 fields] eqn:Hsplit.
  { exfalso. exact (split_nonempty _ _ Hsplit). }
  step. rewrite Hl1. cbn [from_option id].
  erewrite bind_ok by (apply item_ok; reflexivity).
  destruct (int field0) as [v0|] eqn:H0.
  2: { exists ValueError. split; [left; reflexivity|].
       erewrite bind_raise by (apply to_int_none; exact H0).
       rewrite app_nil_r, insert_id by exact Ht.
       rewrite set_heap_same. reflexivity. }
  erewrite bind_ok by (apply to_int_some; exact H0).
  step. step. fields. rewrite Hl2. cbn [from_option id].
  destruct fields as [|field1 fields].
  { exists IndexError. split; [right; reflexivity|].
    erewrite bind_raise by reflexivity. reflexivity. }
  erewrite bind_ok by (apply item_ok; reflexivity).
  destruct (int field1) as [v1|] eqn:H1; [discriminate Hline|].
  exists ValueError. split; [left; reflexivity|].
  erewrite bind_raise by (apply to_int_none; exact H1). reflexivity.
Qed.

(** The loop of [load_file] over lines that it takes. *)
Lemma load_rows_taken self o l1 l2 more :
  time_buffer o = Some l1 -> data_buffer o = Some l2 -> l1 <> l2 ->
  forall lines samples,
    Forall2 (fun line sample => parse_line line = Some sample) lines samples ->
    forall acc_t acc_d count σ,
      objects σ !! self = Some o ->
      heap σ !! l1 = Some acc_t -> heap σ !! l2 = Some acc_d ->
      exists h,
        load_rows self (lines ++ more)%list count σ
        = load_rows self more (count + Z.of_nat (List.length lines))
            (set_heap h σ)
        /\ h !! l1 = Some (acc_t ++ samples.*1)%list
        /\ h !! l2 = Some (acc_d ++ samples.*2)%list
        /\ forall l, l <> l1 -> l <> l2 -> h !! l = heap σ !! l.
Proof.
  intros Hl1 Hl2 Hne lines samples Hlines.
  induction Hlines as [|line [t d] lines samples Hline _ IH];
    intros acc_t acc_d count σ Hself Ht Hd.
  - exists (heap σ). cbn [app List.length fmap list_fmap].
    rewrite !app_nil_r, Z.add_0_r, set_heap_same. auto.
  - cbn [app].
    rewrite (load_row_taken self o l1 l2 line t d _ count σ acc_t acc_d)
      by assumption.
    destruct (IH (acc_t ++ [t])%list (acc_d ++ [d])%list (count + 1)
                (set_heap (<[l2 := (acc_d ++ [d])%list]>
                             (<[l1 := (acc_t ++ [t])%list]> (heap σ))) σ))
      as (h & Hrun & Hht & Hhd & Hframe).
    + exact Hself.
    + fields. rewrite lookup_insert_ne by (intros E; apply Hne; symmetry; exact E).
      apply lookup_insert_eq.
    + fields. apply lookup_insert_eq.
    + exists h. rewrite set_heap_twice in Hrun.
      split; [|split; [|split]].
      * rewrite Hrun. f_equal. cbn [List.length]. lia.
      * rewrite Hht, <- app_assoc. reflexivity.
      * rewrite Hhd, <- app_assoc. reflexivity.
      * intros l Hn1 Hn2. rewrite (Hframe l Hn1 Hn2). fields.
        rewrite !lookup_insert_ne by auto. reflexivity.
Qed.

(** [load_file] up to its loop. *)
Lemma load_file_rows self filename σ o content :
  objects σ !! self = Some o -> files σ !! filename = Some content ->
  exists l1 l2,
    (l1 ∉ dom (heap σ)) /\ (l2 ∉ dom (heap σ)) /\ l1 <> l2
    /\ load_file self filename σ
       = (count <- load_rows self (readlines content) 0 ;;
          update_instance self
            (fun o => mkInstance count (_file_flag o) (time_buffer o)
                        (data_buffer o) (steps o)))
           (set_objects
              (<[self := mkInstance (_maxlen o) (_file_flag o) (Some l1)
                           (Some l2) (steps o)]> (objects σ))
              (set_heap (<[l2 := []]> (<[l1 := []]> (heap σ))) σ)).
Proof.
  intros Hself Hfile.
  destruct (rebind_buffers self σ o Hself)
    as (l1 & l2 & Hf1 & Hf2 & Hne & Hrun).
  exists l1, l2. split; [exact Hf1|]. split; [exact Hf2|].
  split; [exact Hne|].
  unfold load_file. rewrite Hrun.
  erewrite bind_ok by (unfold open_r; fields; rewrite Hfile; reflexivity).
  reflexivity.
Qed.

(** What [load_file] leaves when it has taken every line. *)
Lemma load_file_loaded self filename σ o content samples :
  objects σ !! self = Some o -> files σ !! filename = Some content ->
  mapM parse_line (readlines content) = Some samples ->
  exists σ' o',
    load_file self filename σ = Ok tt σ'
    /\ objects σ' !! self = Some o'
    /\ _maxlen o' = Z.of_nat (List.length samples)
    /\ steps o' = steps o
    /\ heap σ' !! default class_time_buffer (time_buffer o')
       = Some samples.*1
    /\ heap σ' !! default class_data_buffer (data_buffer o')
       = Some samples.*2
    /\ files σ' = files σ /\ stdout σ' = stdout σ.
Proof.
  intros Hself Hfile Hlines. apply mapM_Some in Hlines.
  destruct (load_file_rows self filename σ o content Hself Hfile)
    as (l1 & l2 & Hf1 & Hf2 & Hne & ->).
  set (o2 := mkInstance (_maxlen o) (_file_flag o) (Some l1) (Some l2)
               (steps o)).
  set (σa := set_objects (<[self := o2]> (objects σ))
               (set_heap (<[l2 := []]> (<[l1 := []]> (heap σ))) σ)).
  destruct (load_rows_taken self o2 l1 l2 [] eq_refl eq_refl Hne
              (readlines content) samples Hlines [] [] 0 σa)
    as (h & Hrun & Hht & Hhd & _).
  { subst σa. fields. apply lookup_insert_eq. }
  { subst σa. fields. rewrite lookup_insert_ne by auto.
    apply lookup_insert_eq. }
  { subst σa. fields. apply lookup_insert_eq. }
  rewrite app_nil_r in Hrun. cbn [load_rows] in Hrun.
  eexists _, _. split.
  { rewrite (bind_ok _ _ _ _ _ Hrun).
    apply update_instance_ok. subst σa. fields. apply lookup_insert_eq. }
  subst σa o2. fields.
  split; [apply lookup_insert_eq|]. fields.
  split; [rewrite (Forall2_length _ _ _ Hlines); lia|].
  split; [reflexivity|]. split; [exact Hht|]. split; [exact Hhd|].
  split; reflexivity.
Qed.





(** X19.  [load_file] empties the pedometer before it opens the file:
    when the file does not exist, the call raises [FileNotFoundError] and
    leaves the two buffers empty; the capacity and the step count are
    unchanged. *)
Theorem load_file_missing self filename σ o :
  objects σ !! self = Some o -> files σ !! filename = None ->
  exists σ',
    load_file self filename σ = Raise FileNotFoundError σ'
    /\ view self σ' = Some ([], [], default class_steps (steps o))
    /\ _maxlen <$> objects σ' !! self = Some (_maxlen o)
    /\ files σ' = files σ.
Proof.
  intros Hself Hfile.
  destruct (rebind_buffers self σ o Hself)
    as (l1 & l2 & Hf1 & Hf2 & Hne & Hrun).
  eexists. split.
  { unfold load_file. rewrite Hrun.
    erewrite bind_raise by (unfold open_r; fields; rewrite Hfile; reflexivity).
    reflexivity. }
  split; [|split; [|reflexivity]].
  - unfold view. fields. rewrite lookup_insert_eq. fields.
    rewrite (lookup_insert_ne _ l2 l1) by auto.
    rewrite lookup_insert_eq. fields. rewrite lookup_insert_eq. reflexivity.
  - fields. rewrite lookup_insert_eq. reflexivity.
Qed.

Lemma load_file_missing_witness :
  view first after_walk = Some ([10; 30; 50], [512; -7; 498], 3)
  /\ files after_walk !! "walking_50hz.txt" = None
  /\ exists σ',
       load_file first "walking_50hz.txt" after_walk
       = Raise FileNotFoundError σ'
       /\ view first σ' = Some ([], [], 3).
Proof.
  split; [reflexivity|]. split; [reflexivity|].
  destruct (load_file_missing first "walking_50hz.txt" after_walk
              (mkInstance 500 true None None (Some 3)) eq_refl eq_refl)
    as (σ' & Hrun & Hview & _).
  exists σ'. split; [exact Hrun | exact Hview].
Defined.



(** *** Counting *)

(** The counting loop of [__count_steps]. *)
Lemma count_peaks_outcome self peaks :
  forall σ o,
    objects σ !! self = Some o ->
    exists o',
      count_peaks self peaks σ
      = Ok tt (set_objects (<[self := o']> (objects σ)) σ)
      /\ _maxlen o' = _maxlen o
      /\ time_buffer o' = time_buffer o /\ data_buffer o' = data_buffer o
      /\ default class_steps (steps o')
         = default class_steps (steps o)
           + Z.of_nat (List.length (List.filter counted peaks)).
Proof.
  induction peaks as [|peak peaks IH]; intros σ o Hself.
  - exists o. cbn [count_peaks List.filter List.length].
    rewrite insert_id by exact Hself.
    split; [destruct σ; reflexivity|]. repeat split. lia.
  - cbn [count_peaks List.filter]. unfold counted at 1.
    destruct ((peak <? 4000) && (peak >? -200)).
    + erewrite bind_ok.
      2: { erewrite bind_ok
             by (unfold get_steps; step; reflexivity).
           apply update_instance_ok. exact Hself. }
      set (o1 := mkInstance (_maxlen o) (_file_flag o) (time_buffer o)
                   (data_buffer o) (Some (default class_steps (steps o) + 1))).
      destruct (IH (set_objects (<[self := o1]> (objects σ)) σ) o1)
        as (o' & Hrun & Hmax & Ht & Hd & Hsteps).
      { fields. apply lookup_insert_eq. }
      exists o'. split.
      * rewrite Hrun. fields. rewrite insert_insert_eq. reflexivity.
      * repeat split; try assumption.
        rewrite Hsteps. subst o1. fields. cbn [List.length]. lia.
    + erewrite bind_ok by reflexivity.
      destruct (IH σ o Hself) as (o' & Hrun & Hrest). exists o'.
      split; assumption.
Qed.

(** X21.  The counting loop adds to the step count of the instance the
    number of peaks strictly between the two bounds, [-200] and [4000],
    on top of what earlier calls have counted.  It touches no buffer,
    and the count is the instance's own: other pedometers keep theirs. *)
Theorem count_peaks_adds self σ ts ds n peaks :
  view self σ = Some (ts, ds, n) ->
  exists σ',
    count_peaks self peaks σ = Ok tt σ'
    /\ view self σ'
       = Some (ts, ds, n + Z.of_nat (List.length (List.filter counted peaks)))
    /\ heap σ' = heap σ
    /\ forall other, other <> self -> view other σ' = view other σ.
Proof.
  intros Hview.
  destruct (view_parts _ _ _ _ _ Hview) as (o & Hself & Ht & Hd & ->).
  destruct (count_peaks_outcome self peaks σ o Hself)
    as (o' & Hrun & _ & Hto & Hdo & Hsteps).
  eexists. split; [exact Hrun|]. split; [|split; [reflexivity|]].
  - rewrite <- Hsteps. apply view_of_parts; fields.
    + apply lookup_insert_eq.
    + rewrite Hto. exact Ht.
    + rewrite Hdo. exact Hd.
  - intros other Hother. unfold view. fields.
    rewrite lookup_insert_ne by auto. reflexivity.
Qed.

Lemma count_peaks_adds_witness :
  view first after_walk = Some ([10; 30; 50], [512; -7; 498], 3)
  /\ List.filter counted [5; 4000; 17; -200; 3999] = [5; 17; 3999]
  /\ exists σ',
       count_peaks first [5; 4000; 17; -200; 3999] after_walk = Ok tt σ'
       /\ view first σ' = Some ([10; 30; 50], [512; -7; 498], 6).
Proof.
  split; [reflexivity|]. split; [reflexivity|].
  destruct (count_peaks_adds first after_walk [10; 30; 50] [512; -7; 498] 3
              [5; 4000; 17; -200; 3999] eq_refl)
    as (σ' & Hrun & Hview & _).
  exists σ'. split; [exact Hrun | exact Hview].
Defined.

End PedometerFacts.

(** ** The filter pipeline and the peak detector *)

Module SignalFacts.
Import Signal.

Section Lengths.
Variable R : Type.
Variable Radd Rsub Rmul Rdiv : R -> R -> R.
Variable lit : Q -> R.
Variable linear_fit : list R -> R * R.
Variable butter : Z -> R -> list R * list R.

(** The design function returns a denominator. *)
Hypothesis butter_denominator : forall order cutoff, snd (butter order cutoff) <> [].

Lemma detrend_length x :
  x <> [] ->
  exists y, detrend R Radd Rsub Rmul lit linear_fit x = Some y
            /\ List.length y = List.length x.
Proof.
  intros Hx. unfold detrend. destruct x as [|x0 x]; [contradiction|].
  destruct (linear_fit (x0 :: x)) as [slope intercept].
  eexists. split; [reflexivity|]. apply length_imap.
Qed.

Lemma lfilter_run_length b a_tail a0 x :
  forall xh yh,
    List.length (lfilter_run R Radd Rsub Rmul Rdiv lit b a_tail a0 x xh yh)
    = List.length x.
Proof.
  induction x as [|xn x IH]; intros xh yh; simpl; [reflexivity|].
  rewrite IH. reflexivity.
Qed.

Lemma lfilter_length b a x :
  a <> [] ->
  exists y, lfilter R Radd Rsub Rmul Rdiv lit b a x = Some y
            /\ List.length y = List.length x.
Proof.
  intros Ha. unfold lfilter. destruct a as [|a0 a_tail]; [contradiction|].
  eexists. split; [reflexivity|]. apply lfilter_run_length.
Qed.

Lemma gradient_length x :
  (2 <= List.length x)%nat ->
  exists y, gradient R Rsub Rdiv lit x = Some y
            /\ List.length y = List.length x.
Proof.
  intros Hx. unfold gradient.
  destruct (List.length x <? 2)%nat eqn:E; [apply Nat.ltb_lt in E; lia|].
  eexists. split; [reflexivity|]. apply length_imap.
Qed.

(** A buffer of fewer than two samples stops [numpy.gradient]. *)
Lemma gradient_short x :
  (List.length x < 2)%nat -> gradient R Rsub Rdiv lit x = None.
Proof.
  intros Hx. unfold gradient.
  destruct (List.length x <? 2)%nat eqn:E; [reflexivity|].
  apply Nat.ltb_ge in E. lia.
Qed.

Lemma smoothing_length N x :
  exists y, smoothing_filter R Radd Rsub Rmul Rdiv lit N x = Some y
            /\ List.length y = List.length x.
Proof. unfold smoothing_filter. apply lfilter_length. discriminate. Qed.

Lemma lowpass_length cutoff x :
  exists y, lowpass_filter R Radd Rsub Rmul Rdiv lit butter cutoff x = Some y
            /\ List.length y = List.length x.
Proof.
  unfold lowpass_filter. pose proof (butter_denominator 3 cutoff) as Ha.
  destruct (butter 3 cutoff) as [b a]. apply lfilter_length. exact Ha.
Qed.

(** C7, amended.  On a series of at least two samples every stage of the
    pipeline returns a series as long as its input, and so does the
    pipeline as a whole. *)
Theorem pipeline_preserves_length x :
  (2 <= List.length x)%nat ->
  (exists y, demean_filter R Radd Rsub Rmul lit linear_fit x = Some y
             /\ List.length y = List.length x)
  /\ (exists y, smoothing_filter R Radd Rsub Rmul Rdiv lit 4 x = Some y
                /\ List.length y = List.length x)
  /\ (exists y, gradient R Rsub Rdiv lit x = Some y
                /\ List.length y = List.length x)
  /\ (forall cutoff,
        exists y,
          lowpass_filter R Radd Rsub Rmul Rdiv lit butter cutoff x = Some y
          /\ List.length y = List.length x)
  /\ (exists y,
        filter_pedometer R Radd Rsub Rmul Rdiv lit linear_fit butter x = Some y
        /\ List.length y = List.length x).
Proof.
  intros Hx.
  assert (x <> []) as Hne by (intros ->; simpl in Hx; lia).
  split; [apply detrend_length; exact Hne|].
  split; [apply smoothing_length|].
  split; [apply gradient_length; exact Hx|].
  split; [intros cutoff; apply lowpass_length|].
  unfold filter_pedometer, demean_filter.
  destruct (detrend_length x Hne) as (y1 & -> & H1). cbn [mbind option_bind].
  destruct (smoothing_length 4 y1) as (y2 & -> & H2). cbn [mbind option_bind].
  destruct (gradient_length y2) as (y3 & -> & H3); [lia|].
  cbn [mbind option_bind].
  destruct (lowpass_length (Rdiv (lit 5) (Rmul (lit 0.5) (lit 50))) y3)
    as (y4 & -> & H4).
  exists y4. split; [reflexivity | lia].
Qed.

End Lengths.

Lemma pipeline_preserves_length_witness :
  (forall order cutoff, snd (Qbutter order cutoff) <> [])
  /\ (2 <= List.length [512; 498; 530; 507; 489]%Q)%nat
  /\ exists y,
       Qfilter_pedometer [512; 498; 530; 507; 489]%Q = Some y
       /\ List.length y = 5%nat.
Proof.
  assert (forall order cutoff, snd (Qbutter order cutoff) <> []) as Hbutter
    by (intros order cutoff; discriminate).
  split; [exact Hbutter|]. split; [simpl; lia|].
  apply (pipeline_preserves_length Q Qplus Qminus Qmult Qdiv Qid Qfit Qbutter
           Hbutter [512; 498; 530; 507; 489]%Q).
  simpl. lia.
Defined.

(** C7 as stated fails.  A buffer of one sample passes the detrending and
    the smoothing, each time as one sample, and is refused by
    [numpy.gradient]: the stage and the pipeline produce no series. *)
Lemma pipeline_refuses_single_sample :
  option_map (@List.length Q) (Qdemean_filter [512%Q]) = Some 1%nat
  /\ (exists y1 y2,
        Qdemean_filter [512%Q] = Some y1
        /\ Qsmoothing_filter 4 y1 = Some y2
        /\ List.length y2 = 1%nat
        /\ Qgradient y2 = None)
  /\ Qfilter_pedometer [512%Q] = None.
Proof.
  split; [reflexivity|]. split; [|reflexivity].
  eexists _, _. split; [reflexivity|]. split; [reflexivity|].
  split; reflexivity.
Qed.

(** *** Peaks *)

Section Peaks.
Variable R : Type.
Variable lit : Q -> R.
Variable ltb eqb : R -> R -> bool.

(** What the comparisons of the sample type are asked for; it holds of
    floating-point numbers, not-a-number included. *)
Hypothesis ltb_asym : forall a b, ltb a b = true -> ltb b a = false.
Hypothesis eqb_ltb : forall a b c, eqb a b = true -> ltb c a = ltb c b.

Local Notation "x .[ i ]" := (nth i x (lit 0)) (at level 1, format "x .[ i ]").

(** Where the look-ahead stops, the sample before it still compares as
    the sample [i] does. *)
Lemma plateau_end_spec x i i_max fuel :
  forall a,
    (i < a <= i_max)%nat ->
    (forall c, ltb c x.[(a - 1)%nat] = ltb c x.[i]) ->
    (a <= plateau_end R lit eqb fuel x i a i_max <= i_max)%nat
    /\ forall c,
         ltb c x.[(plateau_end R lit eqb fuel x i a i_max - 1)%nat]
         = ltb c x.[i].
Proof.
  induction fuel as [|fuel IH]; intros a Ha Hsame; simpl.
  - split; [lia | exact Hsame].
  - destruct (a <? i_max)%nat eqn:Hlt; simpl; [|split; [lia | exact Hsame]].
    destruct (eqb x.[a] x.[i]) eqn:Heq;
      [|split; [lia | exact Hsame]].
    apply Nat.ltb_lt in Hlt.
    destruct (IH (S a)) as [Hrange Hend].
    + lia.
    + intros c. replace (S a - 1)%nat with a by lia.
      apply eqb_ltb. exact Heq.
    + split; [lia | exact Hend].
Qed.

(** Without two equal samples side by side the look-ahead does not move. *)
Lemma plateau_end_distinct x i i_max fuel :
  (forall j, (j + 1 < List.length x)%nat ->
             eqb x.[(j + 1)%nat] x.[j] = false) ->
  (i_max < List.length x)%nat ->
  plateau_end R lit eqb fuel x i (i + 1) i_max = (i + 1)%nat.
Proof.
  intros Hneq Hmax. destruct fuel as [|fuel]; simpl; [reflexivity|].
  destruct (i + 1 <? i_max)%nat eqn:Hlt; simpl; [|reflexivity].
  apply Nat.ltb_lt in Hlt. rewrite Hneq by lia. reflexivity.
Qed.

Lemma local_maxima_distinct x i_max :
  (forall j, (j + 1 < List.length x)%nat ->
             eqb x.[(j + 1)%nat] x.[j] = false) ->
  (i_max < List.length x)%nat ->
  forall fuel i j,
    (1 <= i)%nat -> (i_max <= fuel + i)%nat ->
    In j (local_maxima R lit ltb eqb fuel x i i_max)
    <-> (i <= j < i_max)%nat
        /\ ltb x.[(j - 1)%nat] x.[j] = true
        /\ ltb x.[(j + 1)%nat] x.[j] = true.
Proof.
  intros Hneq Hmax. induction fuel as [|fuel IH]; intros i j Hi Hfuel.
  - simpl. split; [contradiction | lia].
  - cbn [local_maxima].
    destruct (i <? i_max)%nat eqn:Hlt; [|apply Nat.ltb_ge in Hlt; simpl; split;
                                          [contradiction | lia]].
    apply Nat.ltb_lt in Hlt.
    rewrite (plateau_end_distinct x i i_max _ Hneq Hmax).
    destruct (ltb x.[(i - 1)%nat] x.[i]) eqn:Hleft.
    + destruct (ltb x.[(i + 1)%nat] x.[i]) eqn:Hright.
      * replace ((i + (i + 1 - 1)) / 2)%nat with i
          by (replace (i + (i + 1 - 1))%nat with (i * 2)%nat by lia;
              symmetry; apply Nat.div_mul; lia).
        cbn [In]. rewrite (IH (i + 1 + 1)%nat j) by lia.
        split.
        -- intros [<- | (Hj & Hl & Hr)]; [repeat split; (lia || assumption)|].
           repeat split; (lia || assumption).
        -- intros (Hj & Hl & Hr).
           destruct (Nat.eq_dec i j) as [-> | Hij]; [left; reflexivity|].
           right. repeat split; try assumption; try lia.
           destruct (Nat.eq_dec j (i + 1)%nat) as [-> | Hj1]; [|lia].
           replace (i + 1 - 1)%nat with i in Hl by lia.
           rewrite (ltb_asym _ _ Hright) in Hl. discriminate Hl.
      * rewrite (IH (i + 1)%nat j) by lia.
        split.
        -- intros (Hj & Hl & Hr). repeat split; (lia || assumption).
        -- intros (Hj & Hl & Hr). repeat split; try assumption; try lia.
           destruct (Nat.eq_dec i j) as [-> | Hij]; [|lia].
           rewrite Hright in Hr. discriminate Hr.
    + rewrite (IH (i + 1)%nat j) by lia.
      split.
      * intros (Hj & Hl & Hr). repeat split; (lia || assumption).
      * intros (Hj & Hl & Hr). repeat split; try assumption; try lia.
        destruct (Nat.eq_dec i j) as [-> | Hij]; [|lia].
        rewrite Hleft in Hl. discriminate Hl.
Qed.

Lemma local_maxima_never_rising x i_max :
  (forall j, (j + 1 < List.length x)%nat ->
             ltb x.[j] x.[(j + 1)%nat] = false) ->
  (i_max < List.length x)%nat ->
  forall fuel i, (1 <= i)%nat ->
    local_maxima R lit ltb eqb fuel x i i_max = [].
Proof.
  intros Hmono Hmax. induction fuel as [|fuel IH]; intros i Hi;
    [reflexivity|].
  cbn [local_maxima].
  destruct (i <? i_max)%nat eqn:Hlt; [|reflexivity].
  apply Nat.ltb_lt in Hlt.
  specialize (Hmono (i - 1)%nat).
  replace (i - 1 + 1)%nat with i in Hmono by lia.
  rewrite Hmono by lia. apply IH. lia.
Qed.

Lemma local_maxima_never_falling x i_max :
  (forall j, (j + 1 < List.length x)%nat ->
             ltb x.[(j + 1)%nat] x.[j] = false) ->
  (i_max < List.length x)%nat ->
  forall fuel i, (1 <= i)%nat ->
    local_maxima R lit ltb eqb fuel x i i_max = [].
Proof.
  intros Hmono Hmax. induction fuel as [|fuel IH]; intros i Hi;
    [reflexivity|].
  cbn [local_maxima].
  destruct (i <? i_max)%nat eqn:Hlt; [|reflexivity].
  apply Nat.ltb_lt in Hlt.
  destruct (ltb x.[(i - 1)%nat] x.[i]); [|apply IH; lia].
  destruct (plateau_end_spec x i i_max (List.length x) (i + 1)%nat)
    as [Hrange Hend].
  { lia. }
  { intros c. replace (i + 1 - 1)%nat with i by lia. reflexivity. }
  set (a := plateau_end R lit eqb (List.length x) x i (i + 1) i_max) in *.
  rewrite <- Hend. specialize (Hmono (a - 1)%nat).
  replace (a - 1 + 1)%nat with a in Hmono by lia.
  rewrite Hmono by lia. apply IH. lia.
Qed.

Lemma ltb_irrefl a : ltb a a = false.
Proof.
  destruct (ltb a a) eqn:E; [|reflexivity].
  rewrite (ltb_asym _ _ E) in E. discriminate E.
Qed.

Lemma eqb_not_ltb a b : eqb a b = true -> ltb a b = false.
Proof. intros H. rewrite <- (eqb_ltb _ _ a H). apply ltb_irrefl. Qed.

(** The samples passed by the look-ahead equal the sample [i]. *)
Lemma plateau_end_equal x i i_max fuel :
  forall a,
    (a <= i_max)%nat ->
    (a <= plateau_end R lit eqb fuel x i a i_max <= i_max)%nat
    /\ forall k, (a <= k < plateau_end R lit eqb fuel x i a i_max)%nat ->
                 eqb x.[k] x.[i] = true.
Proof.
  induction fuel as [|fuel IH]; intros a Ha; simpl.
  - split; [lia | intros k Hk; lia].
  - destruct (a <? i_max)%nat eqn:Hlt; simpl;
      [|split; [lia | intros k Hk; lia]].
    destruct (eqb x.[a] x.[i]) eqn:Heq; [|split; [lia | intros k Hk; lia]].
    apply Nat.ltb_lt in Hlt.
    destruct (IH (S a)) as [Hrange Hend]; [lia|].
    split; [lia|]. intros k Hk.
    destruct (Nat.eq_dec k a) as [-> | Hne]; [exact Heq|].
    apply Hend. lia.
Qed.

(** The look-ahead runs to the end of a plateau. *)
Lemma plateau_end_exact x i i_max r :
  (forall k, (i < k <= r)%nat -> eqb x.[k] x.[i] = true) ->
  (r + 1 <= i_max)%nat ->
  ((r + 1)%nat = i_max \/ eqb x.[(r + 1)%nat] x.[i] = false) ->
  forall fuel a,
    (i < a <= r + 1)%nat -> (r + 1 <= fuel + a)%nat ->
    plateau_end R lit eqb fuel x i a i_max = (r + 1)%nat.
Proof.
  intros Heq Hmax Hstop.
  induction fuel as [|fuel IH]; intros a Ha Hfuel; simpl.
  - lia.
  - destruct (Nat.eq_dec a (r + 1)%nat) as [-> | Hne].
    + destruct Hstop as [-> | Hstop].
      * rewrite Nat.ltb_irrefl. reflexivity.
      * rewrite Hstop, andb_false_r. reflexivity.
    + assert ((a <? i_max)%nat = true) as -> by (apply Nat.ltb_lt; lia).
      rewrite Heq by lia. simpl. apply IH; lia.
Qed.

(** Every index returned is the middle of a flat peak. *)
Lemma local_maxima_sound x i_max :
  (i_max < List.length x)%nat ->
  forall fuel i j,
    (1 <= i)%nat ->
    In j (local_maxima R lit ltb eqb fuel x i i_max) ->
    exists l r, flat_peak R lit ltb eqb x l r /\ (i <= l)%nat
                /\ j = ((l + r) / 2)%nat.
Proof.
  intros Hmax. induction fuel as [|fuel IH]; intros i j Hi Hin;
    [contradiction|].
  cbn [local_maxima] in Hin.
  destruct (i <? i_max)%nat eqn:Hlt; [|contradiction].
  apply Nat.ltb_lt in Hlt.
  destruct (ltb x.[(i - 1)%nat] x.[i]) eqn:Hleft.
  - destruct (plateau_end_equal x i i_max (List.length x) (i + 1)%nat)
      as [Hrange Hend]; [lia|].
    set (a := plateau_end R lit eqb (List.length x) x i (i + 1) i_max) in *.
    destruct (ltb x.[a] x.[i]) eqn:Hright.
    + destruct Hin as [<- | Hin].
      * exists i, (a - 1)%nat. split; [|split; [lia | reflexivity]].
        repeat split; try lia; try assumption.
        -- intros k Hk. apply Hend. lia.
        -- replace (a - 1 + 1)%nat with a by lia. exact Hright.
      * destruct (IH (a + 1)%nat j) as (l & r & Hpeak & Hl & Hj);
          [lia | exact Hin |].
        exists l, r. split; [exact Hpeak|]. split; [lia | exact Hj].
    + destruct (IH (i + 1)%nat j) as (l & r & Hpeak & Hl & Hj);
        [lia | exact Hin |].
      exists l, r. split; [exact Hpeak|]. split; [lia | exact Hj].
  - destruct (IH (i + 1)%nat j) as (l & r & Hpeak & Hl & Hj);
      [lia | exact Hin |].
    exists l, r. split; [exact Hpeak|]. split; [lia | exact Hj].
Qed.

(** The middle of every flat peak is returned. *)
Lemma local_maxima_complete x l r :
  flat_peak R lit ltb eqb x l r ->
  forall fuel i,
    (1 <= i <= l)%nat -> (List.length x - 1 <= fuel + i)%nat ->
    In ((l + r) / 2)%nat
       (local_maxima R lit ltb eqb fuel x i (List.length x - 1)).
Proof.
  intros (Hlr & Hr & Hleft & Heq & Hright).
  set (i_max := (List.length x - 1)%nat).
  induction fuel as [|fuel IH]; intros i Hi Hfuel; [subst i_max; lia|].
  cbn [local_maxima].
  assert ((i <? i_max)%nat = true) as -> by (apply Nat.ltb_lt; subst i_max; lia).
  destruct (Nat.eq_dec i l) as [-> | Hne].
  - rewrite Hleft.
    rewrite (plateau_end_exact x l i_max r Heq); try (subst i_max; lia).
    + replace (r + 1 - 1)%nat with r by lia. rewrite Hright.
      left. reflexivity.
    + destruct (Nat.eq_dec (r + 1)%nat i_max) as [E | E]; [left; exact E|].
      right. destruct (eqb x.[(r + 1)%nat] x.[l]) eqn:E'; [|reflexivity].
      rewrite (eqb_not_ltb _ _ E') in Hright. discriminate Hright.
  - destruct (ltb x.[(i - 1)%nat] x.[i]) eqn:Hrise; [|apply IH; lia].
    destruct (plateau_end_equal x i i_max (List.length x) (i + 1)%nat)
      as [Hrange Hend]; [subst i_max; lia|].
    set (a := plateau_end R lit eqb (List.length x) x i (i + 1) i_max) in *.
    destruct (ltb x.[a] x.[i]) eqn:Hfall; [|apply IH; lia].
    right. apply IH; [|lia].
    split; [lia|].
    (* the peak found at [i] ends before [l] *)
    destruct (Nat.lt_ge_cases a l) as [Hal | Hal]; [lia|]. exfalso.
    assert (forall k, (i <= k < a)%nat -> forall c, ltb c x.[k] = ltb c x.[i])
      as Hsame.
    { intros k Hk c. destruct (Nat.eq_dec k i) as [-> | Hki]; [reflexivity|].
      apply eqb_ltb. apply Hend. lia. }
    destruct (Nat.eq_dec a l) as [Hal' | Hal'].
    + (* [l] is where the samples fall *)
      subst a. rewrite Hal' in *.
      rewrite <- (Hsame (l - 1)%nat) in Hfall by lia.
      rewrite (ltb_asym _ _ Hfall) in Hleft. discriminate Hleft.
    + (* [l] lies on the plateau that starts at [i] *)
      rewrite (Hsame l) in Hleft by lia.
      destruct (Nat.eq_dec (l - 1)%nat i) as [E | E].
      * rewrite E, ltb_irrefl in Hleft. discriminate Hleft.
      * rewrite (eqb_not_ltb x.[(l - 1)%nat] x.[i]) in Hleft
          by (apply Hend; lia).
        discriminate Hleft.
Qed.

(** C8, amended.  [find_peaks] returns exactly the middles, rounded down,
    of the flat peaks of the series: runs of equal samples with a strictly
    smaller sample just before and just after.  On a series without two
    equal samples side by side these are exactly the indices whose sample
    is strictly greater than both neighbours; on a series that never
    rises, or never falls, there is none. *)
Theorem find_peaks_local_maxima x :
  (forall j,
     In j (find_peaks R lit ltb eqb x)
     <-> exists l r, flat_peak R lit ltb eqb x l r /\ j = ((l + r) / 2)%nat)
  /\ ((forall j, (j + 1 < List.length x)%nat ->
               eqb x.[(j + 1)%nat] x.[j] = false) ->
      forall j,
        In j (find_peaks R lit ltb eqb x)
        <-> (1 <= j)%nat /\ (j + 1 < List.length x)%nat
            /\ ltb x.[(j - 1)%nat] x.[j] = true
            /\ ltb x.[(j + 1)%nat] x.[j] = true)
  /\ ((forall j, (j + 1 < List.length x)%nat ->
               ltb x.[j] x.[(j + 1)%nat] = false) ->
      find_peaks R lit ltb eqb x = [])
  /\ ((forall j, (j + 1 < List.length x)%nat ->
               ltb x.[(j + 1)%nat] x.[j] = false) ->
      find_peaks R lit ltb eqb x = []).
Proof.
  unfold find_peaks.
  destruct x as [|x0 x].
  { split; [|split; [|split; reflexivity]].
    - intros j. simpl. split; [contradiction|].
      intros (l & r & (_ & Hr & _) & _). simpl in Hr. lia.
    - intros _ j. simpl. split; [contradiction | lia]. }
  set (s := x0 :: x).
  assert (List.length s - 1 < List.length s)%nat as Hmax by (simpl; lia).
  split; [|split; [|split]].
  - intros j. split.
    + intros Hin.
      destruct (local_maxima_sound s _ Hmax _ 1%nat j (le_n 1) Hin)
        as (l & r & Hpeak & _ & Hj).
      exists l, r. split; assumption.
    + intros (l & r & Hpeak & ->).
      apply local_maxima_complete; [exact Hpeak | | lia].
      destruct Hpeak as (Hlr & _). lia.
  - intros Hneq j.
    rewrite (local_maxima_distinct s _ Hneq Hmax (List.length s) 1 j) by lia.
    split.
    + intros (H1 & H2 & H3). repeat split; (assumption || lia).
    + intros (H1 & H2 & H3 & H4). repeat split; (assumption || lia).
  - intros Hmono. apply local_maxima_never_rising; (assumption || lia).
  - intros Hmono. apply local_maxima_never_falling; (assumption || lia).
Qed.

End Peaks.

Lemma Qltb_asym a b : Qltb a b = true -> Qltb b a = false.
Proof.
  unfold Qltb. intros H. apply negb_true_iff in H. apply negb_false_iff.
  apply Qle_bool_iff. apply Qlt_le_weak. apply Qnot_le_lt.
  intros Hle. apply Qle_bool_iff in Hle. rewrite Hle in H. discriminate H.
Qed.

Lemma Qeq_ltb a b c : Qeq_bool a b = true -> Qltb c a = Qltb c b.
Proof.
  intros H. apply Qeq_bool_iff in H. unfold Qltb. f_equal.
  destruct (Qle_bool a c) eqn:Ha, (Qle_bool b c) eqn:Hb; try reflexivity.
  - apply Qle_bool_iff in Ha. rewrite H in Ha. apply Qle_bool_iff in Ha.
    rewrite Ha in Hb. discriminate Hb.
  - apply Qle_bool_iff in Hb. rewrite <- H in Hb. apply Qle_bool_iff in Hb.
    rewrite Hb in Ha. discriminate Ha.
Qed.

Lemma find_peaks_local_maxima_witness :
  (forall j, (j + 1 < List.length [0; 1; 0; 2; 0]%Q)%nat ->
     Qeq_bool (nth (j + 1) [0; 1; 0; 2; 0]%Q (Qid 0))
              (nth j [0; 1; 0; 2; 0]%Q (Qid 0)) = false)
  /\ (forall j, (j + 1 < List.length [1; 2; 2; 3]%Q)%nat ->
        Qltb (nth (j + 1) [1; 2; 2; 3]%Q (Qid 0))
             (nth j [1; 2; 2; 3]%Q (Qid 0)) = false)
  /\ flat_peak Q Qid Qltb Qeq_bool [0; 1; 1; 0]%Q 1 2
  /\ In 3%nat (Qfind_peaks [0; 1; 0; 2; 0]%Q)
  /\ Qfind_peaks [1; 2; 2; 3]%Q = []
  /\ In ((1 + 2) / 2)%nat (Qfind_peaks [0; 1; 1; 0]%Q).
Proof.
  assert (forall j, (j + 1 < List.length [0; 1; 0; 2; 0]%Q)%nat ->
            Qeq_bool (nth (j + 1) [0; 1; 0; 2; 0]%Q (Qid 0))
                     (nth j [0; 1; 0; 2; 0]%Q (Qid 0)) = false) as Hneq.
  { intros [|[|[|[|j]]]] Hj; try reflexivity. simpl in Hj. lia. }
  assert (forall j, (j + 1 < List.length [1; 2; 2; 3]%Q)%nat ->
            Qltb (nth (j + 1) [1; 2; 2; 3]%Q (Qid 0))
                 (nth j [1; 2; 2; 3]%Q (Qid 0)) = false) as Hmono.
  { intros [|[|[|j]]] Hj; try reflexivity. simpl in Hj. lia. }
  assert (flat_peak Q Qid Qltb Qeq_bool [0; 1; 1; 0]%Q 1 2) as Hflat.
  { repeat split; try (simpl; lia).
    intros [|[|[|k]]] Hk; try reflexivity; lia. }
  split; [exact Hneq|]. split; [exact Hmono|]. split; [exact Hflat|].
  split; [|split].
  - destruct (find_peaks_local_maxima Q Qid Qltb Qeq_bool Qltb_asym Qeq_ltb
                [0; 1; 0; 2; 0]%Q) as (_ & Hstrict & _).
    apply (Hstrict Hneq). repeat split; simpl; lia.
  - destruct (find_peaks_local_maxima Q Qid Qltb Qeq_bool Qltb_asym Qeq_ltb
                [1; 2; 2; 3]%Q) as (_ & _ & _ & Hfall).
    exact (Hfall Hmono).
  - destruct (find_peaks_local_maxima Q Qid Qltb Qeq_bool Qltb_asym Qeq_ltb
                [0; 1; 1; 0]%Q) as (Hall & _).
    apply Hall. exists 1%nat, 2%nat. split; [exact Hflat | reflexivity].
Defined.

(** C8 as stated fails.  In [0, 1, 1, 0] no sample is strictly greater
    than both its neighbours, and [find_peaks] returns the index 1: the
    middle, rounded down, of the flat top. *)
Lemma find_peaks_flat_peak :
  Qfind_peaks [0; 1; 1; 0]%Q = [1%nat]
  /\ Qltb (nth 2 [0; 1; 1; 0]%Q 0%Q) (nth 1 [0; 1; 1; 0]%Q 0%Q) = false
  /\ forall j, (1 <= j)%nat -> (j + 1 < 4)%nat ->
       Qltb (nth (j - 1) [0; 1; 1; 0]%Q 0%Q) (nth j [0; 1; 1; 0]%Q 0%Q)
       && Qltb (nth (j + 1) [0; 1; 1; 0]%Q 0%Q) (nth j [0; 1; 1; 0]%Q 0%Q)
       = false.
Proof.
  split; [reflexivity|]. split; [reflexivity|].
  intros [|[|[|j]]] H1 H2; try reflexivity; lia.
Qed.

(** *** Where the peaks lie *)

Section PeakOrder.
Variable R : Type.
Variable lit : Q -> R.
Variable ltb eqb : R -> R -> bool.

Lemma midpoint_between i a :
  (i + 1 <= a)%nat -> (i <= (i + (a - 1)) / 2 <= a - 1)%nat.
Proof.
  intros Ha. split.
  - apply Nat.div_le_lower_bound; lia.
  - apply Nat.Div0.div_le_upper_bound; lia.
Qed.

(** The indices that the search returns from [i] on lie between [i] and
    [i_max], and each is at least two after the one before. *)
Lemma local_maxima_order x i_max :
  forall fuel i,
    (forall p, In p (local_maxima R lit ltb eqb fuel x i i_max) ->
               (i <= p < i_max)%nat)
    /\ (forall a b p q,
          (a < b)%nat ->
          local_maxima R lit ltb eqb fuel x i i_max !! a = Some p ->
          local_maxima R lit ltb eqb fuel x i i_max !! b = Some q ->
          (p + 2 <= q)%nat).
Proof.
  induction fuel as [|fuel IH]; intros i.
  - split; [intros p [] | intros a b p q _ H; discriminate H].
  - cbn [local_maxima].
    destruct (i <? i_max)%nat eqn:Hlt;
      [|split; [intros p [] | intros a b p q _ H; discriminate H]].
    apply Nat.ltb_lt in Hlt.
    assert (forall j, (i <= j)%nat ->
              (forall p, In p (local_maxima R lit ltb eqb fuel x j i_max) ->
                         (i <= p < i_max)%nat)
              /\ (forall a b p q,
                    (a < b)%nat ->
                    local_maxima R lit ltb eqb fuel x j i_max !! a = Some p ->
                    local_maxima R lit ltb eqb fuel x j i_max !! b = Some q ->
                    (p + 2 <= q)%nat)) as Hlater.
    { intros j Hj. destruct (IH j) as [Hin Hsep]. split; [|exact Hsep].
      intros p Hp. specialize (Hin p Hp). lia. }
    destruct (ltb (nth (i - 1) x (lit 0)) (nth i x (lit 0)));
      [|apply Hlater; lia].
    destruct (plateau_end_equal R lit eqb x i i_max (List.length x)
                (i + 1)%nat) as [Hrange _]; [lia|].
    set (a0 := plateau_end R lit eqb (List.length x) x i (i + 1) i_max) in *.
    destruct (ltb (nth a0 x (lit 0)) (nth i x (lit 0)));
      [|apply Hlater; lia].
    destruct (midpoint_between i a0) as [Hlow Hhigh]; [lia|].
    remember ((i + (a0 - 1)) / 2)%nat as m eqn:Hm.
    destruct (IH (a0 + 1)%nat) as [Hin Hsep]. split.
    + intros p [<- | Hp]; [lia|]. specialize (Hin p Hp). lia.
    + intros a b p q Hab Ha Hb.
      destruct b as [|b]; [lia|]. cbn in Hb.
      pose proof Hb as Hq.
      apply list_elem_of_lookup_2, list_elem_of_In in Hq.
      specialize (Hin q Hq).
      destruct a as [|a]; cbn in Ha.
      * injection Ha as <-. lia.
      * apply (Hsep a b); [lia | assumption | assumption].
Qed.

(** No more than one peak for every two samples after the first. *)
Lemma local_maxima_count x i_max :
  forall fuel i,
    (2 * List.length (local_maxima R lit ltb eqb fuel x i i_max)
     <= i_max + 1 - i)%nat.
Proof.
  induction fuel as [|fuel IH]; intros i; [simpl; lia|].
  cbn [local_maxima].
  destruct (i <? i_max)%nat eqn:Hlt; [|simpl; lia].
  apply Nat.ltb_lt in Hlt.
  destruct (ltb (nth (i - 1) x (lit 0)) (nth i x (lit 0)));
    [|specialize (IH (i + 1)%nat); lia].
  destruct (plateau_end_equal R lit eqb x i i_max (List.length x)
              (i + 1)%nat) as [Hrange _]; [lia|].
  set (a0 := plateau_end R lit eqb (List.length x) x i (i + 1) i_max) in *.
  destruct (ltb (nth a0 x (lit 0)) (nth i x (lit 0)));
    [|specialize (IH (i + 1)%nat); lia].
  cbn [List.length]. specialize (IH (a0 + 1)%nat). lia.
Qed.

Lemma find_peaks_range x p :
  In p (find_peaks R lit ltb eqb x) -> (1 <= p)%nat /\ (p + 1 < List.length x)%nat.
Proof.
  intros Hp. unfold find_peaks in Hp.
  destruct (local_maxima_order x (List.length x - 1) (List.length x) 1)
    as [Hin _].
  specialize (Hin p Hp). lia.
Qed.

Lemma find_peaks_count x :
  (2 * List.length (find_peaks R lit ltb eqb x) <= List.length x - 1)%nat.
Proof.
  unfold find_peaks.
  pose proof (local_maxima_count x (List.length x - 1) (List.length x) 1).
  lia.
Qed.

(** X22.  Whatever the series and whatever the comparisons of the sample
    type, the indices that [find_peaks] returns are never the first nor
    the last index, come in increasing order with at least one index
    between two of them, and are at most one for every two samples
    after the first. *)
Theorem find_peaks_separated x :
  (forall p, In p (find_peaks R lit ltb eqb x) ->
             (1 <= p)%nat /\ (p + 1 < List.length x)%nat)
  /\ (forall a b p q,
        (a < b)%nat ->
        find_peaks R lit ltb eqb x !! a = Some p ->
        find_peaks R lit ltb eqb x !! b = Some q ->
        (p + 2 <= q)%nat)
  /\ (2 * List.length (find_peaks R lit ltb eqb x) <= List.length x - 1)%nat.
Proof.
  split; [apply find_peaks_range|]. split; [|apply find_peaks_count].
  unfold find_peaks.
  apply (local_maxima_order x (List.length x - 1) (List.length x) 1).
Qed.

End PeakOrder.

(** *** Buffers too short for the pipeline *)

Section ShortBuffers.
Variable R : Type.
Variable Radd Rsub Rmul Rdiv : R -> R -> R.
Variable lit : Q -> R.
Variable linear_fit : list R -> R * R.
Variable butter : Z -> R -> list R * list R.

Hypothesis butter_denominator : forall order cutoff, snd (butter order cutoff) <> [].

(** X23.  The pipeline of [__filter_pedometer] fails exactly on buffers
    of fewer than two samples: an empty buffer is refused by the
    detrending, a buffer of one sample by [numpy.gradient]; every longer
    buffer passes all four stages. *)
Theorem pipeline_needs_two_samples x :
  filter_pedometer R Radd Rsub Rmul Rdiv lit linear_fit butter x = None
  <-> (List.length x < 2)%nat.
Proof.
  split.
  - intros Hnone. destruct (Nat.lt_ge_cases (List.length x) 2) as [H | H];
      [exact H|]. exfalso.
    assert (x <> []) as Hne by (intros ->; simpl in H; lia).
    unfold filter_pedometer, demean_filter in Hnone.
    destruct (detrend_length R Radd Rsub Rmul lit linear_fit x Hne)
      as (y1 & Hy1 & H1).
    rewrite Hy1 in Hnone. cbn [mbind option_bind] in Hnone.
    destruct (smoothing_length R Radd Rsub Rmul Rdiv lit 4 y1)
      as (y2 & Hy2 & H2).
    rewrite Hy2 in Hnone. cbn [mbind option_bind] in Hnone.
    destruct (gradient_length R Rsub Rdiv lit y2) as (y3 & Hy3 & H3); [lia|].
    rewrite Hy3 in Hnone. cbn [mbind option_bind] in Hnone.
    destruct (lowpass_length R Radd Rsub Rmul Rdiv lit butter
                butter_denominator
                (Rdiv (lit 5) (Rmul (lit 0.5) (lit 50))) y3)
      as (y4 & Hy4 & _).
    rewrite Hy4 in Hnone. discriminate Hnone.
  - intros Hlen. destruct x as [|x0 [|x1 x]];
      [reflexivity | | simpl in Hlen; lia].
    unfold filter_pedometer, demean_filter.
    destruct (detrend_length R Radd Rsub Rmul lit linear_fit [x0])
      as (y1 & -> & H1); [discriminate|].
    cbn [mbind option_bind].
    destruct (smoothing_length R Radd Rsub Rmul Rdiv lit 4 y1)
      as (y2 & -> & H2).
    cbn [mbind option_bind].
    rewrite (gradient_short R Rsub Rdiv lit y2) by (simpl in *; lia).
    reflexivity.
Qed.

End ShortBuffers.

Lemma pipeline_needs_two_samples_witness :
  (forall order cutoff, snd (Qbutter order cutoff) <> [])
  /\ Qfilter_pedometer [512%Q] = None
  /\ Qfilter_pedometer [] = None.
Proof.
  assert (forall order cutoff, snd (Qbutter order cutoff) <> []) as Hbutter
    by (intros order cutoff; discriminate).
  split; [exact Hbutter|]. split.
  - apply (pipeline_needs_two_samples Q Qplus Qminus Qmult Qdiv Qid Qfit
             Qbutter Hbutter [512%Q]). simpl. lia.
  - apply (pipeline_needs_two_samples Q Qplus Qminus Qmult Qdiv Qid Qfit
             Qbutter Hbutter []). simpl. lia.
Defined.

End SignalFacts.

(** ** From the peaks to the step count *)

Module StepFacts.
Import Signal.

Section Steps.
Variable R : Type.
Variable lit : Q -> R.
Variable ltb eqb : R -> R -> bool.

(** Of the two bounds of the counting loop only the upper one can exclude
    an index. *)
Lemma counted_indices (peaks : list nat) :
  List.filter Pedometer.counted (map Z.of_nat peaks)
  = map Z.of_nat (List.filter (fun p => (p <? 4000)%nat) peaks).
Proof.
  induction peaks as [|p peaks IH]; [reflexivity|].
  cbn [map List.filter]. unfold Pedometer.counted at 1.
  assert ((Z.of_nat p >? -200) = true) as ->
    by (rewrite Z.gtb_ltb; apply Z.ltb_lt; lia).
  rewrite andb_true_r.
  destruct (p <? 4000)%nat eqn:E.
  - apply Nat.ltb_lt in E.
    assert ((Z.of_nat p <? 4000) = true) as -> by (apply Z.ltb_lt; lia).
    cbn [map]. rewrite IH. reflexivity.
  - apply Nat.ltb_ge in E.
    assert ((Z.of_nat p <? 4000) = false) as -> by (apply Z.ltb_ge; lia).
    exact IH.
Qed.

Lemma all_below (peaks : list nat) :
  (forall p, In p peaks -> (p < 4000)%nat) ->
  List.filter (fun p => (p <? 4000)%nat) peaks = peaks.
Proof.
  induction peaks as [|p peaks IH]; intros Hall; [reflexivity|].
  cbn [List.filter].
  assert ((p <? 4000)%nat = true) as ->
    by (apply Nat.ltb_lt, Hall; left; reflexivity).
  rewrite IH; [reflexivity|]. intros q Hq. apply Hall. right. exact Hq.
Qed.

(** X24.  The counting loop of [__count_steps], run on the indices that
    [find_peaks] returns for a series, adds to the step count the number
    of peaks at an index below 4000: the lower bound, [-200], excludes
    no index.  For a series of at most 4001 samples every peak is
    counted, so the count grows by the number of peaks, which is at most
    one for every two samples after the first. *)
Theorem count_steps_of_peaks self σ ts ds n (x : list R) :
  Pedometer.view self σ = Some (ts, ds, n) ->
  exists σ',
    Pedometer.count_peaks self (map Z.of_nat (find_peaks R lit ltb eqb x)) σ
    = Pedometer.Ok tt σ'
    /\ Pedometer.view self σ'
       = Some (ts, ds,
               n + Z.of_nat
                     (List.length
                        (List.filter (fun p => (p <? 4000)%nat)
                           (find_peaks R lit ltb eqb x))))
    /\ ((List.length x <= 4001)%nat ->
        List.filter (fun p => (p <? 4000)%nat) (find_peaks R lit ltb eqb x)
        = find_peaks R lit ltb eqb x
        /\ (2 * List.length (find_peaks R lit ltb eqb x)
            <= List.length x - 1)%nat).
Proof.
  intros Hview.
  destruct (PedometerFacts.view_parts _ _ _ _ _ Hview)
    as (o & Hself & Ht & Hd & ->).
  destruct (PedometerFacts.count_peaks_outcome self
              (map Z.of_nat (find_peaks R lit ltb eqb x)) σ o Hself)
    as (o' & Hrun & _ & Hto & Hdo & Hsteps).
  rewrite counted_indices, length_map in Hsteps.
  eexists. split; [exact Hrun|]. split.
  - rewrite <- Hsteps. apply PedometerFacts.view_of_parts; simpl.
    + apply lookup_insert_eq.
    + rewrite Hto. exact Ht.
    + rewrite Hdo. exact Hd.
  - intros Hlen. split; [|apply SignalFacts.find_peaks_count].
    apply all_below. intros p Hp.
    apply SignalFacts.find_peaks_range in Hp. lia.
Qed.

End Steps.

Lemma count_steps_of_peaks_witness :
  Pedometer.view Pedometer.first Pedometer.after_walk
  = Some ([10; 30; 50], [512; -7; 498], 3)
  /\ Qfind_peaks [0; 1; 0; 2; 0]%Q = [1; 3]%nat
  /\ exists σ',
       Pedometer.count_peaks Pedometer.first
         (map Z.of_nat (Qfind_peaks [0; 1; 0; 2; 0]%Q)) Pedometer.after_walk
       = Pedometer.Ok tt σ'
       /\ Pedometer.view Pedometer.first σ'
          = Some ([10; 30; 50], [512; -7; 498], 5).
Proof.
  split; [reflexivity|]. split; [reflexivity|].
  destruct (count_steps_of_peaks Q Qid Qltb Qeq_bool Pedometer.first
              Pedometer.after_walk [10; 30; 50] [512; -7; 498] 3
              [0; 1; 0; 2; 0]%Q eq_refl)
    as (σ' & Hrun & Hview & _).
  exists σ'. split; [exact Hrun | exact Hview].
Defined.

End StepFacts.
